(** * POAI consensus core: a shallow embedding and its verified properties

    The development follows the Go sources of the node: the header and
    block model ([core/header], [core/block.go]), the subsidy schedule,
    the difficulty engine ([core/difficulty.go]), the procedural quiz
    ([dataset]), the validator replay path, the chain manager, the miner
    template target and nonce search, the block store, the epoch keys
    and the head, block-request and parent-request handlers of the sync
    protocol.

    Conventions.  A [uint64] is a [Z] in [0, 2^64) and an [int64] a [Z]
    in [-2^63, 2^63); every wrap-around of the source is written out.
    A [*big.Int] is an [option Z] ([None] is the nil pointer).  A byte is
    a [Z] in [0, 256); [[32]byte] and [[]byte] are [list Z].  Go maps are
    [gmap]s; where the source ranges over a map, the order in which Go
    yields the keys is an explicit argument. *)

From Stdlib Require Import ZArith List String Ascii Lia Bool.
From Stdlib Require Import DecimalString DecimalZ.
From stdpp Require Import base option list gmap.

Local Open Scope Z_scope.

(* ===================================================================== *)
(** * Part I: definitions                                                 *)
(* ===================================================================== *)

(** ** Machine integers *)

Module Int.

Definition two64 : Z := 2 ^ 64.
Definition two63 : Z := 2 ^ 63.
Definition max_uint64 : Z := two64 - 1.
Definition min_int64 : Z := - two63.
Definition max_int64 : Z := two63 - 1.

Definition is_uint64 (x : Z) : Prop := 0 <= x < two64.
Definition is_int64 (x : Z) : Prop := min_int64 <= x <= max_int64.
Definition is_byte (x : Z) : Prop := 0 <= x < 256.

(** Conversion to [uint64]: keep the low 64 bits. *)
Definition to_uint64 (x : Z) : Z := x mod two64.

(** Conversion to [int64]: the low 64 bits read in two's complement. *)
Definition to_int64 (x : Z) : Z := (x + two63) mod two64 - two63.

(** Conversion to [int32], two's complement. *)
Definition to_int32 (x : Z) : Z := (x + 2 ^ 31) mod 2 ^ 32 - 2 ^ 31.

(** [byte(v)]: the low 8 bits. *)
Definition to_byte (x : Z) : Z := x mod 256.

(** Go's [/] and [%] on signed integers truncate toward zero. *)
Definition quo (a b : Z) : Z := Z.quot a b.
Definition rem (a b : Z) : Z := Z.rem a b.

End Int.

(** ** math/big *)

Module Big.

(** [Int.Int64]: [v := int64(low64(x.abs)); if x.neg { v = -v }]. *)
Definition Int64 (x : Z) : Z :=
  let v := Int.to_int64 (Z.abs x mod Int.two64) in
  if x <? 0 then Int.to_int64 (- v) else v.

(** [Int.Div]: Euclidean division, the remainder is never negative. *)
Definition Div (x y : Z) : Z :=
  if 0 <? y then x / y else - (x / - y).

(** [Int.Rsh] of a non-negative value by [n] bits. *)
Definition Rsh (x : Z) (n : Z) : Z := Z.shiftr x n.

(** [Int.String]: decimal digits, a minus sign before a negative value. *)
Definition String (x : Z) : string := NilZero.string_of_int (Z.to_int x).

(** [Int.SetString(s, 10)]: an optional sign, then one or more decimal
    digits and nothing else; [None] when [s] is not of that form. *)
Definition SetString (s : string) : option Z :=
  match s with
  | String.String "+"%char s' => option_map Z.of_uint (NilZero.uint_of_string s')
  | String.String "-"%char s' =>
      option_map (fun u => - Z.of_uint u) (NilZero.uint_of_string s')
  | _ => option_map Z.of_uint (NilZero.uint_of_string s)
  end.

(** What [SetString] has scanned when it stops: the value of the
    longest run of decimal digits at the start of [s], how many digits
    that run has, and the text that follows it. *)
Fixpoint scan_digits (s : string) (acc : Z) (count : nat) : Z * nat * string :=
  match s with
  | String.String c s' =>
      let d := Z.of_nat (nat_of_ascii c) - 48 in
      if (0 <=? d) && (d <=? 9) then scan_digits s' (10 * acc + d) (S count)
      else (acc, count, s)
  | EmptyString => (acc, count, s)
  end.

(** The value of a fresh receiver after [SetString(s, 10)], also when
    the call fails: the sign is read, then the digits up to the first
    character that is not one; without any digit the value is zero.
    ([SetString] fails when something follows the digits, and the
    receiver keeps what was scanned.) *)
Definition scanned (s : string) : Z :=
  let '(neg, rest) :=
    match s with
    | String.String "+"%char s' => (false, s')
    | String.String "-"%char s' => (true, s')
    | _ => (false, s)
    end in
  let '(v, count, _) := scan_digits rest 0 0 in
  if (count =? 0)%nat then 0 else if neg then - v else v.

End Big.

(** ** encoding/binary, little endian *)

Module LittleEndian.

(** [PutUint64(b, v)] writes [byte(v)], [byte(v >> 8)], ... into
    [b[0..7]]; the embedding returns the eight bytes written. *)
Definition PutUint64 (v : Z) : list Z :=
  [ Int.to_byte v;
    Int.to_byte (Z.shiftr v 8);
    Int.to_byte (Z.shiftr v 16);
    Int.to_byte (Z.shiftr v 24);
    Int.to_byte (Z.shiftr v 32);
    Int.to_byte (Z.shiftr v 40);
    Int.to_byte (Z.shiftr v 48);
    Int.to_byte (Z.shiftr v 56) ].

(** [Uint64(b)] reads [b[0] | b[1]<<8 | ... | b[7]<<56]; a slice
    shorter than eight bytes panics ([None]). *)
Definition Uint64 (b : list Z) : option Z :=
  match b with
  | b0 :: b1 :: b2 :: b3 :: b4 :: b5 :: b6 :: b7 :: _ =>
      Some (Z.lor b0 (Z.lor (Z.shiftl b1 8) (Z.lor (Z.shiftl b2 16)
           (Z.lor (Z.shiftl b3 24) (Z.lor (Z.shiftl b4 32)
           (Z.lor (Z.shiftl b5 40) (Z.lor (Z.shiftl b6 48)
                  (Z.shiftl b7 56))))))))
  | _ => None
  end.

End LittleEndian.

(** ** Slices *)

(** [copy(dst[off:off+n], src)] on a byte buffer: the first
    [min n (len src)] bytes of [src] overwrite [dst] from [off]. *)
Definition copy_into (dst : list Z) (off n : nat) (src : list Z) : list Z :=
  let k := Nat.min n (length src) in
  take off dst ++ take k src ++ drop (off + k) dst.

(** [[]byte(s)]: the bytes of a Go string. *)
Definition bytes_of_string (s : string) : list Z :=
  map (fun c => Z.of_nat (nat_of_ascii c)) (list_ascii_of_string s).

(** The little-endian representation of [v] on [n] bytes, byte [i] being
    [(v / 256^i) mod 256]: the reading of "little-endian" that the
    buffer written by [PutUint64] is compared with. *)
Fixpoint le_bytes (n : nat) (v : Z) : list Z :=
  match n with
  | O => []
  | S n' => v mod 256 :: le_bytes n' (v / 256)
  end.

(** ** SHA3-256 (FIPS 202), as [crypto/sha3.Sum256] computes it *)

Module Keccak.

Definition mask64 : Z := 2 ^ 64 - 1.

Definition rotl64 (x n : Z) : Z :=
  Z.lor (Z.land (Z.shiftl x n) mask64) (Z.shiftr x (64 - n)).

(** Round constants of the iota step. *)
Definition RC : list Z :=
  [ 0x0000000000000001; 0x0000000000008082; 0x800000000000808A;
    0x8000000080008000; 0x000000000000808B; 0x0000000080000001;
    0x8000000080008081; 0x8000000000008009; 0x000000000000008A;
    0x0000000000000088; 0x0000000080008009; 0x000000008000000A;
    0x000000008000808B; 0x800000000000008B; 0x8000000000008089;
    0x8000000000008003; 0x8000000000008002; 0x8000000000000080;
    0x000000000000800A; 0x800000008000000A; 0x8000000080008081;
    0x8000000000008080; 0x0000000080000001; 0x8000000080008008 ].

(** Rotation offsets of the rho step; lane [(x, y)] is at index
    [x + 5 * y]. *)
Definition rotc : list Z :=
  [ 0; 1; 62; 28; 27;   36; 44; 6; 55; 20;   3; 10; 43; 25; 39;
    41; 45; 15; 21; 8;  18; 2; 61; 56; 14 ].

Definition lane (A : list Z) (i : nat) : Z := nth i A 0.

Definition lanes : list nat := seq 0 25.

Definition column (A : list Z) (x : nat) : Z :=
  Z.lxor (lane A x) (Z.lxor (lane A (x + 5)) (Z.lxor (lane A (x + 10))
         (Z.lxor (lane A (x + 15)) (lane A (x + 20))))).

Definition theta (A : list Z) : list Z :=
  let C := map (column A) (seq 0 5) in
  let D (x : nat) :=
    Z.lxor (nth ((x + 4) mod 5) C 0) (rotl64 (nth ((x + 1) mod 5) C 0) 1) in
  map (fun i => Z.lxor (lane A i) (D (i mod 5)%nat)) lanes.

Definition rho_pi (A : list Z) : list Z :=
  map (fun i =>
         let X := (i mod 5)%nat in
         let Y := (i / 5)%nat in
         let src := (((X + 3 * Y) mod 5) + 5 * X)%nat in
         rotl64 (lane A src) (nth src rotc 0)) lanes.

Definition chi (B : list Z) : list Z :=
  map (fun i =>
         let x := (i mod 5)%nat in
         let y := (i / 5)%nat in
         let b1 := lane B (((x + 1) mod 5) + 5 * y) in
         let b2 := lane B (((x + 2) mod 5) + 5 * y) in
         Z.lxor (lane B i) (Z.land (Z.lxor b1 mask64) b2)) lanes.

Definition iota (rc : Z) (A : list Z) : list Z :=
  match A with
  | a :: t => Z.lxor a rc :: t
  | [] => []
  end.

Definition round (A : list Z) (rc : Z) : list Z :=
  iota rc (chi (rho_pi (theta A))).

Definition keccak_f (A : list Z) : list Z := fold_left round RC A.

(** Bytes to 64-bit lanes and back, little endian. *)
Fixpoint le_combine (bs : list Z) : Z :=
  match bs with
  | [] => 0
  | b :: t => Z.lor b (Z.shiftl (le_combine t) 8)
  end.

Fixpoint to_lanes (n : nat) (bs : list Z) : list Z :=
  match n with
  | O => []
  | S n' => le_combine (take 8 bs) :: to_lanes n' (drop 8 bs)
  end.

Definition from_lanes (A : list Z) : list Z :=
  concat (map (le_bytes 8) A).

Fixpoint xor_lanes (A L : list Z) : list Z :=
  match A, L with
  | a :: A', l :: L' => Z.lxor a l :: xor_lanes A' L'
  | _, [] => A
  | [], _ => []
  end.

(** Multi-rate padding after the domain byte [d]: [0x06] for SHA-3,
    [0x01] for the original Keccak. *)
Definition pad (rate : nat) (d : Z) (msg : list Z) : list Z :=
  let q := (rate - length msg mod rate)%nat in
  if (q =? 1)%nat then msg ++ [Z.lor d 0x80]
  else msg ++ [d] ++ repeat 0 (q - 2) ++ [0x80].

Fixpoint absorb (rate : nat) (nblocks : nat) (bs : list Z) (A : list Z)
  : list Z :=
  match nblocks with
  | O => A
  | S n' =>
      let A' := keccak_f (xor_lanes A (to_lanes (rate / 8) (take rate bs))) in
      absorb rate n' (drop rate bs) A'
  end.

Definition sponge (rate outlen : nat) (d : Z) (msg : list Z) : list Z :=
  let p := pad rate d msg in
  take outlen (from_lanes (absorb rate (length p / rate) p (repeat 0 25%nat))).

End Keccak.

Definition sha3_256 (msg : list Z) : list Z := Keccak.sponge 136 32 0x06 msg.

(** [crypto.Keccak256] of go-ethereum. *)
Definition Keccak256 (msg : list Z) : list Z := Keccak.sponge 136 32 0x01 msg.

(** ** time *)

Module time.

(** A [time.Time] is the instant it denotes, in nanoseconds since the
    Unix epoch (UTC); the monotonic clock reading and the location are
    not part of the model.  A [time.Duration] is an [int64] count of
    nanoseconds. *)
Definition Second : Z := 1000000000.
Definition Minute : Z := 60 * Second.

(** [t.Sub(u)]: the difference, saturated to the range of [Duration]. *)
Definition Sub (t u : Z) : Z :=
  let d := t - u in
  if d <? Int.min_int64 then Int.min_int64
  else if Int.max_int64 <? d then Int.max_int64
  else d.

(** [int64(d.Seconds())].  [Seconds] is the float64 [sec + nsec/1e9];
    converted back to [int64] it is the whole number of seconds, the
    quotient truncated toward zero. *)
Definition Seconds_int64 (d : Z) : Z := Int.quo d Second.

(** First second of year 0 and first second of year 10000 (UTC). *)
Definition year0 : Z := -62167219200.
Definition year10000 : Z := 253402300800.

(** [Time.MarshalJSON]: the RFC 3339 text with nanoseconds, an error
    when the year is outside [0, 9999].  The text is written as the
    instant it denotes. *)
Definition MarshalJSON (t : Z) : option Z :=
  let sec := t / Second in
  if (year0 <=? sec) && (sec <? year10000) then Some t else None.

(** The instants whose year is within [0, 9999]. *)
Definition encodable (t : Z) : Prop := year0 <= t / Second < year10000.

(** [Time.UnmarshalJSON] on a text produced by [MarshalJSON]. *)
Definition UnmarshalJSON (w : Z) : Z := w.

End time.

(** ** The canonical header ([core/header/header.go]) *)

Module header.

Record Header := mkHeader {
  Height : Z;               (* uint64 *)
  ParentHash : list Z;      (* [32]byte *)
  Lhat : Z;                 (* int64 *)
  Bits : option Z;          (* *big.Int, [None] is nil *)
  Timestamp : Z;            (* time.Time *)
  StateRoot : list Z;       (* [32]byte *)
  Nonce : Z                 (* uint64 *)
}.

Definition zero_hash : list Z := repeat 0 32%nat.

(** [func (h *Header) Hash() [32]byte]; [None] is the nil receiver.
    The 48-byte buffer starts zeroed and is filled by two [PutUint64]
    and one [copy]. *)
Definition Hash (h : option Header) : list Z :=
  match h with
  | None => zero_hash
  | Some h =>
      let buf := repeat 0 48%nat in
      let buf := copy_into buf 0 8 (LittleEndian.PutUint64 (Height h)) in
      let buf := copy_into buf 8 32 (ParentHash h) in
      let buf := copy_into buf 40 8 (LittleEndian.PutUint64 (Nonce h)) in
      sha3_256 buf
  end.

(** The JSON object of a header: the anonymous struct of [MarshalJSON]
    and [UnmarshalJSON], whose [Bits string] field shadows the [Bits] of
    the embedded alias.  Text layout and parsing belong to
    [encoding/json]; the object is kept with its typed fields. *)
Record HeaderJSON := mkHeaderJSON {
  json_bits : string;
  json_Height : Z;
  json_ParentHash : list Z;
  json_Lhat : Z;
  json_Timestamp : Z;
  json_StateRoot : list Z;
  json_nonce : Z
}.

(** [func (h *Header) MarshalJSON() ([]byte, error)]. *)
Definition MarshalJSON (h : Header) : option HeaderJSON :=
  let bits :=
    match Bits h with
    | Some b => Big.String b
    | None => "0"%string
    end in
  match time.MarshalJSON (Timestamp h) with
  | Some ts =>
      Some {| json_bits := bits;
              json_Height := Height h;
              json_ParentHash := ParentHash h;
              json_Lhat := Lhat h;
              json_Timestamp := ts;
              json_StateRoot := StateRoot h;
              json_nonce := Nonce h |}
  | None => None
  end.

(** [func (h *Header) UnmarshalJSON(data []byte) error].  The result of
    [SetString] is not checked by the source: after a failed parse the
    target is what [SetString] had scanned. *)
Definition UnmarshalJSON (j : HeaderJSON) : Header :=
  {| Height := json_Height j;
     ParentHash := json_ParentHash j;
     Lhat := json_Lhat j;
     Bits :=
       if String.eqb (json_bits j) "" then Some 0
       else match Big.SetString (json_bits j) with
            | Some bi => Some bi
            | None => Some (Big.scanned (json_bits j))
            end;
     Timestamp := time.UnmarshalJSON (json_Timestamp j);
     StateRoot := json_StateRoot j;
     Nonce := json_nonce j |}.

End header.

(** ** Transactions and blocks ([core/tx.go], [core/block.go]) *)

Record Transaction := mkTransaction {
  From : list Z;            (* []byte, empty for a coinbase *)
  To : list Z;
  Amount : option Z;        (* *big.Int *)
  TxNonce : Z;              (* uint64, field [Nonce] *)
  GasLimit : Z;
  GasPrice : option Z;
  Signature : list Z;
  TxHash : list Z           (* cached hash, field [Hash] *)
}.

Record Block := mkBlock {
  Header : header.Header;
  Transactions : list Transaction;
  MerkleRoot : list Z;
  Time : Z;                 (* time.Time *)
  Receipts : list Z
}.

(** [func NewCoinbaseTx(minerAddr []byte, subsidy *big.Int)]. *)
Definition NewCoinbaseTx (minerAddr : list Z) (subsidy : option Z) : Transaction :=
  {| From := []; To := minerAddr; Amount := subsidy; TxNonce := 0;
     GasLimit := 0; GasPrice := Some 0; Signature := []; TxHash := [] |}.

(** [func (tx *Transaction) IsCoinbase() bool]. *)
Definition IsCoinbase (tx : Transaction) : bool := (length (From tx) =? 0)%nat.

(** [func (b *Block) Hash() [32]byte]. *)
Definition Block_Hash (b : Block) : list Z := header.Hash (Some (Header b)).

(** Subsidy schedule. *)
Definition InitialSubsidy : Z := 50.
Definition HalvingBlocks : Z := 210000.

(** [func GetSubsidy(height uint64) *big.Int]. *)
Definition GetSubsidy (height : Z) : Z :=
  let halvings := Int.quo height HalvingBlocks in
  if 64 <=? halvings then 0
  else Big.Rsh InitialSubsidy halvings.

(** The JSON object of a block.  Transactions, byte slices and integers
    use the codecs built into [encoding/json], which give back the value
    they were given; they are kept as they are. *)
Record BlockJSON := mkBlockJSON {
  json_header : header.HeaderJSON;
  json_transactions : list Transaction;
  json_merkleRoot : list Z;
  json_time : Z;
  json_receipts : list Z
}.

(** [func (b *Block) Encode() ([]byte, error)]: [json.Marshal(b)].  The
    header is reached through the block pointer, so its [MarshalJSON] is
    the one that runs. *)
Definition Encode (b : Block) : option BlockJSON :=
  match header.MarshalJSON (Header b), time.MarshalJSON (Time b) with
  | Some hj, Some t =>
      Some {| json_header := hj;
              json_transactions := Transactions b;
              json_merkleRoot := MerkleRoot b;
              json_time := t;
              json_receipts := Receipts b |}
  | _, _ => None
  end.

(** [func DecodeBlock(data []byte)], returning the block. *)
Definition DecodeBlock (j : BlockJSON) : Block :=
  {| Header := header.UnmarshalJSON (json_header j);
     Transactions := json_transactions j;
     MerkleRoot := json_merkleRoot j;
     Time := time.UnmarshalJSON (json_time j);
     Receipts := json_receipts j |}.

(** ** Outcomes of operations that may panic *)

Inductive Outcome (A : Type) : Type :=
| Done (a : A)
| Panic
| OutOfFuel.

Arguments Done {A} a.
Arguments Panic {A}.
Arguments OutOfFuel {A}.

Definition obind {A B : Type} (m : Outcome A) (f : A -> Outcome B) : Outcome B :=
  match m with
  | Done a => f a
  | Panic => Panic
  | OutOfFuel => OutOfFuel
  end.

(** ** SHA-256 (FIPS 180-4), as [crypto/sha256.Sum256] computes it *)

Module Sha256.

Definition mask32 : Z := 2 ^ 32 - 1.

Definition add32 (a b : Z) : Z := (a + b) mod 2 ^ 32.

Definition rotr (x n : Z) : Z :=
  Z.lor (Z.shiftr x n) (Z.land (Z.shiftl x (32 - n)) mask32).

Definition K : list Z :=
  [
    1116352408; 1899447441; 3049323471; 3921009573; 961987163; 1508970993;
    2453635748; 2870763221; 3624381080; 310598401; 607225278; 1426881987;
    1925078388; 2162078206; 2614888103; 3248222580; 3835390401; 4022224774;
    264347078; 604807628; 770255983; 1249150122; 1555081692; 1996064986;
    2554220882; 2821834349; 2952996808; 3210313671; 3336571891; 3584528711;
    113926993; 338241895; 666307205; 773529912; 1294757372; 1396182291;
    1695183700; 1986661051; 2177026350; 2456956037; 2730485921; 2820302411;
    3259730800; 3345764771; 3516065817; 3600352804; 4094571909; 275423344;
    430227734; 506948616; 659060556; 883997877; 958139571; 1322822218;
    1537002063; 1747873779; 1955562222; 2024104815; 2227730452; 2361852424;
    2428436474; 2756734187; 3204031479; 3329325298 ].

Definition H0 : list Z :=
  [
    1779033703; 3144134277; 1013904242; 2773480762;
    1359893119; 2600822924; 528734635; 1541459225 ].

Fixpoint be_combine (bs : list Z) (acc : Z) : Z :=
  match bs with
  | [] => acc
  | b :: t => be_combine t (Z.lor (Z.shiftl acc 8) b)
  end.

Fixpoint be_bytes (n : nat) (v : Z) : list Z :=
  match n with
  | O => []
  | S n' => be_bytes n' (Z.shiftr v 8) ++ [v mod 256]
  end.

Fixpoint words (n : nat) (bs : list Z) : list Z :=
  match n with
  | O => []
  | S n' => be_combine (take 4 bs) 0 :: words n' (drop 4 bs)
  end.

Definition ssig0 (x : Z) : Z := Z.lxor (rotr x 7) (Z.lxor (rotr x 18) (Z.shiftr x 3)).
Definition ssig1 (x : Z) : Z := Z.lxor (rotr x 17) (Z.lxor (rotr x 19) (Z.shiftr x 10)).
Definition bsig0 (x : Z) : Z := Z.lxor (rotr x 2) (Z.lxor (rotr x 13) (rotr x 22)).
Definition bsig1 (x : Z) : Z := Z.lxor (rotr x 6) (Z.lxor (rotr x 11) (rotr x 25)).
Definition ch (e f g : Z) : Z := Z.lxor (Z.land e f) (Z.land (Z.lxor e mask32) g).
Definition maj (a b c : Z) : Z :=
  Z.lxor (Z.land a b) (Z.lxor (Z.land a c) (Z.land b c)).

(** The message schedule: [w] holds the words computed so far. *)
Fixpoint schedule (n : nat) (w : list Z) : list Z :=
  match n with
  | O => w
  | S n' =>
      let i := length w in
      let x := add32 (add32 (nth (i - 16) w 0) (ssig0 (nth (i - 15) w 0)))
                     (add32 (nth (i - 7) w 0) (ssig1 (nth (i - 2) w 0))) in
      schedule n' (w ++ [x])
  end.

Definition step (s : list Z) (kw : Z * Z) : list Z :=
  match s with
  | [a; b; c; d; e; f; g; h] =>
      let t1 := add32 (add32 (add32 h (bsig1 e)) (add32 (ch e f g) kw.1)) kw.2 in
      let t2 := add32 (bsig0 a) (maj a b c) in
      [add32 t1 t2; a; b; c; add32 d t1; e; f; g]
  | _ => s
  end.

Definition compress (h : list Z) (block : list Z) : list Z :=
  let w := schedule 48 (words 16 block) in
  let s := fold_left step (combine K w) h in
  map (fun p => add32 p.1 p.2) (combine h s).

Definition pad (msg : list Z) : list Z :=
  let l := length msg in
  let zeros := ((64 - (l + 9) mod 64) mod 64)%nat in
  msg ++ [0x80] ++ repeat 0 zeros ++ be_bytes 8 (8 * Z.of_nat l).

Fixpoint blocks (n : nat) (bs : list Z) (h : list Z) : list Z :=
  match n with
  | O => h
  | S n' => blocks n' (drop 64 bs) (compress h (take 64 bs))
  end.

Definition Sum256 (msg : list Z) : list Z :=
  let p := pad msg in
  concat (map (be_bytes 4) (blocks (length p / 64) p H0)).

End Sha256.

(** ** math/rand: the seeded source and the generator built on it *)

Module rand.

Definition rngLen : Z := 607.
Definition rngTap : Z := 273.
Definition rngMask : Z := 2 ^ 63 - 1.
Definition int32max : Z := 2 ^ 31 - 1.

(** The table [rngCooked] of the additive generator. *)
Definition rngCooked : list Z :=
  [
    (-4181792142133755926); (-4576982950128230565); 1395769623340756751;
    5333664234075297259; (-6347679516498800754); 9033628115061424579;
    7143218595135194537; 4812947590706362721; 7937252194349799378;
    5307299880338848416; 8209348851763925077; (-7107630437535961764);
    4593015457530856296; 8140875735541888011; (-5903942795589686782);
    (-603556388664454774); (-7496297993371156308); 113108499721038619;
    4569519971459345583; (-4160538177779461077); (-6835753265595711384);
    (-6507240692498089696); 6559392774825876886; 7650093201692370310;
    7684323884043752161; (-8965504200858744418); (-2629915517445760644);
    271327514973697897; (-6433985589514657524); 1065192797246149621;
    3344507881999356393; (-4763574095074709175); 7465081662728599889;
    1014950805555097187; (-4773931307508785033); (-5742262670416273165);
    2418672789110888383; 5796562887576294778; 4484266064449540171;
    3738982361971787048; (-4699774852342421385); 10530508058128498;
    (-589538253572429690); (-6598062107225984180); 8660405965245884302;
    10162832508971942; (-2682657355892958417); 7031802312784620857;
    6240911277345944669; 831864355460801054; (-1218937899312622917);
    2116287251661052151; 2202309800992166967; 9161020366945053561;
    4069299552407763864; 4936383537992622449; 457351505131524928;
    (-8881176990926596454); (-6375600354038175299); (-7155351920868399290);
    4368649989588021065; 887231587095185257; (-3659780529968199312);
    (-2407146836602825512); 5616972787034086048; (-751562733459939242);
    1686575021641186857; (-5177887698780513806); (-4979215821652996885);
    (-1375154703071198421); 5632136521049761902; (-8390088894796940536);
    (-193645528485698615); (-5979788902190688516); (-4907000935050298721);
    (-285522056888777828); (-2776431630044341707); 1679342092332374735;
    6050638460742422078; (-2229851317345194226); (-1582494184340482199);
    5881353426285907985; 812786550756860885; 4541845584483343330;
    (-6497901820577766722); 4980675660146853729; (-4012602956251539747);
    (-329088717864244987); (-2896929232104691526); 1495812843684243920;
    (-2153620458055647789); 7370257291860230865; (-2466442761497833547);
    4706794511633873654; (-1398851569026877145); 8549875090542453214;
    (-9189721207376179652); (-7894453601103453165); 7297902601803624459;
    1011190183918857495; (-6985347000036920864); 5147159997473910359;
    (-8326859945294252826); 2659470849286379941; 6097729358393448602;
    (-7491646050550022124); (-5117116194870963097); (-896216826133240300);
    (-745860416168701406); 5803876044675762232; (-787954255994554146);
    (-3234519180203704564); (-4507534739750823898); (-1657200065590290694);
    505808562678895611; (-4153273856159712438); (-8381261370078904295);
    572156825025677802; 1791881013492340891; 3393267094866038768;
    (-5444650186382539299); 2352769483186201278; (-7930912453007408350);
    (-325464993179687389); (-3441562999710612272); (-6489413242825283295);
    5092019688680754699; (-227247482082248967); 4234737173186232084;
    5027558287275472836; 4635198586344772304; (-536033143587636457);
    5907508150730407386; (-8438615781380831356); 972392927514829904;
    (-3801314342046600696); (-4064951393885491917); (-174840358296132583);
    2407211146698877100; (-1640089820333676239); 3940796514530962282;
    (-5882197405809569433); 3095313889586102949; (-1818050141166537098);
    5832080132947175283; 7890064875145919662; 8184139210799583195;
    (-8073512175445549678); (-7758774793014564506); (-4581724029666783935);
    3516491885471466898; (-8267083515063118116); 6657089965014657519;
    5220884358887979358; 1796677326474620641; 5340761970648932916;
    1147977171614181568; 5066037465548252321; 2574765911837859848;
    1085848279845204775; (-5873264506986385449); 6116438694366558490;
    2107701075971293812; (-7420077970933506541); 2469478054175558874;
    (-1855128755834809824); (-5431463669011098282); (-9038325065738319171);
    (-6966276280341336160); 7217693971077460129; (-8314322083775271549);
    7196649268545224266; (-3585711691453906209); (-5267827091426810625);
    8057528650917418961; (-5084103596553648165); (-2601445448341207749);
    (-7850010900052094367); 6527366231383600011; 3507654575162700890;
    9202058512774729859; 1954818376891585542; (-2582991129724600103);
    8299563319178235687; (-5321504681635821435); 7046310742295574065;
    (-2376176645520785576); (-7650733936335907755); 8850422670118399721;
    3631909142291992901; 5158881091950831288; (-6340413719511654215);
    4763258931815816403; 6280052734341785344; (-4979582628649810958);
    2043464728020827976; (-2678071570832690343); 4562580375758598164;
    5495451168795427352; (-7485059175264624713); 553004618757816492;
    6895160632757959823; (-989748114590090637); 7139506338801360852;
    (-672480814466784139); 5535668688139305547; 2430933853350256242;
    (-3821430778991574732); (-1063731997747047009); (-3065878205254005442);
    7632066283658143750; 6308328381617103346; 3681878764086140361;
    3289686137190109749; 6587997200611086848; 244714774258135476;
    (-5143583659437639708); 8090302575944624335; 2945117363431356361;
    (-8359047641006034763); 3009039260312620700; (-793344576772241777);
    401084700045993341; (-1968749590416080887); 4707864159563588614;
    (-3583123505891281857); (-3240864324164777915); (-5908273794572565703);
    (-3719524458082857382); (-5281400669679581926); 8118566580304798074;
    3839261274019871296; 7062410411742090847; (-8481991033874568140);
    6027994129690250817; (-6725542042704711878); (-2971981702428546974);
    (-7854441788951256975); 8809096399316380241; 6492004350391900708;
    2462145737463489636; (-8818543617934476634); (-5070345602623085213);
    (-8961586321599299868); (-3758656652254704451); (-8630661632476012791);
    6764129236657751224; (-709716318315418359); (-3403028373052861600);
    (-8838073512170985897); (-3999237033416576341); (-2920240395515973663);
    (-2073249475545404416); 368107899140673753; (-6108185202296464250);
    (-6307735683270494757); 4782583894627718279; 6718292300699989587;
    8387085186914375220; 3387513132024756289; 4654329375432538231;
    (-292704475491394206); (-3848998599978456535); 7623042350483453954;
    7725442901813263321; 9186225467561587250; (-5132344747257272453);
    (-6865740430362196008); 2530936820058611833; 1636551876240043639;
    (-3658707362519810009); 1452244145334316253; (-7161729655835084979);
    (-7943791770359481772); 9108481583171221009; (-3200093350120725999);
    5007630032676973346; 2153168792952589781; 6720334534964750538;
    (-3181825545719981703); 3433922409283786309; 2285479922797300912;
    3110614940896576130; (-2856812446131932915); (-3804580617188639299);
    7163298419643543757; 4891138053923696990; 580618510277907015;
    1684034065251686769; 4429514767357295841; (-8893025458299325803);
    (-8103734041042601133); 7177515271653460134; 4589042248470800257;
    (-1530083407795771245); 143607045258444228; 246994305896273627;
    (-8356954712051676521); 6473547110565816071; 3092379936208876896;
    2058427839513754051; (-4089587328327907870); 8785882556301281247;
    (-3074039370013608197); (-637529855400303673); 6137678347805511274;
    (-7152924852417805802); 5708223427705576541; (-3223714144396531304);
    4358391411789012426; 325123008708389849; 6837621693887290924;
    4843721905315627004; (-3212720814705499393); (-3825019837890901156);
    4602025990114250980; 1044646352569048800; 9106614159853161675;
    (-8394115921626182539); (-4304087667751778808); 2681532557646850893;
    3681559472488511871; (-3915372517896561773); (-2889241648411946534);
    (-6564663803938238204); (-8060058171802589521); 581945337509520675;
    3648778920718647903; (-4799698790548231394); (-7602572252857820065);
    220828013409515943; (-1072987336855386047); 4287360518296753003;
    (-4633371852008891965); 5513660857261085186; (-2258542936462001533);
    (-8744380348503999773); 8746140185685648781; 228500091334420247;
    1356187007457302238; 3019253992034194581; 3152601605678500003;
    (-8793219284148773595); 5559581553696971176; 4916432985369275664;
    (-8559797105120221417); (-5802598197927043732); 2868348622579915573;
    (-7224052902810357288); (-5894682518218493085); 2587672709781371173;
    (-7706116723325376475); 3092343956317362483; (-5561119517847711700);
    972445599196498113; (-1558506600978816441); 1708913533482282562;
    (-2305554874185907314); (-6005743014309462908); (-6653329009633068701);
    (-483583197311151195); 2488075924621352812; (-4529369641467339140);
    (-4663743555056261452); 2997203966153298104; 1282559373026354493;
    240113143146674385; 8665713329246516443; 628141331766346752;
    (-4651421219668005332); (-7750560848702540400); 7596648026010355826;
    (-3132152619100351065); 7834161864828164065; 7103445518877254909;
    4390861237357459201; (-4780718172614204074); (-319889632007444440);
    622261699494173647; (-3186110786557562560); (-8718967088789066690);
    (-1948156510637662747); (-8212195255998774408); (-7028621931231314745);
    2623071828615234808; (-4066058308780939700); (-5484966924888173764);
    (-6683604512778046238); (-6756087640505506466); 5256026990536851868;
    7841086888628396109; 6640857538655893162; (-8021284697816458310);
    (-7109857044414059830); (-1689021141511844405); (-4298087301956291063);
    (-4077748265377282003); (-998231156719803476); 2719520354384050532;
    9132346697815513771; 4332154495710163773; (-2085582442760428892);
    6994721091344268833; (-2556143461985726874); (-8567931991128098309);
    59934747298466858; (-3098398008776739403); (-265597256199410390);
    2332206071942466437; (-7522315324568406181); 3154897383618636503;
    (-7585605855467168281); (-6762850759087199275); 197309393502684135;
    (-8579694182469508493); 2543179307861934850; 4350769010207485119;
    (-4468719947444108136); (-7207776534213261296); (-1224312577878317200);
    4287946071480840813; 8362686366770308971; 6486469209321732151;
    (-5605644191012979782); (-1669018511020473564); 4450022655153542367;
    (-7618176296641240059); (-3896357471549267421); (-4596796223304447488);
    (-6531150016257070659); (-8982326463137525940); (-4125325062227681798);
    (-1306489741394045544); (-8338554946557245229); 5329160409530630596;
    7790979528857726136; 4955070238059373407; (-4304834761432101506);
    (-6215295852904371179); 3007769226071157901; (-6753025801236972788);
    8928702772696731736; 7856187920214445904; (-4748497451462800923);
    7900176660600710914; (-7082800908938549136); (-6797926979589575837);
    (-6737316883512927978); 4186670094382025798; 1883939007446035042;
    (-414705992779907823); 3734134241178479257; 4065968871360089196;
    6953124200385847784; (-7917685222115876751); (-7585632937840318161);
    (-5567246375906782599); (-5256612402221608788); 3106378204088556331;
    (-2894472214076325998); 4565385105440252958; 1979884289539493806;
    (-6891578849933910383); 3783206694208922581; 8464961209802336085;
    2843963751609577687; 3030678195484896323; (-4429654462759003204);
    4459239494808162889; 402587895800087237; 8057891408711167515;
    4541888170938985079; 1042662272908816815; (-3666068979732206850);
    2647678726283249984; 2144477441549833761; (-3417019821499388721);
    (-2105601033380872185); 5916597177708541638; (-8760774321402454447);
    8833658097025758785; 5970273481425315300; 563813119381731307;
    (-6455022486202078793); 1598828206250873866; (-4016978389451217698);
    (-2988328551145513985); (-6071154634840136312); 8469693267274066490;
    125672920241807416; (-3912292412830714870); (-2559617104544284221);
    (-486523741806024092); (-4735332261862713930); 5923302823487327109;
    (-9082480245771672572); (-1808429243461201518); 7990420780896957397;
    4317817392807076702; 3625184369705367340; (-6482649271566653105);
    (-3480272027152017464); (-3225473396345736649); (-368878695502291645);
    (-3981164001421868007); (-8522033136963788610); 7609280429197514109;
    3020985755112334161; (-2572049329799262942); 2635195723621160615;
    5144520864246028816; (-8188285521126945980); 1567242097116389047;
    8172389260191636581; (-2885551685425483535); (-7060359469858316883);
    (-6480181133964513127); (-7317004403633452381); 6011544915663598137;
    5932255307352610768; 2241128460406315459; (-8327867140638080220);
    3094483003111372717; 4583857460292963101; 9079887171656594975;
    (-384082854924064405); (-3460631649611717935); 4225072055348026230;
    (-7385151438465742745); 3801620336801580414; (-399845416774701952);
    (-7446754431269675473); 7899055018877642622; 5421679761463003041;
    5521102963086275121; (-4975092593295409910); 8735487530905098534;
    (-7462844945281082830); (-2080886987197029914); (-1000715163927557685);
    (-4253840471931071485); (-5828896094657903328); 6424174453260338141;
    359248545074932887; (-5949720754023045210); (-2426265837057637212);
    3030918217665093212; (-9077771202237461772); (-3186796180789149575);
    740416251634527158; (-2142944401404840226); 6951781370868335478;
    399922722363687927; (-8928469722407522623); (-1378421100515597285);
    (-8343051178220066766); (-3030716356046100229); (-8811767350470065420);
    9026808440365124461; 6440783557497587732; 4615674634722404292;
    539897290441580544; 2096238225866883852; 8751955639408182687;
    (-7316147128802486205); 7381039757301768559; 6157238513393239656;
    (-1473377804940618233); 8629571604380892756; 5280433031239081479;
    7101611890139813254; 2479018537985767835; 7169176924412769570;
    (-1281305539061572506); (-7865612307799218120); 2278447439451174845;
    3625338785743880657; 6477479539006708521; 8976185375579272206;
    (-3712000482142939688); 1326024180520890843; 7537449876596048829;
    5464680203499696154; 3189671183162196045; 6346751753565857109;
    (-8982212049534145501); (-6127578587196093755); (-245039190118465649);
    (-6320577374581628592); 7208698530190629697; 7276901792339343736;
    (-7490986807540332668); 4133292154170828382; 2918308698224194548;
    (-7703910638917631350); (-3929437324238184044); (-4300543082831323144);
    (-6344160503358350167); 5896236396443472108; (-758328221503023383);
    (-1894351639983151068); (-307900319840287220); (-6278469401177312761);
    (-2171292963361310674); 8382142935188824023; 9103922860780351547;
    4152330101494654406 ].

(** [seedrand]: [x[n+1] = 48271 * x[n] mod (2^31 - 1)]. *)
Definition seedrand (x : Z) : Z :=
  let hi := Int.quo x 44488 in
  let lo := Int.rem x 44488 in
  let x := Int.to_int32 (48271 * lo - 3399 * hi) in
  if x <? 0 then Int.to_int32 (x + int32max) else x.

Record rngSource := mkRngSource {
  tap : Z;
  feed : Z;
  vec : list Z      (* [rngLen]int64 *)
}.

(** The body of the seeding loop for an index [i >= 0]: the value
    stored in [rng.vec[i]] and the next [x]. *)
Definition seed_step (x : Z) (cooked_i : Z) : Z * Z :=
  let x := seedrand x in
  let u := Int.to_int64 (Z.shiftl x 40) in
  let x := seedrand x in
  let u := Z.lxor u (Int.to_int64 (Z.shiftl x 20)) in
  let x := seedrand x in
  let u := Z.lxor u x in
  let u := Z.lxor u cooked_i in
  (u, x).

Fixpoint seed_fill (x : Z) (cooked : list Z) {struct cooked} : list Z :=
  match cooked with
  | [] => []
  | c :: rest =>
      let p := seed_step x c in
      p.1 :: seed_fill p.2 rest
  end.

(** [func (rng *rngSource) Seed(seed int64)]. *)
Definition Seed (seed : Z) : rngSource :=
  let seed := Int.rem seed int32max in
  let seed := if seed <? 0 then seed + int32max else seed in
  let seed := if seed =? 0 then 89482311 else seed in
  let x := Int.to_int32 seed in
  (* the twenty iterations with [i < 0] *)
  let x := Nat.iter 20 seedrand x in
  {| tap := 0; feed := rngLen - rngTap; vec := seed_fill x rngCooked |}.

(** [func (rng *rngSource) Uint64() uint64]. *)
Definition Uint64 (rng : rngSource) : Z * rngSource :=
  let tap := tap rng - 1 in
  let tap := if tap <? 0 then tap + rngLen else tap in
  let feed := feed rng - 1 in
  let feed := if feed <? 0 then feed + rngLen else feed in
  let x := Int.to_int64 (nth (Z.to_nat feed) (vec rng) 0
                         + nth (Z.to_nat tap) (vec rng) 0) in
  (Int.to_uint64 x,
   {| tap := tap; feed := feed; vec := <[Z.to_nat feed := x]> (vec rng) |}).

(** [func (rng *rngSource) Int63() int64]. *)
Definition Int63 (rng : rngSource) : Z * rngSource :=
  let (u, rng) := Uint64 rng in (Z.land u rngMask, rng).

(** [func (r *Rand) Int31() int32]. *)
Definition Int31 (rng : rngSource) : Z * rngSource :=
  let (v, rng) := Int63 rng in (Z.shiftr v 32, rng).

(** The loops [for v > max] of [Int31n] and [Int63n] are run with a
    bound on the draws they reject; a loop that used it up would give
    [OutOfFuel].  None does: see [retry_exits]. *)
Definition retry_bound : nat := 607 * 64.

Fixpoint retry (fuel : nat) (draw : rngSource -> Z * rngSource) (max : Z)
    (v : Z) (rng : rngSource) {struct fuel} : Outcome (Z * rngSource) :=
  if max <? v then
    match fuel with
    | O => OutOfFuel
    | S fuel' => let (v, rng) := draw rng in retry fuel' draw max v rng
    end
  else Done (v, rng).

(** [func (r *Rand) Int31n(n int32) int32], for [n > 0]. *)
Definition Int31n (rng : rngSource) (n : Z) : Outcome (Z * rngSource) :=
  if Z.land n (n - 1) =? 0 then
    let (v, rng) := Int31 rng in Done (Z.land v (n - 1), rng)
  else
    let max := 2 ^ 31 - 1 - Int.rem (2 ^ 31) n in
    let (v, rng) := Int31 rng in
    obind (retry retry_bound Int31 max v rng) (fun '(v, rng) =>
    Done (Int.rem v n, rng)).

(** [func (r *Rand) Int63n(n int64) int64], for [n > 0]. *)
Definition Int63n (rng : rngSource) (n : Z) : Outcome (Z * rngSource) :=
  if Z.land n (n - 1) =? 0 then
    let (v, rng) := Int63 rng in Done (Z.land v (n - 1), rng)
  else
    let max := 2 ^ 63 - 1 - Int.rem (2 ^ 63) n in
    let (v, rng) := Int63 rng in
    obind (retry retry_bound Int63 max v rng) (fun '(v, rng) =>
    Done (Int.rem v n, rng)).

(** [func (r *Rand) Intn(n int) int]; a non-positive [n] panics. *)
Definition Intn (rng : rngSource) (n : Z) : Outcome (Z * rngSource) :=
  if n <=? 0 then Panic
  else if n <=? int32max then Int31n rng n
  else Int63n rng n.

(** [rand.New(rand.NewSource(seed))]. *)
Definition New (seed : Z) : rngSource := Seed seed.

(** The shape every generator keeps: [rngLen] entries, and the feed
    pointer [rngLen - rngTap] places ahead of the tap pointer. *)
Definition valid (r : rngSource) : Prop :=
  length (vec r) = 607%nat /\ 0 <= tap r < 607 /\
  feed r = (tap r + 334) mod 607.

Definition entry (r : rngSource) (i : Z) : Z := nth (Z.to_nat i) (vec r) 0.

(** How far the low 63 bits of [x] are below [2^63]. *)
Definition gap (x : Z) : Z := 2 ^ 63 - x mod 2 ^ 63.

(** [run E k r]: the last [k] draws all gave a value of [Int63] at or
    above [2^63 - E].  The [min k 607] entries written last then have a
    gap of at most [E], and the entry written [d] draws ago has a gap
    of at least [2 ^ ((k - d - 1) / 607)]. *)
Definition run (E k : Z) (r : rngSource) : Prop :=
  valid r /\
  forall d, 0 <= d < Z.min k 607 ->
    2 ^ ((k - d - 1) / 607) <= gap (entry r ((feed r + d) mod 607)) <= E.

End rand.

(** ** fmt *)

(** The verb [%d]. *)
Definition fmt_d (x : Z) : string := NilZero.string_of_int (Z.to_int x).

(** ** Procedural quiz ([dataset/procedural.go]) *)

Module dataset.

Local Open Scope string_scope.

Definition items : list string :=
  ["apple"; "banana"; "cherry"; "date"; "elderberry"].

(** The body of the loop of [ProceduralQuiz] once [qRng] is seeded:
    the question type and the question. *)
Definition question (qRng : rand.rngSource) : Outcome string :=
  obind (rand.Intn qRng 4) (fun '(questionType, qRng) =>
  if (questionType =? 0)%Z then
    obind (rand.Intn qRng 1000) (fun '(x, qRng) =>
    obind (rand.Intn qRng 1000) (fun '(y, qRng) =>
    Done ("What is " ++ fmt_d (1 + x) ++ " + " ++ fmt_d (1 + y) ++ "?")))
  else if (questionType =? 1)%Z then
    obind (rand.Intn qRng 50) (fun '(x, qRng) =>
    obind (rand.Intn qRng 50) (fun '(y, qRng) =>
    Done ("What is " ++ fmt_d (1 + x) ++ " × " ++ fmt_d (1 + y) ++ "?")))
  else if (questionType =? 2)%Z then
    obind (rand.Intn qRng 10) (fun '(start, qRng) =>
    obind (rand.Intn qRng 5) (fun '(step, qRng) =>
    let start := (1 + start)%Z in
    let step := (1 + step)%Z in
    Done ("Complete the pattern: " ++ fmt_d start ++ ", "
          ++ fmt_d (start + step) ++ ", " ++ fmt_d (start + 2 * step) ++ ", ?")))
  else if (questionType =? 3)%Z then
    obind (rand.Intn qRng (Z.of_nat (length items))) (fun '(idx, qRng) =>
    Done ("What fruit comes after " ++ nth (Z.to_nat idx) items ""
          ++ " in alphabetical order?"))
  else Done "").

(** The seed of question [i]. *)
Definition questionSeed (seed nonce i : Z) : Z :=
  Int.to_int64 (Int.to_int64 (seed + Int.to_int64 (i * 1000))
                + Int.to_int64 (Int.rem nonce 10000)).

Fixpoint questions (seed nonce : Z) (i : Z) (n : nat) {struct n}
  : Outcome (list string) :=
  match n with
  | O => Done []
  | S n' =>
      obind (question (rand.New (questionSeed seed nonce i))) (fun q =>
      obind (questions seed nonce (i + 1) n') (fun qs =>
      Done (q :: qs)))
  end.

(** [func ProceduralQuiz(blockHeight uint64, nonce uint64) []string]. *)
Definition ProceduralQuiz (blockHeight nonce : Z) : Outcome (list string) :=
  let seed := Int.to_int64 (Int.to_int64 blockHeight + Int.to_int64 nonce) in
  let rng := rand.New seed in
  obind (rand.Intn rng 3) (fun '(r, _) =>
  let numQuestions := 3 + r in
  questions seed nonce 0 (Z.to_nat numQuestions)).

End dataset.

(** The four question templates in the words of the description of the
    quiz: an addition with operands in [1, 1000], a multiplication with
    operands in [1, 50], an arithmetic pattern with start in [1, 10] and
    step in [1, 5], a fruit of the fixed list. *)
Definition quiz_template (q : string) : Prop :=
  (exists x y, 1 <= x <= 1000 /\ 1 <= y <= 1000 /\
     q = ("What is " ++ fmt_d x ++ " + " ++ fmt_d y ++ "?")%string) \/
  (exists x y, 1 <= x <= 50 /\ 1 <= y <= 50 /\
     q = ("What is " ++ fmt_d x ++ " × " ++ fmt_d y ++ "?")%string) \/
  (exists s d, 1 <= s <= 10 /\ 1 <= d <= 5 /\
     q = ("Complete the pattern: " ++ fmt_d s ++ ", " ++ fmt_d (s + d)
          ++ ", " ++ fmt_d (s + 2 * d) ++ ", ?")%string) \/
  (exists F, In F dataset.items /\
     q = ("What fruit comes after " ++ F ++ " in alphabetical order?")%string).

(** ** Inference engine ([inference]) *)

Module inference.

(** The engine as the validator and the miner see it: [Infer] gives the
    output text or an error ([None]). *)
Record LLM := mkLLM {
  Infer : string -> Z -> option string
}.

Definition hex_digit (d : Z) : ascii :=
  ascii_of_nat (Z.to_nat (if d <? 10 then 48 + d else 87 + d)).

(** The verb [%x] on a byte slice. *)
Fixpoint fmt_x (bs : list Z) : string :=
  match bs with
  | [] => ""
  | b :: rest =>
      String (hex_digit (b / 16)) (String (hex_digit (b mod 16)) (fmt_x rest))
  end.

(** The engine built without the [llama] tag ([llm_stub.go]). *)
Definition stub_Infer (prompt : string) (seed : Z) : option string :=
  if String.eqb prompt "" then None
  else
    let h := Sha256.Sum256 (bytes_of_string (prompt ++ ":" ++ fmt_d seed)) in
    Some ("stub_response_" ++ fmt_x (take 8 h))%string.

Definition stub_NewLLM (modelPath : string) (gpuLayers : Z) : option LLM :=
  Some (mkLLM stub_Infer).

End inference.

(** ** Transaction signatures ([core/tx.go]) *)

(** What go-ethereum's [crypto] and [encoding/json] provide to
    [Transaction.Verify]: the JSON text of the signed fields, public-key
    recovery and the address of a public key. *)
Record Crypto := mkCrypto {
  signing_json : Transaction -> list Z;
  SigToPub : list Z -> list Z -> option (list Z);
  PubkeyToAddress : list Z -> list Z
}.

(** [func (tx *Transaction) CalculateHash() []byte]. *)
Definition CalculateHash (cr : Crypto) (tx : Transaction) : list Z :=
  Keccak256 (signing_json cr tx).

Inductive TxError : Type :=
| ErrNoSignature
| ErrInvalidSignature
| ErrSenderMismatch.

(** [func (tx *Transaction) Verify() error]. *)
Definition Verify (cr : Crypto) (tx : Transaction) : option TxError :=
  if (length (From tx) =? 0)%nat then None
  else if (length (Signature tx) =? 0)%nat then Some ErrNoSignature
  else
    let hash := CalculateHash cr tx in
    match SigToPub cr hash (Signature tx) with
    | None => Some ErrInvalidSignature
    | Some pubKey =>
        if bool_decide (PubkeyToAddress cr pubKey = From tx) then None
        else Some ErrSenderMismatch
    end.

(** ** Validator ([validator/verify.go]) *)

Module validator.

Definition newline : string := String (ascii_of_nat 10) "".

Inductive VerifyError : Type :=
| ErrLoadLLM
| ErrTransaction (i : nat) (e : TxError)
| ErrEmptyPrompt (nonce : Z)
| ErrInference
| ErrInvalidLoss (got expected : Z)
| ErrTargetNotMet (loss target : Z).

(** The loop over [b.Transactions]: the first failure, with its index. *)
Fixpoint verify_transactions (cr : Crypto) (i : nat) (txs : list Transaction)
  : option (nat * TxError) :=
  match txs with
  | [] => None
  | tx :: rest =>
      match Verify cr tx with
      | Some e => Some (i, e)
      | None => verify_transactions cr (S i) rest
      end
  end.

(** The prompt: every quiz followed by a newline. *)
Definition make_prompt (quizzes : list string) : string :=
  fold_left (fun prompt quiz => (prompt ++ quiz ++ newline)%string) quizzes ""%string.

(** [int64(binary.LittleEndian.Uint64(hash[:8]))]. *)
Definition loss_of_output (output : string) : Outcome Z :=
  let hash := Sha256.Sum256 (bytes_of_string output) in
  match LittleEndian.Uint64 (take 8 hash) with
  | Some u => Done (Int.to_int64 u)
  | None => Panic
  end.

(** The seed handed to the engine: the height written to eight bytes
    and read back. *)
Definition llm_seed (height : Z) : Outcome Z :=
  match LittleEndian.Uint64 (LittleEndian.PutUint64 height) with
  | Some u => Done (Int.to_int64 u)
  | None => Panic
  end.

(** [func VerifyBlock(b *core.Block, st storage.Reader, modelPath string,
    gpuLayers int) error]; the reader [st] is not used.  [Done None] is
    the nil error. *)
Definition VerifyBlock
    (NewLLM : string -> Z -> option inference.LLM) (cr : Crypto)
    (b : Block) (modelPath : string) (gpuLayers : Z)
  : Outcome (option VerifyError) :=
  match NewLLM modelPath gpuLayers with
  | None => Done (Some ErrLoadLLM)
  | Some llm =>
      match verify_transactions cr 0 (Transactions b) with
      | Some (i, e) => Done (Some (ErrTransaction i e))
      | None =>
          obind (dataset.ProceduralQuiz (header.Height (Header b))
                                        (header.Nonce (Header b))) (fun quizzes =>
          let prompt := make_prompt quizzes in
          if String.eqb prompt "" then
            Done (Some (ErrEmptyPrompt (header.Nonce (Header b))))
          else
            obind (llm_seed (header.Height (Header b))) (fun llmSeed =>
            match inference.Infer llm prompt llmSeed with
            | None => Done (Some ErrInference)
            | Some output =>
                obind (loss_of_output output) (fun lossInt =>
                if negb (lossInt =? header.Lhat (Header b)) then
                  Done (Some (ErrInvalidLoss lossInt (header.Lhat (Header b))))
                else
                  match header.Bits (Header b) with
                  | None => Panic
                  | Some bits =>
                      if Big.Int64 bits <? lossInt then
                        Done (Some (ErrTargetNotMet lossInt (Big.Int64 bits)))
                      else Done None
                  end)
            end))
      end
  end.

End validator.

(** The replayed loss in the words of the validator's description: the
    signed 64-bit little-endian reading of the first eight bytes of
    SHA-256 of the engine's output for the quiz prompt of
    [(height, nonce)], the engine being seeded with the height. *)
Definition replayed_loss (llm : inference.LLM) (b : Block) : option Z :=
  match dataset.ProceduralQuiz (header.Height (Header b)) (header.Nonce (Header b)) with
  | Done quizzes =>
      match inference.Infer llm (validator.make_prompt quizzes)
                            (Int.to_int64 (header.Height (Header b))) with
      | Some output =>
          Some (Int.to_int64
                  (Keccak.le_combine (take 8 (Sha256.Sum256 (bytes_of_string output)))))
      | None => None
      end
  | _ => None
  end.

(** ** Configuration ([core/config]) *)

Module config.

Definition RetargetInterval : Z := 2016.
Definition TargetBlockSpacingSec : Z := 600.
Definition MaxAdjustmentFactor : Z := 4.

End config.

(** ** Difficulty engine ([core/difficulty.go]) *)

Inductive AdjustError : Type :=
| ErrNilHeader
| ErrNilBits (height : Z)
| ErrMissingHeader (height : Z).

(** [func Adjust(chain ChainReader, tip *header.Header)].
    The chain reader is a state [S] with its [HeaderByHeight], which may
    change the state (the chain caches what it loads).  Both results of
    the Go function are returned. *)
Definition Adjust {S : Type}
    (HeaderByHeight : S -> Z -> option header.Header * S)
    (chain : S) (tip : option header.Header)
  : (Z * option AdjustError) * S :=
  match tip with
  | None => ((1, Some ErrNilHeader), chain)
  | Some tip =>
      match header.Bits tip with
      | None => ((1, Some (ErrNilBits (header.Height tip))), chain)
      | Some bits =>
          let interval := config.RetargetInterval in
          if header.Height tip <? interval then ((bits, None), chain)
          else
            (* 1) the first header of the window *)
            let firstHeight := Int.to_uint64 (header.Height tip - interval + 1) in
            match HeaderByHeight chain firstHeight with
            | (None, chain') =>
                ((bits, Some (ErrMissingHeader firstHeight)), chain')
            | (Some first, chain') =>
                (* 2) the actual timespan *)
                let actual :=
                  time.Sub (header.Timestamp tip) (header.Timestamp first) in
                let expected :=
                  interval * time.Second * config.TargetBlockSpacingSec in
                (* 3) clamp *)
                let minSpan := Int.quo expected config.MaxAdjustmentFactor in
                let maxSpan := expected * config.MaxAdjustmentFactor in
                let actual :=
                  if actual <? minSpan then minSpan
                  else if maxSpan <? actual then maxSpan
                  else actual in
                (* 4) scale the previous target *)
                let oldT := bits in
                let expectedSeconds := time.Seconds_int64 expected in
                let expectedSeconds :=
                  if expectedSeconds =? 0 then 1 else expectedSeconds in
                let newT := oldT * time.Seconds_int64 actual in
                let newT := Big.Div newT expectedSeconds in
                (* 5) bounds for negative targets *)
                let minTarget := -1 in
                let maxTarget := - Z.shiftl 1 63 in
                let newT := if minTarget <? newT then minTarget else newT in
                let newT := if newT <? maxTarget then maxTarget else newT in
                ((newT, None), chain')
            end
      end
  end.

(** The chain reader of the difficulty unit tests: a map of headers. *)
Definition mockChain_HeaderByHeight (m : gmap Z header.Header) (height : Z)
  : option header.Header * gmap Z header.Header :=
  (m !! height, m).

(** The retarget rule in the words of its description: the span is
    clamped to [expected/4, expected*4], taken in whole seconds, the
    target is scaled by span over expected with the given integer
    division, and the result saturates at [-1] and [-2^63]. *)
Definition expected_span : Z := 2016 * 600.

Definition clamped_span (actual_ns : Z) : Z :=
  let lo := expected_span * time.Second / 4 in
  let hi := expected_span * time.Second * 4 in
  Z.max lo (Z.min hi actual_ns) / time.Second.

Definition saturate (t : Z) : Z :=
  if -1 <? t then -1 else if t <? - 2 ^ 63 then - 2 ^ 63 else t.

Definition retarget_with (div : Z -> Z -> Z) (bits actual_ns : Z) : Z :=
  saturate (div (bits * clamped_span actual_ns) expected_span).

(** ** Miner template target ([miner/workloop.go]) *)

Module miner.

(** The target read from the parent at the start of an iteration of
    [WorkLoop]: [currentTarget := parent.Bits.Int64()], replaced by the
    command-line [target] when [currentTarget <= 0].  A nil [Bits] is a
    nil dereference ([None]). *)
Definition parent_target (parentBits : option Z) (target : Z) : option Z :=
  match parentBits with
  | None => None
  | Some bits =>
      let currentTarget := Big.Int64 bits in
      Some (if currentTarget <=? 0 then target else currentTarget)
  end.

(** The target of the template: at a retarget boundary a successful
    [Adjust] on the parent overrides it. *)
Definition template_target {S : Type}
    (HeaderByHeight : S -> Z -> option header.Header * S)
    (chain : S) (parent : header.Header) (target : Z) : option (Z * S) :=
  match parent_target (header.Bits parent) target with
  | None => None
  | Some currentTarget =>
      let height := Int.to_uint64 (header.Height parent + 1) in
      if (Int.rem height config.RetargetInterval =? 0) && (0 <? header.Height parent)
      then
        match Adjust HeaderByHeight chain (Some parent) with
        | ((t, None), chain') => Some (Big.Int64 t, chain')
        | ((_, Some _), chain') => Some (currentTarget, chain')
        end
      else Some (currentTarget, chain)
  end.

End miner.

(** ** Block store ([core/store.go]) *)

(** The key-value store holds the encoded block under [block:<height>]
    and the tip under [chain:tip]. *)
Record BadgerStore := mkBadgerStore {
  store_blocks : gmap Z BlockJSON;
  store_tip : option Z
}.

(** [PutBlock]: [None] is the encoding error, the store is then unchanged. *)
Definition PutBlock (s : BadgerStore) (height : Z) (block : Block)
  : option BadgerStore :=
  match Encode block with
  | Some val =>
      Some {| store_blocks := <[height := val]> (store_blocks s);
              store_tip := Some height |}
  | None => None
  end.

Definition GetBlock (s : BadgerStore) (height : Z) : option Block :=
  DecodeBlock <$> (store_blocks s !! height).

(** [PruneBlocks(keepN, tip)] deletes every height below
    [tip - keepN + 1]. *)
Definition PruneBlocks (s : BadgerStore) (keepN tip : Z) : BadgerStore :=
  let minKeep := if keepN <=? tip then Int.to_uint64 (tip - keepN + 1) else 0 in
  {| store_blocks := filter (fun kv => ~ (0 <= kv.1 < minKeep)) (store_blocks s);
     store_tip := store_tip s |}.

(** ** Chain manager ([core/chain.go]) *)

(** What the Go runtime and the process configuration decide: the order
    in which a [range] yields the keys of each map, and the prune depth. *)
Record Runtime := mkRuntime {
  range_blocks : gmap Z Block -> list Z;
  range_sideBranches : gmap (list Z) (list Block) -> list (list Z);
  PruneDepth : Z
}.

(** A [range] yields every key once. *)
Definition fair_runtime (rt : Runtime) : Prop :=
  (forall m, range_blocks rt m ≡ₚ (map_to_list m).*1) /\
  (forall m, range_sideBranches rt m ≡ₚ (map_to_list m).*1).

Definition key_order : Runtime :=
  {| range_blocks := fun m => (map_to_list m).*1;
     range_sideBranches := fun m => (map_to_list m).*1;
     PruneDepth := 100 |}.

(** Blocks are held by value; [subscribers] records for each one-slot
    channel whether a notification is pending; [requests] lists the
    parent hashes for which [go c.RequestBlockByHash(...)] was started;
    [orphanImportInProgress] is the process-wide flag. *)
Record Chain := mkChain {
  blocks : gmap Z Block;
  blockHashIndex : gmap (list Z) Block;
  head : Z;
  store : BadgerStore;
  genesisTarget : Z;
  subscribers : list bool;
  OrphanPool : gmap (list Z) (list Block);
  sideBranches : gmap (list Z) (list Block);
  RequestBlockByHash : bool;
  requests : list (list Z);
  orphanImportInProgress : bool
}.

Definition set_blocks (c : Chain) (v : gmap Z Block) : Chain :=
  mkChain v (blockHashIndex c) (head c) (store c) (genesisTarget c)
          (subscribers c) (OrphanPool c) (sideBranches c)
          (RequestBlockByHash c) (requests c) (orphanImportInProgress c).
Definition set_blockHashIndex (c : Chain) (v : gmap (list Z) Block) : Chain :=
  mkChain (blocks c) v (head c) (store c) (genesisTarget c)
          (subscribers c) (OrphanPool c) (sideBranches c)
          (RequestBlockByHash c) (requests c) (orphanImportInProgress c).
Definition set_head (c : Chain) (v : Z) : Chain :=
  mkChain (blocks c) (blockHashIndex c) v (store c) (genesisTarget c)
          (subscribers c) (OrphanPool c) (sideBranches c)
          (RequestBlockByHash c) (requests c) (orphanImportInProgress c).
Definition set_store (c : Chain) (v : BadgerStore) : Chain :=
  mkChain (blocks c) (blockHashIndex c) (head c) v (genesisTarget c)
          (subscribers c) (OrphanPool c) (sideBranches c)
          (RequestBlockByHash c) (requests c) (orphanImportInProgress c).
Definition set_subscribers (c : Chain) (v : list bool) : Chain :=
  mkChain (blocks c) (blockHashIndex c) (head c) (store c) (genesisTarget c)
          v (OrphanPool c) (sideBranches c)
          (RequestBlockByHash c) (requests c) (orphanImportInProgress c).
Definition set_OrphanPool (c : Chain) (v : gmap (list Z) (list Block)) : Chain :=
  mkChain (blocks c) (blockHashIndex c) (head c) (store c) (genesisTarget c)
          (subscribers c) v (sideBranches c)
          (RequestBlockByHash c) (requests c) (orphanImportInProgress c).
Definition set_sideBranches (c : Chain) (v : gmap (list Z) (list Block)) : Chain :=
  mkChain (blocks c) (blockHashIndex c) (head c) (store c) (genesisTarget c)
          (subscribers c) (OrphanPool c) v
          (RequestBlockByHash c) (requests c) (orphanImportInProgress c).
Definition set_requests (c : Chain) (v : list (list Z)) : Chain :=
  mkChain (blocks c) (blockHashIndex c) (head c) (store c) (genesisTarget c)
          (subscribers c) (OrphanPool c) (sideBranches c)
          (RequestBlockByHash c) v (orphanImportInProgress c).
Definition set_orphanImportInProgress (c : Chain) (v : bool) : Chain :=
  mkChain (blocks c) (blockHashIndex c) (head c) (store c) (genesisTarget c)
          (subscribers c) (OrphanPool c) (sideBranches c)
          (RequestBlockByHash c) (requests c) v.

(** Persisting a block; a failure is logged and otherwise ignored. *)
Definition persist (c : Chain) (height : Z) (block : Block) : Chain :=
  match PutBlock (store c) height block with
  | Some s => set_store c s
  | None => c
  end.

(** [func (c *Chain) createGenesis()], at wall-clock time [now]. *)
Definition createGenesis (c : Chain) (now : Z) : Chain :=
  let genesis :=
    {| Header := header.mkHeader 0 header.zero_hash 0 (Some (genesisTarget c))
                                 now header.zero_hash 0;
       Transactions := []; MerkleRoot := []; Time := now; Receipts := [] |} in
  let c := set_blocks c (<[0 := genesis]> (blocks c)) in
  let c := set_blockHashIndex c (<[Block_Hash genesis := genesis]> (blockHashIndex c)) in
  let c := set_head c 0 in
  persist c 0 genesis.

(** [NewChain] on an empty data directory. *)
Definition NewChain (genesisTarget : Z) (callback : bool) (now : Z) : Chain :=
  createGenesis
    (mkChain ∅ ∅ 0 (mkBadgerStore ∅ None) genesisTarget [] ∅ ∅ callback [] false)
    now.

Inductive ImportError : Type :=
| ErrDuplicate (height : Z)
| ErrOrphanQueued (parentHash : list Z)
| ErrSideBranchHeight (parentHeight blockHeight : Z)
| ErrSideBranchParent
| ErrHashMismatch
| ErrDifficulty (e : AdjustError).

(** [fixBits]: [HeaderByHeight] replaces a nil or zero target by 1000. *)
Definition fixBits (blk : Block) : Block :=
  match header.Bits (Header blk) with
  | Some b =>
      if b =? 0 then
        mkBlock (header.mkHeader (header.Height (Header blk))
                   (header.ParentHash (Header blk)) (header.Lhat (Header blk))
                   (Some 1000) (header.Timestamp (Header blk))
                   (header.StateRoot (Header blk)) (header.Nonce (Header blk)))
                (Transactions blk) (MerkleRoot blk) (Time blk) (Receipts blk)
      else blk
  | None =>
      mkBlock (header.mkHeader (header.Height (Header blk))
                 (header.ParentHash (Header blk)) (header.Lhat (Header blk))
                 (Some 1000) (header.Timestamp (Header blk))
                 (header.StateRoot (Header blk)) (header.Nonce (Header blk)))
              (Transactions blk) (MerkleRoot blk) (Time blk) (Receipts blk)
  end.

(** [func (c *Chain) HeaderByHeight(height uint64) *header.Header]. *)
Definition HeaderByHeight (c : Chain) (height : Z) : option header.Header * Chain :=
  match blocks c !! height with
  | Some blk =>
      let blk := fixBits blk in
      (Some (Header blk), set_blocks c (<[height := blk]> (blocks c)))
  | None =>
      match GetBlock (store c) height with
      | Some blk =>
          let blk := fixBits blk in
          (Some (Header blk), set_blocks c (<[height := blk]> (blocks c)))
      | None => (None, c)
      end
  end.

(** [func (c *Chain) BlockByHeight(height uint64) *Block]. *)
Definition BlockByHeight (c : Chain) (height : Z) : option Block :=
  blocks c !! height.

(** [func (c *Chain) getBlockByHash(h [32]byte) *Block]. *)
Definition getBlockByHash (c : Chain) (h : list Z) : option Block :=
  blockHashIndex c !! h.

(** [func (c *Chain) notifyHeadChange()]: a channel that is full keeps
    its one pending notification. *)
Definition notifyHeadChange (c : Chain) : Chain :=
  set_subscribers c (map (fun _ => true) (subscribers c)).

(** [func (c *Chain) addToOrphanPool(block *Block)]. *)
Definition addToOrphanPool (c : Chain) (block : Block) : Chain :=
  let ph := header.ParentHash (Header block) in
  let c := set_OrphanPool c
             (<[ph := default [] (OrphanPool c !! ph) ++ [block]]> (OrphanPool c)) in
  if RequestBlockByHash c then set_requests c (requests c ++ [ph]) else c.

(** [func (c *Chain) addToSideBranch(block *Block)]. *)
Definition addToSideBranch (c : Chain) (block : Block) : Chain :=
  let ph := header.ParentHash (Header block) in
  let branch := default [] (sideBranches c !! ph) in
  set_sideBranches c (<[ph := branch ++ [block]]> (sideBranches c)).

(** One block of a reorganisation. *)
Definition applyBranchBlock (c : Chain) (blk : Block) : Chain :=
  let h := header.Height (Header blk) in
  let c := set_blocks c (<[h := blk]> (blocks c)) in
  let c := set_head c h in
  persist c h blk.

(** [func (c *Chain) reorgToBranch(parentHash [32]byte, branch []*Block)];
    [branch[0]] of an empty branch is out of range. *)
Definition reorgToBranch (c : Chain) (parentHash : list Z) (branch : list Block)
  : Outcome Chain :=
  match branch with
  | [] => Panic
  | b0 :: _ =>
      let forkHeight := Int.to_uint64 (header.Height (Header b0) - 1) in
      let c := set_head c forkHeight in
      Done (fold_left applyBranchBlock branch c)
  end.

(** The body of the loop of [checkReorg] for the key [parentHash]. *)
Definition checkReorg_step (c : Chain) (parentHash : list Z) : Outcome Chain :=
  match sideBranches c !! parentHash with
  | None => Done c
  | Some branch =>
      match last branch with
      | None => Done c
      | Some branchTip =>
          if head c <? header.Height (Header branchTip) then
            obind (reorgToBranch c parentHash branch) (fun c =>
            Done (set_sideBranches c (delete parentHash (sideBranches c))))
          else Done c
      end
  end.

Fixpoint checkReorg_in (order : list (list Z)) (c : Chain) : Outcome Chain :=
  match order with
  | [] => Done c
  | parentHash :: rest =>
      obind (checkReorg_step c parentHash) (checkReorg_in rest)
  end.

(** [func (c *Chain) checkReorg()]. *)
Definition checkReorg (rt : Runtime) (c : Chain) : Outcome Chain :=
  checkReorg_in (range_sideBranches rt (sideBranches c)) c.

(** The search of [importBlockInternal] for the parent: the first block
    the [range] over [c.blocks] yields whose hash is [parentHash]. *)
Fixpoint find_parent (order : list Z) (m : gmap Z Block) (parentHash : list Z)
  : option Block :=
  match order with
  | [] => None
  | k :: rest =>
      match m !! k with
      | Some b =>
          if bool_decide (Block_Hash b = parentHash) then Some b
          else find_parent rest m parentHash
      | None => find_parent rest m parentHash
      end
  end.

Definition set_Bits (block : Block) (bits : option Z) : Block :=
  mkBlock (header.mkHeader (header.Height (Header block))
             (header.ParentHash (Header block)) (header.Lhat (Header block))
             bits (header.Timestamp (Header block))
             (header.StateRoot (Header block)) (header.Nonce (Header block)))
          (Transactions block) (MerkleRoot block) (Time block) (Receipts block).

(** The insertion of an accepted block, up to the head notification. *)
Definition insertBlock (rt : Runtime) (c : Chain) (block : Block) : Chain :=
  let h := header.Height (Header block) in
  let c := set_blocks c (<[h := block]> (blocks c)) in
  let c := set_blockHashIndex c (<[Block_Hash block := block]> (blockHashIndex c)) in
  let c := set_head c h in
  let c := persist c h block in
  let c := if 0 <? PruneDepth rt
           then set_store c (PruneBlocks (store c) (PruneDepth rt) (head c))
           else c in
  notifyHeadChange c.

(** [func (c *Chain) importBlockInternal(block *Block, scanOrphans bool)];
    [scanOrphans] is not read by the source.  [orphans] is the call of
    [tryImportOrphans]. *)
Definition importBlockInternal
    (orphans : Chain -> list Z -> Outcome Chain)
    (rt : Runtime) (c : Chain) (block : Block)
  : Outcome (Chain * option ImportError) :=
  let height := header.Height (Header block) in
  let parentHash := header.ParentHash (Header block) in
  match blocks c !! height with
  | Some existing =>
      if bool_decide (Block_Hash existing = Block_Hash block) then
        Done (c, Some (ErrDuplicate height))
      else
        match blocks c !! head c with
        | None => Panic
        | Some headBlock =>
            if bool_decide (parentHash = Block_Hash headBlock) then
              Done (c, Some (ErrDuplicate height))
            else
              let c := addToSideBranch c block in
              obind (checkReorg rt c) (fun c => Done (c, None))
        end
  | None =>
      match find_parent (range_blocks rt (blocks c)) (blocks c) parentHash with
      | None =>
          Done (addToOrphanPool c block, Some (ErrOrphanQueued parentHash))
      | Some parent =>
          let parentHeight := header.Height (Header parent) in
          if negb (parentHeight =? Int.to_uint64 (height - 1)) then
            Done (addToSideBranch c block,
                  Some (ErrSideBranchHeight parentHeight height))
          else if negb (bool_decide (parentHash = Block_Hash parent)) then
            Done (addToSideBranch c block, Some ErrSideBranchParent)
          else if negb (bool_decide (header.Hash (Some (Header block)) = Block_Hash block)) then
            Done (c, Some ErrHashMismatch)
          else
            let retarget :=
              if (Int.rem height config.RetargetInterval =? 0) && (0 <? height)
              then
                match Adjust HeaderByHeight c (Some (Header block)) with
                | ((newTarget, None), c) => inl (c, set_Bits block (Some newTarget))
                | ((_, Some e), c) => inr (c, e)
                end
              else inl (c, set_Bits block (header.Bits (Header parent))) in
            match retarget with
            | inr (c, e) => Done (c, Some (ErrDifficulty e))
            | inl (c, block) =>
                let c := insertBlock rt c block in
                obind (checkReorg rt c) (fun c =>
                obind (orphans c (Block_Hash block)) (fun c =>
                Done (c, None)))
            end
      end
  end.

(** Which orphans of a parent are imported and which go to a side
    branch; an orphan whose parent is not indexed is dropped. *)
Definition orphan_importable (c : Chain) (orphan : Block) : bool :=
  match getBlockByHash c (header.ParentHash (Header orphan)) with
  | Some parent =>
      header.Height (Header parent) =?
        Int.to_uint64 (header.Height (Header orphan) - 1)
  | None => false
  end.

Definition orphan_sideBranched (c : Chain) (orphan : Block) : bool :=
  match getBlockByHash c (header.ParentHash (Header orphan)) with
  | Some parent =>
      negb (header.Height (Header parent) =?
              Int.to_uint64 (header.Height (Header orphan) - 1))
  | None => false
  end.

Fixpoint importAll
    (import : Chain -> Block -> Outcome (Chain * option ImportError))
    (toImport : list Block) (c : Chain) : Outcome Chain :=
  match toImport with
  | [] => Done c
  | orphan :: rest =>
      obind (import c orphan) (fun r => importAll import rest r.1)
  end.

(** [func (c *Chain) tryImportOrphans(parentHash [32]byte)]; [import] is
    the call of [c.ImportBlock]. *)
Definition tryImportOrphans
    (import : Chain -> Block -> Outcome (Chain * option ImportError))
    (c : Chain) (parentHash : list Z) : Outcome Chain :=
  if orphanImportInProgress c then Done c
  else
    let c := set_orphanImportInProgress c true in
    let r :=
      match OrphanPool c !! parentHash with
      | None => Done c
      | Some orphans =>
          let c := set_OrphanPool c (delete parentHash (OrphanPool c)) in
          let toImport := List.filter (orphan_importable c) orphans in
          let toSideBranch := List.filter (orphan_sideBranched c) orphans in
          obind (importAll import toImport c) (fun c =>
          Done (fold_left addToSideBranch toSideBranch c))
      end in
    obind r (fun c => Done (set_orphanImportInProgress c false)).

(** [func (c *Chain) ImportBlock(block *Block) error].  [ImportBlock]
    and [tryImportOrphans] call each other; [fuel] bounds the nesting. *)
Fixpoint ImportBlock (fuel : nat) (rt : Runtime) (c : Chain) (block : Block)
  : Outcome (Chain * option ImportError) :=
  match fuel with
  | O => OutOfFuel
  | S fuel' =>
      importBlockInternal (tryImportOrphans (ImportBlock fuel' rt)) rt c block
  end.

(** A branch whose blocks have the consecutive heights [h0], [h0 + 1],
    ... in this order. *)
Definition branch_from (h0 : Z) (branch : list Block) : Prop :=
  forall (i : nat) (b : Block),
    branch !! i = Some b -> header.Height (Header b) = h0 + Z.of_nat i.

(** ** Sync protocol ([net/p2p.go], [net/topics.go]) *)

Module net.

Record BlockRequest := mkBlockRequest {
  From : Z;   (* uint64, inclusive *)
  To : Z      (* uint64, inclusive *)
}.

(** The cap of [handleBlockReq]:
    [if req.To-req.From > 512 { req.To = req.From + 512 }]. *)
Definition cap (req : BlockRequest) : BlockRequest :=
  if 512 <? Int.to_uint64 (To req - From req)
  then mkBlockRequest (From req) (Int.to_uint64 (From req + 512))
  else req.

(** The loop [for h := req.From; h <= req.To; h++]. *)
Fixpoint collect (fuel : nat) (c : Chain) (h to : Z) (blocks : list Block)
  : Outcome (list Block) :=
  match fuel with
  | O => OutOfFuel
  | S fuel' =>
      if h <=? to then
        let blocks :=
          match BlockByHeight c h with
          | Some blk => blocks ++ [blk]
          | None => blocks
          end in
        collect fuel' c (Int.to_uint64 (h + 1)) to blocks
      else Done blocks
  end.

(** The blocks of the [BlockResponse] that [handleBlockReq] publishes
    for one request. *)
Definition handleBlockReq (fuel : nat) (c : Chain) (req : BlockRequest)
  : Outcome (list Block) :=
  let req := cap req in
  collect fuel c (From req) (To req) [].

(** [handleBlockResp]: every block of a response is imported in turn, a
    failed import is logged and the next block is tried. *)
Fixpoint handleBlockResp (rt : Runtime) (resp : list Block) (c : Chain)
  : Outcome Chain :=
  match resp with
  | [] => Done c
  | blk :: rest =>
      obind (ImportBlock 2 rt c blk) (fun r => handleBlockResp rt rest r.1)
  end.

End net.

(** ** Sample data *)

(** The block of the round-trip unit test of [core/block.go]. *)
Definition example_header : header.Header :=
  header.mkHeader 42 (1 :: 2 :: 3 :: repeat 0 29%nat) 123 (Some 987654321)
                  1700000000000000000 header.zero_hash 12345.

Definition example_block : Block :=
  mkBlock example_header [] [] 1700000000000000000 [].

(** A block whose header carries no target. *)
Definition nil_bits_block : Block :=
  mkBlock (header.mkHeader 1 header.zero_hash 0 None 0 header.zero_hash 0)
          [] [] 0 [].

(** The first header of the retarget window and a tip whose target is
    not a multiple of four. *)
Definition retarget_chain : gmap Z header.Header :=
  {[ 1 := header.mkHeader 1 header.zero_hash 0 (Some (-1000)) 0 header.zero_hash 0 ]}.

Definition retarget_tip : header.Header :=
  header.mkHeader 2016 header.zero_hash 0 (Some (-1001)) 0 header.zero_hash 0.

(** A chain holding a block at every height from 0 to 600. *)
Definition plain_block (h : Z) : Block :=
  mkBlock (header.mkHeader h header.zero_hash 0 (Some (-5)) 0 header.zero_hash 0)
          [] [] 0 [].

Definition long_chain : Chain :=
  mkChain (list_to_map (map (fun h => (h, plain_block h)) (seqZ 0 601)))
          ∅ 600 (mkBadgerStore ∅ None) (-5) [] ∅ ∅ false [] false.

(** The quizzes of height 42 for the nonces 7 and 8. *)
Definition quiz_42_7 : list string :=
  [ "Complete the pattern: 9, 14, 19, ?"; "What is 21 × 29?";
    "Complete the pattern: 3, 8, 13, ?" ]%string.

Definition quiz_42_8 : list string :=
  [ "Complete the pattern: 8, 13, 18, ?"; "What is 424 + 426?";
    "What is 10 × 35?" ]%string.

(** A signature checker that recovers no key. *)
Definition no_recovery : Crypto :=
  mkCrypto (fun _ => []) (fun _ _ => None) (fun pub => pub).

(** Blocks at height 42 with nonce 7 and no transactions.  With the
    stub engine the replayed loss is -1276699977615973386. *)
Definition replay_block (lhat bits : Z) : Block :=
  mkBlock (header.mkHeader 42 header.zero_hash lhat (Some bits) 0 header.zero_hash 7)
          [] [] 0 [].

(** A fresh chain and four blocks: [main_1] extends the genesis block;
    [fork_2] and [fork_4] name the genesis block as their parent but
    claim the heights 2 and 4; [child_3] extends [fork_2]. *)
Definition genesis_chain : Chain := NewChain (-1000000000000000000) true 0.

Definition genesis_hash : list Z :=
  header.Hash (Some (header.mkHeader 0 header.zero_hash 0 None 0 header.zero_hash 0)).

Definition block_on (parentHash : list Z) (height nonce : Z) : Block :=
  mkBlock (header.mkHeader height parentHash 0 (Some (-5)) 0
                           header.zero_hash nonce)
          [] [] 0 [].

Definition main_1 : Block := block_on genesis_hash 1 0.
Definition fork_2 : Block := block_on genesis_hash 2 1.
Definition fork_4 : Block := block_on genesis_hash 4 1.
Definition child_3 : Block := block_on (Block_Hash fork_2) 3 0.

Definition genesis_block : Block :=
  mkBlock (header.mkHeader 0 header.zero_hash 0 (Some (-1000000000000000000)) 0
                           header.zero_hash 0)
          [] [] 0 [].

(** The chain once [fork_2] and [fork_4] have been received, and once
    [main_1] has been imported after them. *)
Definition forked_chain : Chain :=
  match net.handleBlockResp key_order [fork_2; fork_4] genesis_chain with
  | Done c => c
  | _ => genesis_chain
  end.

Definition reorged_chain : Chain :=
  match ImportBlock 2 key_order forked_chain main_1 with
  | Done (c, _) => c
  | _ => forked_chain
  end.

(** [orphan_5] names [main_1] as its parent but claims height 5.  It
    arrives before [main_1] and waits in the orphan pool; the import of
    [main_1] then promotes it. *)
Definition orphan_5 : Block := block_on (Block_Hash main_1) 5 0.

Definition waiting_chain : Chain :=
  match ImportBlock 2 key_order genesis_chain orphan_5 with
  | Done (c, _) => c
  | _ => genesis_chain
  end.

Definition promoted_chain : Chain :=
  match ImportBlock 2 key_order waiting_chain main_1 with
  | Done (c, _) => c
  | _ => waiting_chain
  end.

(** The chain once [fork_2] and [main_1] have been received. *)
Definition fork_on_main_chain : Chain :=
  match net.handleBlockResp key_order [fork_2; main_1] genesis_chain with
  | Done c => c
  | _ => genesis_chain
  end.

(** ** Block store, continued ([core/store.go]) *)

(** [func (s *BadgerStore) DeleteBlock(height uint64) error]. *)
Definition DeleteBlock (s : BadgerStore) (height : Z) : BadgerStore :=
  {| store_blocks := delete height (store_blocks s); store_tip := store_tip s |}.

(** [func (s *BadgerStore) GetTipHeight() (uint64, error)]; [None] is
    the error of a missing [chain:tip] key. *)
Definition GetTipHeight (s : BadgerStore) : option Z := store_tip s.

(** ** Epoch keys ([core/keyschedule/key.go]) *)

Module keyschedule.

(** [func EpochKey(epoch uint64, st storage.Reader) [32]byte].  The
    reader is a state [S] with its [HeaderByHeight]; [EpochBlocks] is
    the configuration variable of that name. *)
Definition EpochKey {S : Type} (EpochBlocks : Z)
    (HeaderByHeight : S -> Z -> option header.Header * S)
    (epoch : Z) (st : S) : list Z * S :=
  let lastHeight := Int.to_uint64 (Int.to_uint64 (epoch * EpochBlocks) - 1) in
  let lastHeight := if epoch =? 0 then 0 else lastHeight in
  match HeaderByHeight st lastHeight with
  | (None, st) => (repeat 0 32%nat, st)
  | (Some hdr, st) =>
      let seed := header.Hash (Some hdr) in
      let buf := repeat 0 40%nat in
      let buf := copy_into buf 0 32 seed in
      let buf := copy_into buf 32 8 (LittleEndian.PutUint64 epoch) in
      (copy_into (repeat 0 32%nat) 0 32 (sha3_256 buf), st)
  end.

End keyschedule.

(** ** Sync protocol, continued ([net/p2p.go]) *)

(** [func (c *Chain) CurrentHeight() uint64]. *)
Definition CurrentHeight (c : Chain) : Z := head c.

Module p2p.

Record NewHeadMsg := mkNewHeadMsg {
  Height : Z;          (* uint64 *)
  Hash : list Z;       (* [32]byte *)
  Parent : list Z      (* [32]byte *)
}.

(** [func (n *P2PNode) AnnounceHead(b *core.Block)]: the message that
    is published. *)
Definition AnnounceHead (b : Block) : NewHeadMsg :=
  {| Height := header.Height (Header b);
     Hash := header.Hash (Some (Header b));
     Parent := header.ParentHash (Header b) |}.

(** One message of [handleNewHead]: the new value of
    [n.bestKnownHeight] and the block request that is published, if
    any. *)
Definition handleNewHead (c : Chain) (bestKnownHeight : Z) (msg : NewHeadMsg)
  : Z * option net.BlockRequest :=
  if Height msg =? 0 then (bestKnownHeight, None)
  else
    let best := CurrentHeight c in
    let bestKnownHeight :=
      if bestKnownHeight <? Height msg then Height msg else bestKnownHeight in
    if Height msg <=? best then (bestKnownHeight, None)
    else (bestKnownHeight,
          Some (net.mkBlockRequest (Int.to_uint64 (best + 1)) (Height msg))).

(** The first loop of [RequestBlockByHash]:
    [for h := uint64(0); h <= n.Chain.CurrentHeight(); h++], which
    returns as soon as a block of the main chain has the hash. *)
Fixpoint have_block (fuel : nat) (c : Chain) (h : Z) (parentHash : list Z)
  : Outcome bool :=
  match fuel with
  | O => OutOfFuel
  | S fuel' =>
      if h <=? CurrentHeight c then
        match BlockByHeight c h with
        | Some blk =>
            if bool_decide (Block_Hash blk = parentHash) then Done true
            else have_block fuel' c (Int.to_uint64 (h + 1)) parentHash
        | None => have_block fuel' c (Int.to_uint64 (h + 1)) parentHash
        end
      else Done false
  end.

(** The second loop: the height of the first orphan, in the order the
    pool is ranged over, whose parent hash is [parentHash]. *)
Fixpoint find_orphan (order : list (list Z)) (pool : gmap (list Z) (list Block))
    (parentHash : list Z) : option Z :=
  match order with
  | [] => None
  | k :: rest =>
      match List.find (fun orphan =>
                         bool_decide (header.ParentHash (Header orphan) = parentHash))
                      (default [] (pool !! k)) with
      | Some orphan => Some (header.Height (Header orphan))
      | None => find_orphan rest pool parentHash
      end
  end.

(** [func (n *P2PNode) RequestBlockByHash(parentHash [32]byte)]: the
    block request that is published, if any.  [order] is the order in
    which the orphan pool is ranged over. *)
Definition RequestBlockByHash (fuel : nat) (order : list (list Z)) (c : Chain)
    (parentHash : list Z) : Outcome (option net.BlockRequest) :=
  obind (have_block fuel c 0 parentHash) (fun have =>
  if have then Done None
  else
    match find_orphan order (OrphanPool c) parentHash with
    | Some orphanHeight =>
        if 1 <? orphanHeight then Done (Some (net.mkBlockRequest 1 orphanHeight))
        else
          let best := CurrentHeight c in
          let from := if 100 <? best then best - 100 else 0 in
          Done (Some (net.mkBlockRequest from best))
    | None =>
        let best := CurrentHeight c in
        let from := if 100 <? best then best - 100 else 0 in
        Done (Some (net.mkBlockRequest from best))
    end).

End p2p.

(** ** Orphan pool and in-memory map: invariants *)

(** Every orphan of the pool is filed under its own parent hash, as
    [addToOrphanPool] files it. *)
Definition pool_filed (pool : gmap (list Z) (list Block)) : Prop :=
  forall k l o, pool !! k = Some l -> In o l -> header.ParentHash (Header o) = k.

(** The block at the head height is in the in-memory map: what
    [importBlockInternal] relies on when it reads [c.blocks[c.head]]. *)
Definition head_present (c : Chain) : Prop := is_Some (blocks c !! head c).

(** [c'] comes from [c] by steps that keep the head block in memory,
    leave the orphan-import flag as it was and empty no height of the
    in-memory map. *)
Definition grown_from (c c' : Chain) : Prop :=
  head_present c' /\
  orphanImportInProgress c' = orphanImportInProgress c /\
  (forall h, is_Some (blocks c !! h) -> is_Some (blocks c' !! h)).

(** ** Issuance and further sample data *)

(** The subsidies of the heights [from], ..., [from + len - 1] added
    up; [issued n] is what the first [n] heights pay out. *)
Definition subsidies (from len : Z) : Z :=
  fold_right Z.add 0 (map GetSubsidy (seqZ from len)).

Definition issued (n : Z) : Z := subsidies 0 n.

(** A chain on which [child_3] waits in the orphan pool. *)
Definition orphaned_chain : Chain := addToOrphanPool genesis_chain child_3.

(** ** Nonce search of the miner ([miner/workloop.go]) *)

Module workloop.

(** The prompt of one attempt: a heading line, every quiz followed by
    a newline, a closing line. *)
Definition make_prompt (quizzes : list string) : string :=
  (fold_left (fun prompt quiz => prompt ++ quiz ++ validator.newline) quizzes
             ("Please answer these questions:" ++ validator.newline)
   ++ "Answers:" ++ validator.newline)%string.

(** One attempt of the nonce search: the loss of [nonce] at [height];
    [None] when the attempt is skipped (empty prompt, failed
    inference). *)
Definition attempt (llm : inference.LLM) (height nonce : Z) : Outcome (option Z) :=
  obind (dataset.ProceduralQuiz height nonce) (fun quizzes =>
  let prompt := make_prompt quizzes in
  if String.eqb prompt "" then Done None
  else
    obind (validator.llm_seed height) (fun llmSeed =>
    match inference.Infer llm prompt llmSeed with
    | None => Done None
    | Some output =>
        obind (validator.loss_of_output output) (fun lossInt => Done (Some lossInt))
    end)).

End workloop.

(* ===================================================================== *)
(** * Part II: properties                                                 *)
(* ===================================================================== *)

(** ** Subsidy *)

Lemma shiftr_50_ge_6 (n : Z) : 6 <= n -> Z.shiftr 50 n = 0.
Proof.
  intros Hn. rewrite Z.shiftr_div_pow2 by lia.
  apply Z.div_small. split; [lia|].
  apply Z.lt_le_trans with (2 ^ 6); [reflexivity|].
  apply Z.pow_le_mono_r; lia.
Qed.

(** C10.  For every height [h] (an unsigned 64-bit value) [GetSubsidy h]
    is the floor of [50 / 2 ^ (h div 210000)], and it is zero for every
    [h >= 6 * 210000 = 1260000]: the right shift of 50 is already zero at
    the sixth halving, long before the cut-off at 64 halvings. *)
Theorem GetSubsidy_floor_and_zero (h : Z) (Hh : Int.is_uint64 h) :
  GetSubsidy h = 50 / 2 ^ (h / 210000) /\
  (1260000 <= h -> GetSubsidy h = 0).
Proof.
  unfold Int.is_uint64 in Hh. unfold GetSubsidy, Int.quo, HalvingBlocks, InitialSubsidy, Big.Rsh.
  rewrite Z.quot_div_nonneg by lia.
  assert (Hq : 0 <= h / 210000) by (apply Z.div_pos; lia).
  split.
  - destruct (64 <=? h / 210000) eqn:E.
    + apply Z.leb_le in E. symmetry. apply Z.div_small. split; [lia|].
      apply Z.lt_le_trans with (2 ^ 6); [reflexivity|].
      apply Z.pow_le_mono_r; lia.
    + apply Z.shiftr_div_pow2; lia.
  - intros Hge.
    assert (6 <= h / 210000) by (apply Z.div_le_lower_bound; lia).
    destruct (64 <=? h / 210000); [reflexivity|].
    apply shiftr_50_ge_6; assumption.
Qed.

Lemma GetSubsidy_floor_and_zero_witness :
  Int.is_uint64 1260000 /\
  GetSubsidy 1260000 = 50 / 2 ^ (1260000 / 210000) /\
  (1260000 <= 1260000 -> GetSubsidy 1260000 = 0).
Proof.
  assert (H : Int.is_uint64 1260000) by (unfold Int.is_uint64, Int.two64; lia).
  split; [exact H | exact (GetSubsidy_floor_and_zero 1260000 H)].
Defined.

(** ** Header hash *)

Example sha3_256_empty :
  sha3_256 [] =
  [0xa7; 0xff; 0xc6; 0xf8; 0xbf; 0x1e; 0xd7; 0x66; 0x51; 0xc1; 0x47; 0x56;
   0xa0; 0x61; 0xd6; 0x62; 0xf5; 0x80; 0xff; 0x4d; 0xe4; 0x3b; 0x49; 0xfa;
   0x82; 0xd8; 0x0a; 0x4b; 0x80; 0xf8; 0x43; 0x4a].
Proof. vm_compute. reflexivity. Qed.

Example sha3_256_abc :
  sha3_256 (bytes_of_string "abc") =
  [0x3a; 0x98; 0x5d; 0xa7; 0x4f; 0xe2; 0x25; 0xb2; 0x04; 0x5c; 0x17; 0x2d;
   0x6b; 0xd3; 0x90; 0xbd; 0x85; 0x5f; 0x08; 0x6e; 0x3e; 0x9d; 0x52; 0x5b;
   0x46; 0xbf; 0xe2; 0x45; 0x11; 0x43; 0x15; 0x32].
Proof. vm_compute. reflexivity. Qed.

Lemma PutUint64_le_bytes (v : Z) : LittleEndian.PutUint64 v = le_bytes 8 v.
Proof.
  unfold LittleEndian.PutUint64, Int.to_byte. cbn [le_bytes].
  rewrite !Z.shiftr_div_pow2 by lia.
  rewrite !Z.div_div by lia.
  reflexivity.
Qed.

Lemma length_le_bytes (n : nat) (v : Z) : length (le_bytes n v) = n.
Proof. revert v. induction n as [|n IH]; intros v; cbn; [reflexivity|]. now rewrite IH. Qed.

(** The buffer that [Hash] fills is the concatenation of its three parts. *)
Lemma hash_buffer_concat (ht nc : list Z) (ph : list Z) :
  length ht = 8%nat -> length ph = 32%nat -> length nc = 8%nat ->
  copy_into (copy_into (copy_into (repeat 0 48%nat) 0 8 ht) 8 32 ph) 40 8 nc
  = ht ++ ph ++ nc.
Proof.
  intros Hht Hph Hnc. unfold copy_into.
  rewrite Hht, Hph, Hnc. cbn [Nat.min take drop repeat app Nat.add].
  do 8 (destruct ht as [|? ht]; [discriminate|]). destruct ht; [|discriminate].
  do 8 (destruct nc as [|? nc]; [discriminate|]). destruct nc; [|discriminate].
  do 32 (destruct ph as [|? ph]; [discriminate|]). destruct ph; [|discriminate].
  reflexivity.
Qed.

(** C1.  For every header [h] (with its 32-byte parent hash), [Hash] is
    SHA3-256 of the 48 bytes: height on 8 bytes little endian, then the
    parent hash, then the nonce on 8 bytes little endian.  Hence two
    headers that agree on height, parent hash and nonce have the same
    hash, whatever their loss claim, bits, timestamp and state root. *)
Theorem Header_Hash_preimage (h : header.Header)
    (Hp : length (header.ParentHash h) = 32%nat) :
  let preimage := le_bytes 8 (header.Height h) ++ header.ParentHash h ++ le_bytes 8 (header.Nonce h) in
  length preimage = 48%nat /\
  header.Hash (Some h) = sha3_256 preimage /\
  forall lhat bits ts sr,
    header.Hash (Some (header.mkHeader (header.Height h) (header.ParentHash h) lhat bits ts sr (header.Nonce h)))
    = header.Hash (Some h).
Proof.
  cbn zeta. split; [|split].
  - rewrite !length_app, !length_le_bytes, Hp. reflexivity.
  - unfold header.Hash. rewrite hash_buffer_concat; try assumption; try reflexivity.
    now rewrite !PutUint64_le_bytes.
  - intros lhat bits ts sr. reflexivity.
Qed.

Lemma Header_Hash_preimage_witness :
  let h := example_header in
  let preimage := le_bytes 8 (header.Height h) ++ header.ParentHash h ++ le_bytes 8 (header.Nonce h) in
  length preimage = 48%nat /\
  header.Hash (Some h) = sha3_256 preimage /\
  forall lhat bits ts sr,
    header.Hash (Some (header.mkHeader (header.Height h) (header.ParentHash h) lhat bits ts sr (header.Nonce h)))
    = header.Hash (Some h).
Proof. exact (Header_Hash_preimage example_header eq_refl). Defined.

(** ** Block encoding *)

Lemma digits_head_not_sign (d : Decimal.uint) (c : ascii) (s : string) :
  NilEmpty.string_of_uint d = String.String c s ->
  c <> "+"%char /\ c <> "-"%char.
Proof.
  destruct d; cbn; intros [= <- _]; split; discriminate.
Qed.

Lemma SetString_digits (d : Decimal.uint) :
  d <> Decimal.Nil ->
  Big.SetString (NilEmpty.string_of_uint d) = Some (Z.of_uint d).
Proof.
  intros Hd.
  pose proof (NilEmpty.usu d) as Hu.
  destruct (NilEmpty.string_of_uint d) as [|c s] eqn:E.
  - destruct d; cbn in E; congruence.
  - destruct (digits_head_not_sign d c s E) as [Hp Hm].
    assert (Hgen : option_map Z.of_uint (NilZero.uint_of_string (String.String c s))
                   = Some (Z.of_uint d)).
    { unfold NilZero.uint_of_string. rewrite Hu. reflexivity. }
    unfold Big.SetString.
    destruct c as [[|] [|] [|] [|] [|] [|] [|] [|]]; try exact Hgen; congruence.
Qed.

(** Reading back the decimal text of an integer gives the integer. *)
Lemma SetString_String (x : Z) : Big.SetString (Big.String x) = Some x.
Proof.
  unfold Big.String. destruct x as [|p|p]; cbn [Z.to_int NilZero.string_of_int].
  - reflexivity.
  - unfold NilZero.string_of_uint.
    pose proof (DecimalPos.Unsigned.to_uint_nonnil p) as Hn.
    destruct (Pos.to_uint p) eqn:E; try congruence;
      rewrite <- E; rewrite SetString_digits by (rewrite E; discriminate);
      unfold Z.of_uint; rewrite DecimalPos.Unsigned.of_to; reflexivity.
  - unfold NilZero.string_of_uint.
    pose proof (DecimalPos.Unsigned.to_uint_nonnil p) as Hn.
    destruct (Pos.to_uint p) eqn:E; try congruence;
      rewrite <- E; cbn [Big.SetString];
      unfold NilZero.uint_of_string;
      (destruct (NilEmpty.string_of_uint (Pos.to_uint p)) eqn:E2;
       [rewrite E in E2; discriminate|]);
      rewrite <- E2, NilEmpty.usu; cbn [option_map];
      unfold Z.of_uint; rewrite DecimalPos.Unsigned.of_to; reflexivity.
Qed.

Lemma String_nonempty (x : Z) : Big.String x <> ""%string.
Proof.
  unfold Big.String. destruct x as [|p|p]; cbn; try discriminate.
  unfold NilZero.string_of_uint.
  pose proof (DecimalPos.Unsigned.to_uint_nonnil p) as Hn.
  destruct (Pos.to_uint p); cbn; congruence.
Qed.

Lemma time_MarshalJSON_encodable (t : Z) :
  time.encodable t -> time.MarshalJSON t = Some t.
Proof.
  unfold time.encodable, time.MarshalJSON. intros [Hlo Hhi].
  apply Z.leb_le in Hlo. apply Z.ltb_lt in Hhi. now rewrite Hlo, Hhi.
Qed.

Lemma header_roundtrip (h : header.Header) (bits : Z) :
  header.Bits h = Some bits ->
  time.encodable (header.Timestamp h) ->
  exists j, header.MarshalJSON h = Some j /\
            header.json_bits j = Big.String bits /\
            header.UnmarshalJSON j = h.
Proof.
  intros Hb Ht. unfold header.MarshalJSON.
  rewrite (time_MarshalJSON_encodable _ Ht), Hb.
  eexists. split; [reflexivity|]. split; [reflexivity|].
  unfold header.UnmarshalJSON; cbn.
  destruct (String.eqb_spec (Big.String bits) "") as [E|_].
  - now apply String_nonempty in E.
  - rewrite SetString_String. destruct h; cbn in *. now subst.
Qed.

(** C7 as stated fails on a header without a target: a nil [Bits] is
    written as the text ["0"] and read back as the integer zero. *)
Lemma Encode_Decode_nil_bits :
  exists j, Encode nil_bits_block = Some j /\
            header.Bits (Header (DecodeBlock j)) = Some 0 /\
            DecodeBlock j <> nil_bits_block.
Proof.
  eexists. split; [reflexivity|]. split; [reflexivity|]. discriminate.
Qed.

Lemma header_roundtrip_nil (h : header.Header) :
  header.Bits h = None ->
  time.encodable (header.Timestamp h) ->
  exists j, header.MarshalJSON h = Some j /\
            header.json_bits j = "0"%string /\
            header.UnmarshalJSON j =
              header.mkHeader (header.Height h) (header.ParentHash h) (header.Lhat h)
                (Some 0) (header.Timestamp h) (header.StateRoot h) (header.Nonce h).
Proof.
  intros Hb Ht. unfold header.MarshalJSON.
  rewrite (time_MarshalJSON_encodable _ Ht), Hb.
  eexists. split; [reflexivity|]. split; [reflexivity|].
  reflexivity.
Qed.

(** A text that [SetString] rejects leaves the digits scanned so far. *)
Example UnmarshalJSON_rejected_bits :
  header.Bits (header.UnmarshalJSON
                 (header.mkHeaderJSON "12abc" 1 header.zero_hash 0 0 header.zero_hash 0))
    = Some 12 /\
  header.Bits (header.UnmarshalJSON
                 (header.mkHeaderJSON "-7 " 1 header.zero_hash 0 0 header.zero_hash 0))
    = Some (-7) /\
  header.Bits (header.UnmarshalJSON
                 (header.mkHeaderJSON "abc" 1 header.zero_hash 0 0 header.zero_hash 0))
    = Some 0.
Proof. repeat split; reflexivity. Qed.

(** C7, amended.  For every block whose two timestamps can be written
    (years 0 to 9999) encoding succeeds.  When the header target is
    present it travels as its decimal text and decoding gives back the
    block, target included.  When the header target is nil it is
    written as the text ["0"] and decoding gives the block with the
    target zero in place of nil, every other field as it was. *)
Theorem Encode_Decode_roundtrip (b : Block)
    (Hts : time.encodable (header.Timestamp (Header b)))
    (Ht : time.encodable (Time b)) :
  exists j, Encode b = Some j /\
    (forall bits, header.Bits (Header b) = Some bits ->
       header.json_bits (json_header j) = Big.String bits /\
       DecodeBlock j = b) /\
    (header.Bits (Header b) = None ->
       header.json_bits (json_header j) = "0"%string /\
       DecodeBlock j = set_Bits b (Some 0)).
Proof.
  destruct (header.Bits (Header b)) as [bits|] eqn:Hbits.
  - destruct (header_roundtrip _ _ Hbits Hts) as (hj & Hm & Hjb & Hu).
    unfold Encode. rewrite Hm, (time_MarshalJSON_encodable _ Ht).
    eexists. split; [reflexivity|]. split; [|discriminate].
    intros bits' [= <-]. split; [exact Hjb|].
    unfold DecodeBlock; cbn. rewrite Hu. now destruct b.
  - destruct (header_roundtrip_nil _ Hbits Hts) as (hj & Hm & Hjb & Hu).
    unfold Encode. rewrite Hm, (time_MarshalJSON_encodable _ Ht).
    eexists. split; [reflexivity|]. split; [discriminate|].
    intros _. split; [exact Hjb|].
    unfold DecodeBlock, set_Bits; cbn. rewrite Hu. reflexivity.
Qed.

Lemma Encode_Decode_roundtrip_witness :
  (exists j, Encode example_block = Some j /\
     (forall bits, header.Bits (Header example_block) = Some bits ->
        header.json_bits (json_header j) = Big.String bits /\
        DecodeBlock j = example_block) /\
     (header.Bits (Header example_block) = None ->
        header.json_bits (json_header j) = "0"%string /\
        DecodeBlock j = set_Bits example_block (Some 0))) /\
  (exists j, Encode nil_bits_block = Some j /\
     (forall bits, header.Bits (Header nil_bits_block) = Some bits ->
        header.json_bits (json_header j) = Big.String bits /\
        DecodeBlock j = nil_bits_block) /\
     (header.Bits (Header nil_bits_block) = None ->
        header.json_bits (json_header j) = "0"%string /\
        DecodeBlock j = set_Bits nil_bits_block (Some 0))).
Proof.
  split.
  - apply (Encode_Decode_roundtrip example_block).
    + unfold time.encodable. vm_compute. split; [discriminate | reflexivity].
    + unfold time.encodable. vm_compute. split; [discriminate | reflexivity].
  - apply (Encode_Decode_roundtrip nil_bits_block).
    + unfold time.encodable. vm_compute. split; [discriminate | reflexivity].
    + unfold time.encodable. vm_compute. split; [discriminate | reflexivity].
Defined.

(** ** Difficulty retarget *)

Lemma clamp_max_min (lo hi a : Z) : lo <= hi ->
  (if a <? lo then lo else if hi <? a then hi else a) = Z.max lo (Z.min hi a).
Proof.
  intros H. destruct (Z.ltb_spec a lo); [lia|].
  destruct (Z.ltb_spec hi a); lia.
Qed.

Lemma Big_Div_pos (x y : Z) : 0 < y -> Big.Div x y = x / y.
Proof. intros H. unfold Big.Div. apply Z.ltb_lt in H. now rewrite H. Qed.

(** C4 as stated fails: with a target of -1001 and the span clamped to a
    quarter of the expected one, the exact quotient is -250.25; rounding
    toward zero gives -250, [Adjust] returns -251. *)
Lemma Adjust_rounds_down :
  Adjust mockChain_HeaderByHeight retarget_chain (Some retarget_tip)
    = ((-251, None), retarget_chain) /\
  retarget_with Z.quot (-1001) (time.Sub 0 0) = -250.
Proof. split; vm_compute; reflexivity. Qed.

(** C4, amended.  For every tip at height 2016 or more whose target is
    present and whose first-window header (at height - 2016 + 1) is
    found, [Adjust] returns, without error, the target times the clamped
    span over the expected span of 2016 * 600 seconds, where the span is
    clamped to [expected/4, expected*4] and the division is the
    Euclidean one of math/big, rounding toward minus infinity; the result
    is saturated: above -1 it becomes -1, below -2^63 it becomes -2^63. *)
Theorem Adjust_retarget {S : Type}
    (HeaderByHeight : S -> Z -> option header.Header * S)
    (chain chain' : S) (tip first : header.Header) (bits : Z)
    (Hbits : header.Bits tip = Some bits)
    (Hheight : 2016 <= header.Height tip < 2 ^ 64)
    (Hfirst : HeaderByHeight chain (header.Height tip - 2016 + 1) = (Some first, chain')) :
  Adjust HeaderByHeight chain (Some tip) =
    ((retarget_with Z.div bits
        (time.Sub (header.Timestamp tip) (header.Timestamp first)), None), chain').
Proof.
  unfold Adjust. rewrite Hbits.
  unfold config.RetargetInterval.
  destruct (Z.ltb_spec (header.Height tip) 2016) as [Hlt|_]; [lia|].
  unfold Int.to_uint64, Int.two64.
  rewrite (Z.mod_small (header.Height tip - 2016 + 1)) by lia.
  rewrite Hfirst.
  set (actual := time.Sub _ _).
  unfold retarget_with, saturate, clamped_span, expected_span.
  unfold config.TargetBlockSpacingSec, config.MaxAdjustmentFactor,
    time.Seconds_int64, time.Second, Int.quo.
  change (Z.quot (2016 * 1000000000 * 600) 4) with 302400000000000.
  change (2016 * 1000000000 * 600 * 4) with 4838400000000000.
  change (Z.quot (2016 * 1000000000 * 600) 1000000000) with 1209600.
  change (1209600 =? 0) with false. cbv iota.
  change (2016 * 600 * 1000000000 / 4) with 302400000000000.
  change (2016 * 600 * 1000000000 * 4) with 4838400000000000.
  change (2016 * 600) with 1209600.
  change (Z.shiftl 1 63) with (2 ^ 63).
  rewrite clamp_max_min by lia.
  rewrite Z.quot_div_nonneg by lia.
  rewrite Big_Div_pos by lia.
  set (q := _ / 1209600).
  change (2 ^ 63) with 9223372036854775808.
  destruct (Z.ltb_spec (-1) q) as [H1|H1].
  - reflexivity.
  - destruct (Z.ltb_spec q (- 9223372036854775808)); reflexivity.
Qed.

Lemma Adjust_retarget_witness :
  Adjust mockChain_HeaderByHeight retarget_chain (Some retarget_tip) =
    ((retarget_with Z.div (-1001) (time.Sub 0 0), None), retarget_chain).
Proof.
  apply (Adjust_retarget mockChain_HeaderByHeight retarget_chain retarget_chain
           retarget_tip
           (header.mkHeader 1 header.zero_hash 0 (Some (-1000)) 0 header.zero_hash 0)
           (-1001) eq_refl).
  - cbn. lia.
  - reflexivity.
Defined.

(** The saturated result is a negative 64-bit target. *)
Lemma saturate_range (t : Z) : - 2 ^ 63 <= saturate t <= -1.
Proof.
  unfold saturate. change (2 ^ 63) with 9223372036854775808.
  destruct (Z.ltb_spec (-1) t); [lia|].
  match goal with |- context [?a <? ?b] => destruct (Z.ltb_spec a b) end; lia.
Qed.

(** ** Miner template target *)

Lemma to_int64_small (x : Z) : Int.is_int64 x -> Int.to_int64 x = x.
Proof.
  unfold Int.is_int64, Int.min_int64, Int.max_int64, Int.to_int64,
    Int.two63, Int.two64.
  change (2 ^ 63) with 9223372036854775808.
  change (2 ^ 64) with 18446744073709551616.
  intros H. rewrite Z.mod_small by lia. lia.
Qed.

Lemma Int64_small (x : Z) : Int.is_int64 x -> Big.Int64 x = x.
Proof.
  intros H. unfold Big.Int64.
  assert (H' := H).
  unfold Int.is_int64, Int.min_int64, Int.max_int64, Int.two63 in H'.
  change (2 ^ 63) with 9223372036854775808 in H'.
  unfold Int.two64. change (2 ^ 64) with 18446744073709551616.
  destruct (Z.ltb_spec x 0) as [Hn|Hn].
  - rewrite Z.abs_neq by lia.
    destruct (Z.eq_dec x (-9223372036854775808)) as [->|Hne]; [reflexivity|].
    rewrite (Z.mod_small (- x)) by lia.
    rewrite (to_int64_small (- x)).
    + rewrite Z.opp_involutive. now apply to_int64_small.
    + unfold Int.is_int64, Int.min_int64, Int.max_int64, Int.two63.
      change (2 ^ 63) with 9223372036854775808. lia.
  - rewrite Z.abs_eq by lia.
    rewrite (Z.mod_small x) by lia.
    now apply to_int64_small.
Qed.

Lemma fixBits_bits (blk : Block) :
  exists bits, header.Bits (Header (fixBits blk)) = Some bits /\ bits <> 0.
Proof.
  unfold fixBits. destruct (header.Bits (Header blk)) as [b|] eqn:E.
  - destruct (Z.eqb_spec b 0) as [->|Hne].
    + exists 1000. split; [reflexivity|lia].
    + exists b. split; [exact E|exact Hne].
  - exists 1000. split; [reflexivity|lia].
Qed.

(** The header [HeaderByHeight] hands out never has a nil or zero
    target. *)
Lemma HeaderByHeight_bits (c c' : Chain) (height : Z) (hdr : header.Header) :
  HeaderByHeight c height = (Some hdr, c') ->
  exists bits, header.Bits hdr = Some bits /\ bits <> 0.
Proof.
  unfold HeaderByHeight. intros H.
  destruct (blocks c !! height) as [blk|].
  - injection H as <- _. apply fixBits_bits.
  - destruct (GetBlock (store c) height) as [blk|]; [|discriminate].
    injection H as <- _. apply fixBits_bits.
Qed.

(** C8 fails on the code.  An iteration of the miner reads its parent
    through [HeaderByHeight], so the parent target is never nil or
    zero.  The current target is the parent target read as a signed
    64-bit value, and it is replaced by the command-line target whenever
    that value is at or below zero: for a parent target within 64 bits,
    the miner falls back exactly when the parent target is negative and
    keeps every positive one.  The claim has it the other way round,
    the parent target kept when negative and replaced when it is zero or
    more. *)
Theorem parent_target_falls_back_when_negative
    (c c' : Chain) (parent : header.Header) (target : Z)
    (Hparent : HeaderByHeight c (head c) = (Some parent, c')) :
  exists bits,
    header.Bits parent = Some bits /\ bits <> 0 /\
    miner.parent_target (header.Bits parent) target
      = Some (if Big.Int64 bits <=? 0 then target else Big.Int64 bits) /\
    (Int.is_int64 bits ->
       miner.parent_target (header.Bits parent) target
         = Some (if bits <? 0 then target else bits)).
Proof.
  destruct (HeaderByHeight_bits c c' (head c) parent Hparent) as (bits & Hb & Hne).
  exists bits. split; [exact Hb|]. split; [exact Hne|].
  rewrite Hb. split; [reflexivity|].
  intros Hr. unfold miner.parent_target. rewrite (Int64_small _ Hr).
  destruct (Z.leb_spec bits 0); destruct (Z.ltb_spec bits 0); (reflexivity || lia).
Qed.

(** On a chain whose genesis target is -10^18, a miner started with the
    command-line target -5 mines against -5. *)
Lemma parent_target_falls_back_when_negative_witness :
  exists bits,
    header.Bits (Header genesis_block) = Some bits /\ bits <> 0 /\
    miner.parent_target (header.Bits (Header genesis_block)) (-5)
      = Some (if Big.Int64 bits <=? 0 then -5 else Big.Int64 bits) /\
    (Int.is_int64 bits ->
       miner.parent_target (header.Bits (Header genesis_block)) (-5)
         = Some (if bits <? 0 then -5 else bits)).
Proof.
  apply (parent_target_falls_back_when_negative genesis_chain
           (set_blocks genesis_chain (<[0 := genesis_block]> (blocks genesis_chain)))
           (Header genesis_block) (-5)).
  vm_compute. reflexivity.
Defined.

(** ** Block requests *)

(** C9 fails on the code.  The request for heights 1 to 1000 is capped
    to [To = From + 512], and the inclusive loop then serves the 513
    heights 1 to 513: the response carries 513 blocks. *)
Theorem handleBlockReq_serves_513 :
  net.cap (net.mkBlockRequest 1 1000) = net.mkBlockRequest 1 513 /\
  exists blocks,
    net.handleBlockReq 600 long_chain (net.mkBlockRequest 1 1000) = Done blocks /\
    length blocks = 513%nat.
Proof.
  split; [reflexivity|].
  eexists. split; [vm_compute; reflexivity|reflexivity].
Qed.

(** ** Procedural quiz *)

(** The generator: shape, and the end of the rejection loops. *)

Lemma land_le_r (a b : Z) : 0 <= b -> Z.land a b <= b.
Proof.
  intros Hb.
  assert (Hd : Z.land (Z.ldiff b a) (Z.land b a) = 0).
  { rewrite (Z.land_comm b a), Z.land_assoc, Z.land_ldiff. apply Z.land_0_l. }
  pose proof (Z.lor_ldiff_and b a) as Hl.
  rewrite <- (Z.lxor_lor _ _ Hd), <- (Z.add_nocarry_lxor _ _ Hd) in Hl.
  assert (0 <= Z.ldiff b a).
  { destruct (Z.lt_ge_cases (Z.ldiff b a) 0) as [Hneg|]; [|assumption].
    apply Z.ldiff_neg in Hneg. lia. }
  rewrite (Z.land_comm a b). lia.
Qed.

Lemma land_pred_range (v n : Z) : 0 <= v -> 0 < n -> 0 <= Z.land v (n - 1) < n.
Proof.
  intros Hv Hn. split.
  - apply Z.land_nonneg. now left.
  - assert (Z.land v (n - 1) <= n - 1); [|lia].
    apply land_le_r. lia.
Qed.

Lemma seed_fill_length (x : Z) (cooked : list Z) :
  length (rand.seed_fill x cooked) = length cooked.
Proof.
  revert x. induction cooked as [|c cooked IH]; intros x; cbn; [reflexivity|].
  now rewrite IH.
Qed.

Lemma valid_New (seed : Z) : rand.valid (rand.New seed).
Proof.
  unfold rand.valid, rand.New, rand.Seed. cbn [rand.vec rand.tap rand.feed].
  rewrite seed_fill_length. split; [reflexivity|]. split; [lia|reflexivity].
Qed.

Lemma gap_range (x : Z) : 0 < rand.gap x <= 2 ^ 63.
Proof. unfold rand.gap. pose proof (Z.mod_pos_bound x (2 ^ 63)). lia. Qed.


Lemma valid_Uint64 (r : rand.rngSource) : rand.valid r -> rand.valid (rand.Uint64 r).2.
Proof.
  intros (Hl & Ht & Hf). unfold rand.valid, rand.Uint64, rand.rngLen.
  cbn [snd rand.vec rand.tap rand.feed].
  rewrite length_insert. split; [exact Hl|].
  pose proof (Z.mod_pos_bound (rand.tap r + 334) 607 ltac:(lia)) as Hb.
  assert (Hcase : rand.tap r < 273 /\ rand.feed r = rand.tap r + 334 \/
                  273 <= rand.tap r /\ rand.feed r = rand.tap r - 273).
  { destruct (Z_lt_le_dec (rand.tap r) 273).
    - left. split; [lia|]. rewrite Hf. apply Z.mod_small. lia.
    - right. split; [lia|]. rewrite Hf.
      replace (rand.tap r + 334) with (rand.tap r - 273 + 1 * 607) by lia.
      rewrite Z.mod_add by lia. apply Z.mod_small. lia. }
  repeat match goal with |- context [?a <? ?b] => destruct (Z.ltb_spec a b) end;
    (split; [lia|]).
  all: destruct Hcase as [[? ?]|[? ?]]; try lia.
  all: symmetry.
  all: try (rewrite Z.mod_small by lia; lia).
  all: try (match goal with |- (?x) mod 607 = ?y =>
         replace x with (y + 1 * 607) by lia; rewrite Z.mod_add by lia;
         apply Z.mod_small; lia end).
Qed.

(** The positions that one draw reads and writes, by their distance from
    the feed pointer before the draw. *)
Lemma Uint64_positions (r : rand.rngSource) :
  rand.valid r ->
  let r' := (rand.Uint64 r).2 in
  rand.feed r' = (rand.feed r + 606) mod 607 /\
  rand.tap r' = (rand.feed r + 272) mod 607 /\
  rand.vec r' =
    <[Z.to_nat (rand.feed r') :=
        Int.to_int64 (rand.entry r (rand.feed r') + rand.entry r (rand.tap r'))]> (rand.vec r) /\
  (rand.Uint64 r).1 =
    Int.to_uint64 (Int.to_int64 (rand.entry r (rand.feed r') + rand.entry r (rand.tap r'))).
Proof.
  intros (Hl & Ht & Hf). cbv zeta.
  unfold rand.Uint64, rand.rngLen, rand.entry. cbn [fst snd rand.vec rand.tap rand.feed].
  pose proof (Z.mod_pos_bound (rand.tap r + 334) 607 ltac:(lia)) as Hb.
  assert (Hfeed : (if rand.feed r - 1 <? 0 then rand.feed r - 1 + 607 else rand.feed r - 1)
                  = (rand.feed r + 606) mod 607).
  { destruct (Z.ltb_spec (rand.feed r - 1) 0).
    - rewrite Z.mod_small by lia. lia.
    - replace (rand.feed r + 606) with (rand.feed r - 1 + 1 * 607) by lia.
      rewrite Z.mod_add by lia. rewrite Z.mod_small by lia. reflexivity. }
  assert (Htap : (if rand.tap r - 1 <? 0 then rand.tap r - 1 + 607 else rand.tap r - 1)
                  = (rand.feed r + 272) mod 607).
  { rewrite Hf. rewrite Zplus_mod_idemp_l.
    destruct (Z.ltb_spec (rand.tap r - 1) 0).
    - replace (rand.tap r + 334 + 272) with (rand.tap r + 606) by lia.
      rewrite Z.mod_small by lia. lia.
    - replace (rand.tap r + 334 + 272) with (rand.tap r - 1 + 1 * 607) by lia.
      rewrite Z.mod_add by lia. rewrite Z.mod_small by lia. reflexivity. }
  rewrite Hfeed, Htap. repeat split; reflexivity.
Qed.

Lemma to_int64_mod63 (y : Z) : Int.to_int64 y mod 2 ^ 63 = y mod 2 ^ 63.
Proof.
  unfold Int.to_int64, Int.two63, Int.two64.
  rewrite (Z.mod_eq (y + 2 ^ 63) (2 ^ 64)) by lia.
  replace (y + 2 ^ 63 - 2 ^ 64 * ((y + 2 ^ 63) / 2 ^ 64) - 2 ^ 63)
    with (y + (- 2 * ((y + 2 ^ 63) / 2 ^ 64)) * 2 ^ 63) by lia.
  apply Z.mod_add. lia.
Qed.

Lemma gap_add (a b : Z) :
  rand.gap a + rand.gap b <= 2 ^ 63 -> rand.gap (Int.to_int64 (a + b)) = rand.gap a + rand.gap b.
Proof.
  unfold rand.gap. intros H. rewrite to_int64_mod63, Zplus_mod.
  pose proof (Z.mod_pos_bound a (2 ^ 63) ltac:(lia)).
  pose proof (Z.mod_pos_bound b (2 ^ 63) ltac:(lia)).
  replace (a mod 2 ^ 63 + b mod 2 ^ 63)
    with (a mod 2 ^ 63 + b mod 2 ^ 63 - 2 ^ 63 + 1 * 2 ^ 63) by lia.
  rewrite Z.mod_add by lia. rewrite Z.mod_small by lia. lia.
Qed.

Lemma entry_written (r : rand.rngSource) (i : Z) (x : Z) :
  (Z.to_nat i < length (rand.vec r))%nat ->
  nth (Z.to_nat i) (<[Z.to_nat i := x]> (rand.vec r)) 0 = x.
Proof.
  intros H. rewrite nth_lookup, list_lookup_insert_eq by exact H. reflexivity.
Qed.

Lemma entry_kept (r : rand.rngSource) (i j : Z) (x : Z) :
  0 <= i -> 0 <= j -> i <> j ->
  nth (Z.to_nat i) (<[Z.to_nat j := x]> (rand.vec r)) 0 = rand.entry r i.
Proof.
  intros Hi Hj Hij. unfold rand.entry. rewrite !nth_lookup.
  rewrite list_lookup_insert_ne by lia. reflexivity.
Qed.

Lemma Int63_gap (r : rand.rngSource) :
  rand.valid r ->
  let r' := (rand.Int63 r).2 in
  r' = (rand.Uint64 r).2 /\
  (rand.Int63 r).1 = 2 ^ 63 - rand.gap (rand.entry r' (rand.feed r')).
Proof.
  intros Hv. cbv zeta.
  destruct (Uint64_positions r Hv) as (Hf & Ht & Hvec & Hu).
  unfold rand.Int63. destruct (rand.Uint64 r) as [u r'] eqn:E.
  cbn [fst snd] in *. split; [reflexivity|].
  assert (Hlen : (Z.to_nat (rand.feed r') < length (rand.vec r))%nat).
  { destruct Hv as (Hl & _ & _). rewrite Hl, Hf.
    pose proof (Z.mod_pos_bound (rand.feed r + 606) 607 ltac:(lia)). lia. }
  unfold rand.entry at 1. rewrite Hvec at 1. rewrite entry_written by exact Hlen.
  unfold rand.gap. rewrite to_int64_mod63. rewrite Hu.
  unfold rand.rngMask. change (2 ^ 63 - 1) with (Z.ones 63).
  rewrite Z.land_ones by lia. unfold Int.to_uint64, Int.two64.
  rewrite <- (to_int64_mod63 (rand.entry r (rand.feed r') + rand.entry r (rand.tap r'))).
  set (x := Int.to_int64 _).
  rewrite (Z.mod_eq x (2 ^ 64)) by lia.
  replace (x - 2 ^ 64 * (x / 2 ^ 64)) with (x + (- 2 * (x / 2 ^ 64)) * 2 ^ 63) by lia.
  rewrite Z.mod_add by lia. lia.
Qed.

Lemma run_start (E : Z) (r : rand.rngSource) : rand.valid r -> rand.run E 0 r.
Proof. intros Hv. split; [exact Hv|]. intros d Hd. lia. Qed.

(** One more rejected draw extends the run. *)
Lemma run_step (E k : Z) (r : rand.rngSource) :
  0 <= k -> E <= 2 ^ 62 -> rand.run E k r ->
  let r' := (rand.Uint64 r).2 in
  rand.gap (rand.entry r' (rand.feed r')) <= E ->
  rand.run E (k + 1) r'.
Proof.
  intros Hk HE [Hv Hrun] r' Hrej.
  destruct (Uint64_positions r Hv) as (Hf & Ht & Hvec & _). fold r' in Hf, Ht, Hvec.
  pose proof Hv as (Hl & Htap & Hfeed).
  assert (Hfr : 0 <= rand.feed r < 607).
  { rewrite Hfeed. apply Z.mod_pos_bound. lia. }
  assert (Hf' : 0 <= rand.feed r' < 607).
  { rewrite Hf. apply Z.mod_pos_bound. lia. }
  split; [apply valid_Uint64; exact Hv|].
  intros d Hd.
  destruct (Z.eq_dec d 0) as [->|Hd0].
  - rewrite Z.add_0_r, Z.mod_small by exact Hf'.
    split; [|exact Hrej].
    replace (k + 1 - 0 - 1) with k by lia.
    destruct (Z_lt_le_dec k 607) as [Hsmall|Hbig].
    + rewrite Z.div_small by lia. pose proof (gap_range (rand.entry r' (rand.feed r'))). 
      change (2 ^ 0) with 1. lia.
    + pose proof (Hrun 606 ltac:(lia)) as Ha.
      pose proof (Hrun 272 ltac:(lia)) as Hb.
      rewrite <- Hf in Ha. rewrite <- Ht in Hb.
      unfold rand.entry at 1. rewrite Hvec at 1.
      rewrite entry_written by (rewrite Hl; lia).
      rewrite gap_add by lia.
      replace (k - 606 - 1) with (k - 1 * 607) in Ha by lia.
      assert (Hq : (k - 1 * 607) / 607 = k / 607 - 1).
      { rewrite <- Z.add_opp_r, <- Z.mul_opp_l, Z.div_add by lia. lia. }
      rewrite Hq in Ha.
      assert (Hmono : 2 ^ (k / 607 - 1) <= 2 ^ ((k - 272 - 1) / 607)).
      { apply Z.pow_le_mono_r; [lia|].
        rewrite <- Hq. apply Z.div_le_mono; lia. }
      assert (Hpow : 2 ^ (k / 607) = 2 * 2 ^ (k / 607 - 1)).
      { rewrite <- Z.pow_succ_r.
        - f_equal. lia.
        - assert (1 <= k / 607); [|lia]. apply Z.div_le_lower_bound; lia. }
      lia.
  - assert (Hpos : (rand.feed r' + d) mod 607 = (rand.feed r + (d - 1)) mod 607).
    { rewrite Hf, Zplus_mod_idemp_l.
      replace (rand.feed r + 606 + d) with (rand.feed r + (d - 1) + 1 * 607) by lia.
      apply Z.mod_add. lia. }
    rewrite Hpos.
    assert (Hne : (rand.feed r + (d - 1)) mod 607 <> rand.feed r').
    { rewrite Hf.
      rewrite (Z.mod_eq (rand.feed r + (d - 1)) 607), (Z.mod_eq (rand.feed r + 606) 607) by lia.
      lia. }
    pose proof (Z.mod_pos_bound (rand.feed r + (d - 1)) 607 ltac:(lia)) as Hb.
    unfold rand.entry at 1 2. rewrite Hvec at 1 2.
    rewrite !entry_kept by lia.
    replace (k + 1 - d - 1) with (k - (d - 1) - 1) by lia.
    apply Hrun. lia.
Qed.

(** A rand.run of rejected draws is at most [607 * 63] long. *)
Lemma run_bounded (E k : Z) (r : rand.rngSource) :
  1 <= k -> E <= 2 ^ 62 -> rand.run E k r -> k <= 607 * 63.
Proof.
  intros Hk HE [_ Hrun].
  pose proof (Hrun 0 ltac:(lia)) as H.
  destruct (Z_le_gt_dec k (607 * 63)) as [|Hgt]; [assumption|exfalso].
  assert (Hq : 63 <= (k - 0 - 1) / 607) by (apply Z.div_le_lower_bound; lia).
  assert (2 ^ 63 <= 2 ^ ((k - 0 - 1) / 607)) by (apply Z.pow_le_mono_r; lia).
  lia.
Qed.

Lemma rem_half (a n : Z) : 0 < n <= a -> 2 * Int.rem a n <= a.
Proof.
  intros H. unfold Int.rem. rewrite Z.rem_mod_nonneg by lia.
  pose proof (Z.div_mod a n ltac:(lia)) as Hd.
  pose proof (Z.mod_pos_bound a n ltac:(lia)) as Hb.
  assert (1 <= a / n) by (apply Z.div_le_lower_bound; lia).
  nia.
Qed.

Lemma Int63_range (r : rand.rngSource) : 0 <= (rand.Int63 r).1 < 2 ^ 63.
Proof.
  unfold rand.Int63. destruct (rand.Uint64 r) as [u r']. cbn [fst].
  unfold rand.rngMask. change (2 ^ 63 - 1) with (Z.ones 63).
  rewrite Z.land_ones by lia. apply Z.mod_pos_bound. lia.
Qed.

Lemma Int31_range (r : rand.rngSource) : 0 <= (rand.Int31 r).1 < 2 ^ 31.
Proof.
  unfold rand.Int31. pose proof (Int63_range r) as H.
  destruct (rand.Int63 r) as [v r']. cbn [fst] in *.
  rewrite Z.shiftr_div_pow2 by lia. split.
  - apply Z.div_pos; lia.
  - apply Z.div_lt_upper_bound; lia.
Qed.

Lemma Int31_state (r : rand.rngSource) :
  (rand.Int31 r).2 = (rand.Uint64 r).2 /\
  (rand.Int31 r).1 = (rand.Int63 r).1 / 2 ^ 32.
Proof.
  unfold rand.Int31, rand.Int63. destruct (rand.Uint64 r) as [u r']. cbn [fst snd].
  split; [reflexivity|]. apply Z.shiftr_div_pow2. lia.
Qed.

Lemma Int63_state (r : rand.rngSource) : (rand.Int63 r).2 = (rand.Uint64 r).2.
Proof. unfold rand.Int63. now destruct (rand.Uint64 r). Qed.

(** A draw of [Int31] above [max] leaves an entry with a small gap. *)
Lemma Int31_rejected (r : rand.rngSource) (m : Z) :
  rand.valid r -> 2 ^ 31 - 1 - m < (rand.Int31 r).1 ->
  let r' := (rand.Uint64 r).2 in
  rand.gap (rand.entry r' (rand.feed r')) <= m * 2 ^ 32.
Proof.
  intros Hv Hlt r'. destruct (Int63_gap r Hv) as [Hs Hg].
  destruct (Int31_state r) as [_ H31]. rewrite H31 in Hlt.
  rewrite Hs in Hg. fold r' in Hg.
  pose proof (Z.mul_div_le ((rand.Int63 r).1) (2 ^ 32) ltac:(lia)) as Hd.
  rewrite Hg in Hd, Hlt. lia.
Qed.

Lemma Int63_rejected (r : rand.rngSource) (m : Z) :
  rand.valid r -> 2 ^ 63 - 1 - m < (rand.Int63 r).1 ->
  let r' := (rand.Uint64 r).2 in
  rand.gap (rand.entry r' (rand.feed r')) <= m.
Proof.
  intros Hv Hlt r'. destruct (Int63_gap r Hv) as [Hs Hg].
  rewrite Hs in Hg. fold r' in Hg. rewrite Hg in Hlt. lia.
Qed.

(** The loop [for v > max] ends by its test: it rejects at most
    [607 * 63] draws in a row, fewer than [retry_bound]. *)
Lemma retry_exits (E max : Z) (draw : rand.rngSource -> Z * rand.rngSource)
    (HE : E <= 2 ^ 62)
    (Hstate : forall r, (draw r).2 = (rand.Uint64 r).2)
    (Hrej : forall r, rand.valid r -> max < (draw r).1 ->
              rand.gap (rand.entry (rand.Uint64 r).2 (rand.feed (rand.Uint64 r).2)) <= E)
    (Hnn : forall r, 0 <= (draw r).1)
    (fuel : nat) :
  forall (k v : Z) (r : rand.rngSource),
    0 <= k -> rand.valid r -> 0 <= v ->
    (max < v -> 1 <= k /\ rand.run E k r) ->
    607 * 63 < k + Z.of_nat fuel ->
    exists v' r', rand.retry fuel draw max v r = Done (v', r') /\
                  0 <= v' <= max /\ rand.valid r'.
Proof.
  induction fuel as [|fuel IH]; intros k v r Hk Hv Hv0 Hrun Hfuel;
    cbn [rand.retry]; destruct (Z.ltb_spec max v) as [Hlt|Hle].
  - destruct (Hrun Hlt) as [Hk1 Hr].
    pose proof (run_bounded E k r Hk1 HE Hr). lia.
  - exists v, r. split; [reflexivity|]. split; [lia|exact Hv].
  - destruct (Hrun Hlt) as [Hk1 Hr].
    pose proof (Hstate r) as Hs. pose proof (Hrej r Hv) as Hj.
    pose proof (Hnn r) as Hn.
    destruct (draw r) as [v2 r2]. cbn [fst snd] in *. subst r2.
    apply (IH (k + 1)); try lia.
    + apply valid_Uint64. exact Hv.
    + intros Hlt2. split; [lia|].
      apply run_step; [lia|exact HE|exact Hr|]. apply Hj. exact Hlt2.
  - exists v, r. split; [reflexivity|]. split; [lia|exact Hv].
Qed.

(** The first draw of a call starts a run of length one. *)
Lemma retry_first (E max : Z) (draw : rand.rngSource -> Z * rand.rngSource)
    (HE : E <= 2 ^ 62)
    (Hstate : forall r, (draw r).2 = (rand.Uint64 r).2)
    (Hrej : forall r, rand.valid r -> max < (draw r).1 ->
              rand.gap (rand.entry (rand.Uint64 r).2 (rand.feed (rand.Uint64 r).2)) <= E)
    (Hnn : forall r, 0 <= (draw r).1)
    (r : rand.rngSource) :
  rand.valid r ->
  exists v' r', rand.retry rand.retry_bound draw max (draw r).1 (draw r).2 = Done (v', r') /\
                0 <= v' <= max /\ rand.valid r'.
Proof.
  intros Hv.
  apply (retry_exits E max draw HE Hstate Hrej Hnn rand.retry_bound 1).
  - lia.
  - rewrite Hstate. apply valid_Uint64. exact Hv.
  - apply Hnn.
  - intros Hlt. split; [lia|]. rewrite Hstate.
    apply (run_step E 0 r); [lia|exact HE|apply run_start; exact Hv|].
    apply Hrej; assumption.
  - unfold rand.retry_bound. lia.
Qed.

Lemma Int31n_ok (r : rand.rngSource) (n : Z) :
  rand.valid r -> 0 < n <= rand.int32max ->
  exists v r', rand.Int31n r n = Done (v, r') /\ 0 <= v < n /\ rand.valid r'.
Proof.
  intros Hv [Hn Hm]. unfold rand.int32max in Hm. unfold rand.Int31n.
  destruct (Z.land n (n - 1) =? 0).
  - pose proof (Int31_range r) as H. destruct (Int31_state r) as [Hs _].
    destruct (rand.Int31 r) as [v r']. cbn [fst snd] in *.
    exists (Z.land v (n - 1)), r'. split; [reflexivity|].
    split; [apply land_pred_range; lia|]. subst r'. apply valid_Uint64. exact Hv.
  - pose proof (rem_half (2 ^ 31) n ltac:(lia)) as Hhalf.
    destruct (retry_first (Int.rem (2 ^ 31) n * 2 ^ 32)
                (2 ^ 31 - 1 - Int.rem (2 ^ 31) n) rand.Int31) with (r := r)
      as (v' & r' & E & Hv' & Hr'); try assumption.
    + lia.
    + intros r0. apply Int31_state.
    + intros r0 Hr0 Hlt. apply Int31_rejected; assumption.
    + intros r0. apply Int31_range.
    + destruct (rand.Int31 r) as [v1 r1]. cbn [fst snd] in E. rewrite E. cbn [obind].
      exists (Int.rem v' n), r'. split; [reflexivity|]. split; [|exact Hr'].
      unfold Int.rem. apply Z.rem_bound_pos; lia.
Qed.

Lemma Int63n_ok (r : rand.rngSource) (n : Z) :
  rand.valid r -> 0 < n <= Int.max_int64 ->
  exists v r', rand.Int63n r n = Done (v, r') /\ 0 <= v < n /\ rand.valid r'.
Proof.
  intros Hv [Hn Hm]. unfold Int.max_int64, Int.two63 in Hm. unfold rand.Int63n.
  destruct (Z.land n (n - 1) =? 0).
  - pose proof (Int63_range r) as H. pose proof (Int63_state r) as Hs.
    destruct (rand.Int63 r) as [v r']. cbn [fst snd] in *.
    exists (Z.land v (n - 1)), r'. split; [reflexivity|].
    split; [apply land_pred_range; lia|]. subst r'. apply valid_Uint64. exact Hv.
  - pose proof (rem_half (2 ^ 63) n ltac:(lia)) as Hhalf.
    destruct (retry_first (Int.rem (2 ^ 63) n)
                (2 ^ 63 - 1 - Int.rem (2 ^ 63) n) rand.Int63) with (r := r)
      as (v' & r' & E & Hv' & Hr'); try assumption.
    + lia.
    + intros r0. apply Int63_state.
    + intros r0 Hr0 Hlt. apply Int63_rejected; assumption.
    + intros r0. apply Int63_range.
    + destruct (rand.Int63 r) as [v1 r1]. cbn [fst snd] in E. rewrite E. cbn [obind].
      exists (Int.rem v' n), r'. split; [reflexivity|]. split; [|exact Hr'].
      unfold Int.rem. apply Z.rem_bound_pos; lia.
Qed.

(** [Intn] returns, with a value in [0, n). *)
Lemma Intn_ok (r : rand.rngSource) (n : Z) :
  rand.valid r -> 0 < n <= Int.max_int64 ->
  exists v r', rand.Intn r n = Done (v, r') /\ 0 <= v < n /\ rand.valid r'.
Proof.
  intros Hv [Hn Hm]. unfold rand.Intn.
  destruct (Z.leb_spec n 0); [lia|].
  destruct (Z.leb_spec n rand.int32max).
  - apply Int31n_ok; [exact Hv|lia].
  - apply Int63n_ok; [exact Hv|lia].
Qed.

Ltac draw r n v r' Hv :=
  let E := fresh "E" in
  let Hr := fresh "Hvalid" in
  destruct (Intn_ok r n) as (v & r' & E & Hv & Hr);
  [assumption | unfold Int.max_int64, Int.two63; lia | rewrite E; cbn [obind]].

Lemma question_template (qRng : rand.rngSource) :
  rand.valid qRng ->
  exists q, dataset.question qRng = Done q /\ quiz_template q.
Proof.
  intros Hvalid0. unfold dataset.question.
  draw qRng 4 t r1 Ht.
  destruct (Z.eqb_spec t 0) as [->|H0].
  { draw r1 1000 x r2 Hx. draw r2 1000 y r3 Hy.
    eexists; split; [reflexivity|]. left. exists (1 + x), (1 + y).
    repeat split; lia. }
  destruct (Z.eqb_spec t 1) as [->|H1].
  { draw r1 50 x r2 Hx. draw r2 50 y r3 Hy.
    eexists; split; [reflexivity|]. right; left. exists (1 + x), (1 + y).
    repeat split; lia. }
  destruct (Z.eqb_spec t 2) as [->|H2].
  { draw r1 10 x r2 Hx. draw r2 5 y r3 Hy.
    eexists; split; [reflexivity|]. right; right; left. exists (1 + x), (1 + y).
    repeat split; lia. }
  destruct (Z.eqb_spec t 3) as [->|H3]; [|lia].
  change (Z.of_nat (length dataset.items)) with 5.
  draw r1 5 idx r2 Hi.
  eexists; split; [reflexivity|]. right; right; right.
  exists (nth (Z.to_nat idx) dataset.items ""%string). split; [|reflexivity].
  apply nth_In. cbn. lia.
Qed.

Lemma questions_spec (seed nonce : Z) (n : nat) (i0 : Z) :
  exists qs, dataset.questions seed nonce i0 n = Done qs /\
    length qs = n /\
    forall i, (i < n)%nat ->
      exists q, qs !! i = Some q /\
        dataset.question (rand.New (dataset.questionSeed seed nonce (i0 + Z.of_nat i))) = Done q.
Proof.
  revert i0. induction n as [|n IH]; intros i0; cbn [dataset.questions].
  - exists []. split; [reflexivity|]. split; [reflexivity|]. intros i Hi. lia.
  - destruct (question_template (rand.New (dataset.questionSeed seed nonce i0))
                (valid_New _)) as (q & Hq & _).
    rewrite Hq. cbn [obind].
    destruct (IH (i0 + 1)) as (qs & Hqs & Hlen & Hnth).
    rewrite Hqs. cbn [obind].
    exists (q :: qs). split; [reflexivity|]. split; [cbn; now rewrite Hlen|].
    intros [|i] Hi.
    + exists q. split; [reflexivity|]. now rewrite Z.add_0_r.
    + destruct (Hnth i ltac:(lia)) as (q' & Hq' & Hd).
      exists q'. split; [exact Hq'|].
      replace (i0 + Z.of_nat (S i)) with (i0 + 1 + Z.of_nat i) by lia. exact Hd.
Qed.

Lemma to_int64_idem (x : Z) : Int.to_int64 (Int.to_int64 x) = Int.to_int64 x.
Proof.
  unfold Int.to_int64, Int.two63, Int.two64.
  replace (((x + 2 ^ 63) mod 2 ^ 64 - 2 ^ 63 + 2 ^ 63)) with ((x + 2 ^ 63) mod 2 ^ 64) by lia.
  now rewrite Z.mod_mod by lia.
Qed.

Lemma to_int64_add_l (x y : Z) :
  Int.to_int64 (Int.to_int64 x + y) = Int.to_int64 (x + y).
Proof.
  unfold Int.to_int64, Int.two63, Int.two64.
  f_equal.
  replace ((x + 2 ^ 63) mod 2 ^ 64 - 2 ^ 63 + y + 2 ^ 63)
    with ((x + 2 ^ 63) mod 2 ^ 64 + y) by lia.
  rewrite Zplus_mod_idemp_l. f_equal. lia.
Qed.

Lemma to_int64_add_r (x y : Z) :
  Int.to_int64 (x + Int.to_int64 y) = Int.to_int64 (x + y).
Proof. rewrite Z.add_comm, to_int64_add_l. f_equal. lia. Qed.

Lemma seed_wrap (h n : Z) :
  Int.to_int64 (Int.to_int64 h + Int.to_int64 n) = Int.to_int64 (h + n).
Proof. now rewrite to_int64_add_l, to_int64_add_r. Qed.

Lemma questionSeed_wrap (seed nonce i : Z) : 0 <= nonce ->
  dataset.questionSeed (Int.to_int64 seed) nonce i
  = Int.to_int64 (Int.to_int64 seed + i * 1000 + nonce mod 10000).
Proof.
  intros Hn. unfold dataset.questionSeed, Int.rem.
  rewrite Z.rem_mod_nonneg by lia.
  rewrite to_int64_add_l, to_int64_add_r.
  replace (Int.to_int64 seed + Int.to_int64 (i * 1000) + nonce mod 10000)
    with (Int.to_int64 (i * 1000) + (Int.to_int64 seed + nonce mod 10000)) by lia.
  rewrite to_int64_add_l. f_equal. lia.
Qed.

Lemma ProceduralQuiz_general (height nonce : Z) :
  Int.is_uint64 height -> Int.is_uint64 nonce ->
  let seed0 := Int.to_int64 (height + nonce) in
  exists (r : Z) (rng' : rand.rngSource) (qs : list string),
    rand.Intn (rand.New seed0) 3 = Done (r, rng') /\
    dataset.ProceduralQuiz height nonce = Done qs /\
    Z.of_nat (length qs) = 3 + r mod 3 /\
    3 <= Z.of_nat (length qs) <= 5 /\
    (forall i, (i < length qs)%nat ->
       exists q, qs !! i = Some q /\
         dataset.question
           (rand.New (Int.to_int64 (seed0 + Z.of_nat i * 1000 + nonce mod 10000)))
           = Done q /\
         quiz_template q).
Proof.
  intros Hh Hn seed0. unfold dataset.ProceduralQuiz.
  rewrite seed_wrap. fold seed0.
  destruct (Intn_ok (rand.New seed0) 3 (valid_New _)) as (r & rng' & E & Hr & _);
    [unfold Int.max_int64, Int.two63; lia|].
  rewrite E. cbn [obind].
  destruct (questions_spec seed0 nonce (Z.to_nat (3 + r)) 0) as (qs & Hqs & Hlen & Hnth).
  exists r, rng', qs. split; [reflexivity|]. split; [exact Hqs|].
  rewrite Hlen, Z.mod_small by lia. split; [lia|]. split; [lia|].
  intros i Hi. destruct (Hnth i Hi) as (q & Hq & Hd).
  exists q. split; [exact Hq|].
  subst seed0.
  rewrite questionSeed_wrap in Hd by (unfold Int.is_uint64 in Hn; lia).
  rewrite Z.add_0_l in Hd.
  split; [exact Hd|].
  match type of Hd with dataset.question ?g = _ =>
    destruct (question_template g (valid_New _)) as (q' & Hq' & Ht) end.
  congruence.
Qed.


(** C3.  [ProceduralQuiz] is a function of [(height, nonce)] alone: it
    has one result.  With [seed0 = height + nonce] wrapped to a signed
    64-bit value, a generator seeded with [seed0] draws [r], and the
    result has [N = 3 + (r mod 3)] questions, [3 <= N <= 5]; question
    [i] is the one rendered from a generator seeded afresh with
    [seed0 + i * 1000 + (nonce mod 10000)] (wrapped), and is an instance
    of one of the four templates.  The quizzes of [(42, 7)] and
    [(42, 8)] are the two lists below; they differ in their first
    element. *)
Theorem ProceduralQuiz_spec (height nonce : Z)
    (Hheight : Int.is_uint64 height) (Hnonce : Int.is_uint64 nonce) :
  let seed0 := Int.to_int64 (height + nonce) in
  (exists (r : Z) (rng' : rand.rngSource) (qs : list string),
     rand.Intn (rand.New seed0) 3 = Done (r, rng') /\
     dataset.ProceduralQuiz height nonce = Done qs /\
     (forall qs', dataset.ProceduralQuiz height nonce = Done qs' -> qs' = qs) /\
     Z.of_nat (length qs) = 3 + r mod 3 /\
     3 <= Z.of_nat (length qs) <= 5 /\
     (forall i, (i < length qs)%nat ->
        exists q, qs !! i = Some q /\
          dataset.question
            (rand.New (Int.to_int64 (seed0 + Z.of_nat i * 1000 + nonce mod 10000)))
            = Done q /\
          quiz_template q)) /\
  dataset.ProceduralQuiz 42 7 = Done quiz_42_7 /\
  dataset.ProceduralQuiz 42 8 = Done quiz_42_8 /\
  quiz_42_7 !! 0%nat <> quiz_42_8 !! 0%nat.
Proof.
  cbv zeta. split.
  - destruct (ProceduralQuiz_general height nonce Hheight Hnonce)
      as (r & rng' & qs & Hr & Hq & Hlen & Hrange & Hnth).
    exists r, rng', qs. repeat split; try assumption; try lia.
    intros qs' Hq'. congruence.
  - split; [vm_compute; reflexivity|].
    split; [vm_compute; reflexivity|]. discriminate.
Qed.

Lemma ProceduralQuiz_spec_witness :
  let seed0 := Int.to_int64 (42 + 7) in
  (exists (r : Z) (rng' : rand.rngSource) (qs : list string),
     rand.Intn (rand.New seed0) 3 = Done (r, rng') /\
     dataset.ProceduralQuiz 42 7 = Done qs /\
     (forall qs', dataset.ProceduralQuiz 42 7 = Done qs' -> qs' = qs) /\
     Z.of_nat (length qs) = 3 + r mod 3 /\
     3 <= Z.of_nat (length qs) <= 5 /\
     (forall i, (i < length qs)%nat ->
        exists q, qs !! i = Some q /\
          dataset.question
            (rand.New (Int.to_int64 (seed0 + Z.of_nat i * 1000 + 7 mod 10000)))
            = Done q /\
          quiz_template q)) /\
  dataset.ProceduralQuiz 42 7 = Done quiz_42_7 /\
  dataset.ProceduralQuiz 42 8 = Done quiz_42_8 /\
  quiz_42_7 !! 0%nat <> quiz_42_8 !! 0%nat.
Proof.
  apply (ProceduralQuiz_spec 42 7).
  - unfold Int.is_uint64, Int.two64. lia.
  - unfold Int.is_uint64, Int.two64. lia.
Defined.

(** ** Validator *)

Lemma lor_shiftl_add (a b k : Z) :
  0 <= k -> 0 <= a < 2 ^ k -> Z.lor a (Z.shiftl b k) = a + b * 2 ^ k.
Proof.
  intros Hk Ha.
  assert (Hd : Z.land a (Z.shiftl b k) = 0).
  { apply Z.bits_inj'. intros n Hn.
    rewrite Z.land_spec, Z.bits_0.
    destruct (Z.lt_ge_cases n k) as [Hlt|Hge].
    - rewrite Z.shiftl_spec_low by assumption. apply andb_false_r.
    - rewrite <- (Z.mod_small a (2 ^ k)) by assumption.
      rewrite Z.mod_pow2_bits_high by lia. reflexivity. }
  rewrite <- (Z.lxor_lor _ _ Hd), <- (Z.add_nocarry_lxor _ _ Hd).
  now rewrite Z.shiftl_mul_pow2.
Qed.

Lemma le_combine_le_bytes (n : nat) (v : Z) :
  Keccak.le_combine (le_bytes n v) = v mod 2 ^ (8 * Z.of_nat n).
Proof.
  revert v. induction n as [|n IH]; intros v.
  - cbn. now rewrite Z.mod_1_r.
  - cbn [le_bytes Keccak.le_combine]. rewrite IH.
    rewrite lor_shiftl_add by (try apply Z.mod_pos_bound; lia).
    replace (8 * Z.of_nat (S n)) with (8 + 8 * Z.of_nat n) by lia.
    rewrite Z.pow_add_r by lia.
    change (2 ^ 8) with 256.
    rewrite (Z.rem_mul_r v 256 (2 ^ (8 * Z.of_nat n))) by (try apply Z.pow_nonzero; lia).
    lia.
Qed.

Lemma Uint64_le_combine (b0 b1 b2 b3 b4 b5 b6 b7 : Z) (rest : list Z) :
  LittleEndian.Uint64 (b0 :: b1 :: b2 :: b3 :: b4 :: b5 :: b6 :: b7 :: rest)
  = Some (Keccak.le_combine [b0; b1; b2; b3; b4; b5; b6; b7]).
Proof.
  unfold LittleEndian.Uint64. f_equal. cbn [Keccak.le_combine].
  rewrite Z.shiftl_0_l, Z.lor_0_r.
  rewrite !Z.shiftl_lor, !Z.shiftl_shiftl by lia.
  reflexivity.
Qed.

Lemma Uint64_PutUint64 (v : Z) :
  LittleEndian.Uint64 (LittleEndian.PutUint64 v) = Some (v mod 2 ^ 64).
Proof.
  unfold LittleEndian.PutUint64. rewrite Uint64_le_combine.
  f_equal. fold (LittleEndian.PutUint64 v).
  rewrite PutUint64_le_bytes. apply (le_combine_le_bytes 8).
Qed.

Lemma to_int64_mod (v : Z) : Int.to_int64 (v mod 2 ^ 64) = Int.to_int64 v.
Proof.
  unfold Int.to_int64, Int.two64. now rewrite Zplus_mod_idemp_l.
Qed.

Lemma llm_seed_height (height : Z) :
  validator.llm_seed height = Done (Int.to_int64 height).
Proof.
  unfold validator.llm_seed. rewrite Uint64_PutUint64. now rewrite to_int64_mod.
Qed.

(** SHA-256 digests have 32 bytes. *)
Lemma step_length (s : list Z) (kw : Z * Z) : length (Sha256.step s kw) = length s.
Proof.
  unfold Sha256.step.
  do 9 (destruct s as [|? s]; try reflexivity).
Qed.

Lemma fold_step_length (l : list (Z * Z)) (s : list Z) :
  length (fold_left Sha256.step l s) = length s.
Proof.
  revert s. induction l as [|kw l IH]; intros s; cbn; [reflexivity|].
  now rewrite IH, step_length.
Qed.

Lemma compress_length (h block : list Z) :
  length (Sha256.compress h block) = length h.
Proof.
  unfold Sha256.compress. rewrite length_map, length_combine, fold_step_length. lia.
Qed.

Lemma blocks_length (n : nat) (bs h : list Z) :
  length (Sha256.blocks n bs h) = length h.
Proof.
  revert bs h. induction n as [|n IH]; intros bs h; cbn; [reflexivity|].
  now rewrite IH, compress_length.
Qed.

Lemma be_bytes_length (n : nat) (v : Z) : length (Sha256.be_bytes n v) = n.
Proof.
  revert v. induction n as [|n IH]; intros v; cbn; [reflexivity|].
  rewrite length_app, IH. cbn. lia.
Qed.

Lemma Sum256_length (msg : list Z) : length (Sha256.Sum256 msg) = 32%nat.
Proof.
  unfold Sha256.Sum256.
  set (hs := Sha256.blocks _ _ _).
  assert (Hl : length hs = 8%nat) by (unfold hs; now rewrite blocks_length).
  do 8 (destruct hs as [|? hs]; [discriminate|]). destruct hs; [|discriminate].
  cbn [map concat]. rewrite !length_app, !be_bytes_length. reflexivity.
Qed.

Lemma loss_of_output_le (output : string) :
  validator.loss_of_output output =
  Done (Int.to_int64
          (Keccak.le_combine (take 8 (Sha256.Sum256 (bytes_of_string output))))).
Proof.
  unfold validator.loss_of_output.
  pose proof (Sum256_length (bytes_of_string output)) as Hl.
  destruct (Sha256.Sum256 (bytes_of_string output)) as [|b0 [|b1 [|b2 [|b3 [|b4 [|b5 [|b6 [|b7 rest]]]]]]]];
    try discriminate.
  cbn [take]. rewrite Uint64_le_combine. reflexivity.
Qed.

Lemma obind_Done {A B : Type} (a : A) (f : A -> Outcome B) : obind (Done a) f = f a.
Proof. reflexivity. Qed.

Lemma append_newline_nonempty (a b : string) :
  (a ++ b ++ validator.newline)%string <> ""%string.
Proof. destruct a, b; discriminate. Qed.

Lemma fold_prompt_nonempty (qs : list string) (acc : string) :
  acc <> ""%string ->
  fold_left (fun prompt quiz => (prompt ++ quiz ++ validator.newline)%string) qs acc
    <> ""%string.
Proof.
  revert acc. induction qs as [|q qs IH]; intros acc Hacc; cbn; [exact Hacc|].
  apply IH. apply append_newline_nonempty.
Qed.

Lemma make_prompt_nonempty (qs : list string) :
  qs <> [] -> String.eqb (validator.make_prompt qs) "" = false.
Proof.
  intros Hqs. apply String.eqb_neq. unfold validator.make_prompt.
  destruct qs as [|q qs]; [congruence|]. cbn [fold_left].
  apply fold_prompt_nonempty, append_newline_nonempty.
Qed.

Lemma Verify_coinbase (cr : Crypto) (tx : Transaction) :
  From tx = [] -> Verify cr tx = None.
Proof. intros H. unfold Verify. now rewrite H. Qed.

Lemma verify_transactions_first (cr : Crypto) (txs : list Transaction) (k i : nat)
    (tx : Transaction) (e : TxError) :
  txs !! i = Some tx -> Verify cr tx = Some e ->
  (forall j tx', (j < i)%nat -> txs !! j = Some tx' -> Verify cr tx' = None) ->
  validator.verify_transactions cr k txs = Some ((k + i)%nat, e).
Proof.
  revert k i. induction txs as [|t txs IH]; intros k i Hi He Hbefore; [discriminate|].
  destruct i as [|i]; cbn in Hi.
  - injection Hi as ->. cbn. rewrite He. do 2 f_equal. lia.
  - cbn. rewrite (Hbefore 0%nat t) by (try reflexivity; lia).
    rewrite (IH (S k) i Hi He).
    + do 2 f_equal. lia.
    + intros j tx' Hj Hl. apply (Hbefore (S j) tx'); [lia|exact Hl].
Qed.

Lemma verify_transactions_all (cr : Crypto) (txs : list Transaction) (k : nat) :
  (forall tx, In tx txs -> Verify cr tx = None) ->
  validator.verify_transactions cr k txs = None.
Proof.
  revert k. induction txs as [|t txs IH]; intros k H; cbn; [reflexivity|].
  rewrite (H t) by now left. apply IH. intros tx Hin. apply H. now right.
Qed.

Lemma replayed_loss_inv (llm : inference.LLM) (b : Block) (loss : Z) :
  replayed_loss llm b = Some loss ->
  exists qs output,
    dataset.ProceduralQuiz (header.Height (Header b)) (header.Nonce (Header b)) = Done qs /\
    inference.Infer llm (validator.make_prompt qs)
                    (Int.to_int64 (header.Height (Header b))) = Some output /\
    loss = Int.to_int64
             (Keccak.le_combine (take 8 (Sha256.Sum256 (bytes_of_string output)))).
Proof.
  unfold replayed_loss.
  destruct (dataset.ProceduralQuiz (header.Height (Header b)) (header.Nonce (Header b)))
    as [qs| |] eqn:Eq; try discriminate.
  destruct (inference.Infer llm (validator.make_prompt qs)
              (Int.to_int64 (header.Height (Header b)))) as [output|] eqn:Eo;
    try discriminate.
  intros [= <-]. exists qs, output. repeat split; [exact Eo].
Qed.

(** The result of [VerifyBlock] once the engine is loaded, the
    signatures hold, and the replay gives [loss]. *)
Lemma VerifyBlock_replay
    (NewLLM : string -> Z -> option inference.LLM) (cr : Crypto)
    (b : Block) (modelPath : string) (gpuLayers : Z)
    (llm : inference.LLM) (loss bits : Z) :
  Int.is_uint64 (header.Height (Header b)) ->
  Int.is_uint64 (header.Nonce (Header b)) ->
  NewLLM modelPath gpuLayers = Some llm ->
  (forall tx, In tx (Transactions b) -> Verify cr tx = None) ->
  replayed_loss llm b = Some loss ->
  header.Bits (Header b) = Some bits ->
  validator.VerifyBlock NewLLM cr b modelPath gpuLayers =
    if negb (loss =? header.Lhat (Header b))
    then Done (Some (validator.ErrInvalidLoss loss (header.Lhat (Header b))))
    else if Big.Int64 bits <? loss
         then Done (Some (validator.ErrTargetNotMet loss (Big.Int64 bits)))
         else Done None.
Proof.
  intros Hh Hn Hllm Htx Hloss Hbits.
  destruct (replayed_loss_inv _ _ _ Hloss) as (qs & output & Hq & Ho & ->).
  destruct (ProceduralQuiz_general _ _ Hh Hn) as (r & rng' & qs' & _ & Hq' & Hlen & Hrange & _).
  assert (qs' = qs) by congruence. subst qs'.
  unfold validator.VerifyBlock. rewrite Hllm, (verify_transactions_all _ _ _ Htx).
  rewrite Hq. rewrite obind_Done.
  rewrite make_prompt_nonempty by (intros ->; cbn in Hrange; lia).
  rewrite llm_seed_height. rewrite obind_Done.
  rewrite Ho.
  rewrite loss_of_output_le. rewrite obind_Done.
  rewrite Hbits. reflexivity.
Qed.

(** C2 as stated fails, in two ways.  The target is compared through
    [Int64]: with a target of 2^63 the claimed loss is the replayed one
    and does not exceed the target, yet the block is refused, the target
    having been read as -2^63.  And a replayed loss that exceeds the
    target fails with the loss error, not the target one, when it also
    differs from the claimed loss. *)
Lemma VerifyBlock_target_read_as_int64 :
  let loss := -1276699977615973386 in
  replayed_loss (inference.mkLLM inference.stub_Infer) (replay_block loss (2 ^ 63))
    = Some loss /\
  ~ (2 ^ 63 < loss) /\
  validator.VerifyBlock inference.stub_NewLLM no_recovery
      (replay_block loss (2 ^ 63)) "" 0
    = Done (Some (validator.ErrTargetNotMet loss (- 2 ^ 63))) /\
  -2000000000000000000 < loss /\
  validator.VerifyBlock inference.stub_NewLLM no_recovery
      (replay_block 0 (-2000000000000000000)) "" 0
    = Done (Some (validator.ErrInvalidLoss loss 0)).
Proof.
  cbv zeta. split; [vm_compute; reflexivity|].
  split; [intros H; vm_compute in H; discriminate|].
  split; [vm_compute; reflexivity|].
  split; [reflexivity|]. vm_compute; reflexivity.
Qed.

(** C2, amended.  Once the engine is loaded, [VerifyBlock] first checks
    every transaction signature in order, a coinbase (empty sender)
    passing unchecked, and fails at the first invalid one.  When all
    pass and the replay of the quiz of [(height, nonce)] gives [loss],
    it fails with the loss error exactly when [loss] differs from the
    claimed loss; it fails with the target error exactly when [loss]
    equals the claimed loss and exceeds the target read as a signed
    64-bit value ([Int64], the target itself when it fits); otherwise it
    accepts. *)
Theorem VerifyBlock_spec
    (NewLLM : string -> Z -> option inference.LLM) (cr : Crypto)
    (b : Block) (modelPath : string) (gpuLayers : Z) (llm : inference.LLM)
    (Hheight : Int.is_uint64 (header.Height (Header b)))
    (Hnonce : Int.is_uint64 (header.Nonce (Header b)))
    (Hllm : NewLLM modelPath gpuLayers = Some llm) :
  let r := validator.VerifyBlock NewLLM cr b modelPath gpuLayers in
  (forall tx, From tx = [] -> Verify cr tx = None) /\
  (forall i tx e,
      Transactions b !! i = Some tx -> Verify cr tx = Some e ->
      (forall j tx', (j < i)%nat -> Transactions b !! j = Some tx' ->
                     Verify cr tx' = None) ->
      r = Done (Some (validator.ErrTransaction i e))) /\
  (forall loss bits,
      (forall tx, In tx (Transactions b) -> Verify cr tx = None) ->
      replayed_loss llm b = Some loss ->
      header.Bits (Header b) = Some bits ->
      ((exists got expected, r = Done (Some (validator.ErrInvalidLoss got expected)))
         <-> loss <> header.Lhat (Header b)) /\
      ((exists l t, r = Done (Some (validator.ErrTargetNotMet l t)))
         <-> loss = header.Lhat (Header b) /\ Big.Int64 bits < loss) /\
      (r = Done None
         <-> loss = header.Lhat (Header b) /\ loss <= Big.Int64 bits)).
Proof.
  cbv zeta. split; [apply Verify_coinbase|]. split.
  - intros i tx e Hi He Hbefore.
    unfold validator.VerifyBlock. rewrite Hllm.
    now rewrite (verify_transactions_first cr _ 0 i tx e Hi He Hbefore).
  - intros loss bits Htx Hloss Hbits.
    rewrite (VerifyBlock_replay NewLLM cr b modelPath gpuLayers llm loss bits
               Hheight Hnonce Hllm Htx Hloss Hbits).
    destruct (Z.eqb_spec loss (header.Lhat (Header b))) as [Heq|Hne]; cbn [negb].
    + destruct (Z.ltb_spec (Big.Int64 bits) loss) as [Hlt|Hge].
      * split; [|split].
        -- split; [intros (g & e & H); discriminate | intros H; contradiction].
        -- split; [intros _; split; assumption | intros _; eauto].
        -- split; [intros H; discriminate | intros [_ H]; lia].
      * split; [|split].
        -- split; [intros (g & e & H); discriminate | intros H; contradiction].
        -- split; [intros (l & t & H); discriminate | intros [_ H]; lia].
        -- split; [intros _; split; assumption | reflexivity].
    + split; [|split].
      * split; [intros _; assumption | intros _; eauto].
      * split; [intros (l & t & H); discriminate | intros [H _]; contradiction].
      * split; [intros H; discriminate | intros [H _]; contradiction].
Qed.

Lemma VerifyBlock_spec_witness :
  let b := replay_block (-1276699977615973386) (-1000000000000000000) in
  let r := validator.VerifyBlock inference.stub_NewLLM no_recovery b "" 0 in
  (forall tx, From tx = [] -> Verify no_recovery tx = None) /\
  (forall i tx e,
      Transactions b !! i = Some tx -> Verify no_recovery tx = Some e ->
      (forall j tx', (j < i)%nat -> Transactions b !! j = Some tx' ->
                     Verify no_recovery tx' = None) ->
      r = Done (Some (validator.ErrTransaction i e))) /\
  (forall loss bits,
      (forall tx, In tx (Transactions b) -> Verify no_recovery tx = None) ->
      replayed_loss (inference.mkLLM inference.stub_Infer) b = Some loss ->
      header.Bits (Header b) = Some bits ->
      ((exists got expected, r = Done (Some (validator.ErrInvalidLoss got expected)))
         <-> loss <> header.Lhat (Header b)) /\
      ((exists l t, r = Done (Some (validator.ErrTargetNotMet l t)))
         <-> loss = header.Lhat (Header b) /\ Big.Int64 bits < loss) /\
      (r = Done None
         <-> loss = header.Lhat (Header b) /\ loss <= Big.Int64 bits)).
Proof.
  apply (VerifyBlock_spec inference.stub_NewLLM no_recovery
           (replay_block (-1276699977615973386) (-1000000000000000000)) "" 0
           (inference.mkLLM inference.stub_Infer)).
  - unfold Int.is_uint64, Int.two64. cbn. lia.
  - unfold Int.is_uint64, Int.two64. cbn. lia.
  - reflexivity.
Defined.

(** ** Chain manager *)

Lemma persist_blocks (c : Chain) (h : Z) (b : Block) :
  blocks (persist c h b) = blocks c /\ head (persist c h b) = head c /\
  sideBranches (persist c h b) = sideBranches c /\
  blockHashIndex (persist c h b) = blockHashIndex c /\
  OrphanPool (persist c h b) = OrphanPool c.
Proof. unfold persist. destruct (PutBlock _ _ _); repeat split; reflexivity. Qed.

Lemma applyBranchBlock_head (c : Chain) (blk : Block) :
  head (applyBranchBlock c blk) = header.Height (Header blk).
Proof. unfold applyBranchBlock. now rewrite (proj1 (proj2 (persist_blocks _ _ _))). Qed.

Lemma applyBranchBlock_blocks (c : Chain) (blk : Block) :
  blocks (applyBranchBlock c blk) = <[header.Height (Header blk) := blk]> (blocks c).
Proof. unfold applyBranchBlock. now rewrite (proj1 (persist_blocks _ _ _)). Qed.

Lemma applyBranchBlock_sideBranches (c : Chain) (blk : Block) :
  sideBranches (applyBranchBlock c blk) = sideBranches c.
Proof.
  unfold applyBranchBlock.
  now rewrite (proj1 (proj2 (proj2 (persist_blocks _ _ _)))).
Qed.

Lemma fold_apply_sideBranches (branch : list Block) (c : Chain) :
  sideBranches (fold_left applyBranchBlock branch c) = sideBranches c.
Proof.
  revert c. induction branch as [|b branch IH]; intros c; cbn; [reflexivity|].
  now rewrite IH, applyBranchBlock_sideBranches.
Qed.

Lemma fold_apply_head (branch : list Block) (c : Chain) (tip : Block) :
  last branch = Some tip ->
  head (fold_left applyBranchBlock branch c) = header.Height (Header tip).
Proof.
  revert c. induction branch as [|b branch IH]; intros c Hl; [discriminate|].
  destruct branch as [|b' branch].
  - cbn in Hl. injection Hl as <-. cbn. apply applyBranchBlock_head.
  - cbn [fold_left]. apply IH. exact Hl.
Qed.

(** A height that no block of the branch carries keeps its block. *)
Lemma fold_apply_other (branch : list Block) (c : Chain) (h : Z) :
  (forall b, In b branch -> header.Height (Header b) <> h) ->
  blocks (fold_left applyBranchBlock branch c) !! h = blocks c !! h.
Proof.
  revert c. induction branch as [|b branch IH]; intros c Hn; cbn; [reflexivity|].
  rewrite IH by (intros b' Hb'; apply Hn; now right).
  rewrite applyBranchBlock_blocks. apply lookup_insert_ne. apply Hn. now left.
Qed.

Lemma fold_apply_consecutive (branch : list Block) (c : Chain) (h0 : Z) :
  branch_from h0 branch ->
  forall (i : nat) (b : Block), branch !! i = Some b ->
    blocks (fold_left applyBranchBlock branch c) !! (h0 + Z.of_nat i) = Some b.
Proof.
  revert c h0. induction branch as [|b0 branch IH]; intros c h0 Hfrom i b Hi;
    [discriminate|].
  assert (Hfrom' : branch_from (h0 + 1) branch).
  { intros j bj Hj. rewrite (Hfrom (S j) bj Hj). lia. }
  destruct i as [|i]; cbn [fold_left].
  - cbn in Hi. injection Hi as ->.
    rewrite fold_apply_other.
    + rewrite applyBranchBlock_blocks.
      rewrite (Hfrom 0%nat b eq_refl). apply lookup_insert_eq.
    + intros b' Hb'. apply list_elem_of_In, list_elem_of_lookup in Hb' as [j Hj].
      rewrite (Hfrom' j b' Hj). lia.
  - replace (h0 + Z.of_nat (S i)) with (h0 + 1 + Z.of_nat i) by lia.
    apply IH; [exact Hfrom'|exact Hi].
Qed.

Lemma reorgToBranch_cons (c : Chain) (k : list Z) (b0 : Block) (rest : list Block) :
  reorgToBranch c k (b0 :: rest) =
    Done (fold_left applyBranchBlock (b0 :: rest)
            (set_head c (Int.to_uint64 (header.Height (Header b0) - 1)))).
Proof. reflexivity. Qed.

(** After a reorganisation to a branch of consecutive heights the head
    is the height of its last block and every height of the branch
    holds the block of the branch. *)
Lemma reorgToBranch_consecutive (c c' : Chain) (k : list Z) (branch : list Block) (h0 : Z) :
  branch <> [] -> branch_from h0 branch ->
  reorgToBranch c k branch = Done c' ->
  head c' = h0 + Z.of_nat (length branch) - 1 /\
  (forall (i : nat) (b : Block), branch !! i = Some b ->
     blocks c' !! (h0 + Z.of_nat i) = Some b) /\
  (forall h, h0 <= h <= h0 + Z.of_nat (length branch) - 1 ->
     exists b, In b branch /\ header.Height (Header b) = h /\ blocks c' !! h = Some b).
Proof.
  intros Hne Hfrom Hr.
  destruct branch as [|b0 rest] eqn:Eb; [congruence|]. rewrite <- Eb in *.
  assert (Hr' : c' = fold_left applyBranchBlock branch
            (set_head c (Int.to_uint64 (header.Height (Header b0) - 1)))).
  { rewrite Eb in Hr |- *. rewrite reorgToBranch_cons in Hr. now injection Hr. }
  clear Hr. subst c'.
  assert (Hnth : forall (i : nat) (b : Block), branch !! i = Some b ->
            blocks (fold_left applyBranchBlock branch
              (set_head c (Int.to_uint64 (header.Height (Header b0) - 1))))
              !! (h0 + Z.of_nat i) = Some b).
  { intros i b Hi. now apply fold_apply_consecutive. }
  split; [|split].
  - destruct (last branch) as [tip|] eqn:Hl.
    + rewrite (fold_apply_head _ _ tip Hl).
      rewrite last_lookup in Hl. rewrite (Hfrom _ _ Hl).
      rewrite Eb. cbn [length Nat.pred]. lia.
    + apply last_None in Hl. congruence.
  - exact Hnth.
  - intros h Hh.
    destruct (lookup_lt_is_Some_2 branch (Z.to_nat (h - h0))) as [b Hb]; [lia|].
    exists b. split; [apply list_elem_of_In; eapply list_elem_of_lookup_2; exact Hb|].
    split.
    + rewrite (Hfrom _ _ Hb). lia.
    + specialize (Hnth _ _ Hb).
      now replace (h0 + Z.of_nat (Z.to_nat (h - h0))) with h in Hnth by lia.
Qed.

(** One turn of the loop of [checkReorg]. *)
Lemma checkReorg_step_reorg (c : Chain) (k : list Z) (branch : list Block) (tip : Block) :
  sideBranches c !! k = Some branch -> last branch = Some tip ->
  head c < header.Height (Header tip) ->
  exists c1, reorgToBranch c k branch = Done c1 /\
    checkReorg_step c k = Done (set_sideBranches c1 (delete k (sideBranches c1))) /\
    head c1 = header.Height (Header tip) /\
    sideBranches c1 = sideBranches c.
Proof.
  intros Hk Hl Hlt. unfold checkReorg_step. rewrite Hk, Hl.
  apply Z.ltb_lt in Hlt. rewrite Hlt.
  destruct branch as [|b0 rest]; [discriminate|].
  rewrite reorgToBranch_cons. eexists. split; [reflexivity|].
  split; [reflexivity|]. split.
  - now apply fold_apply_head.
  - now rewrite fold_apply_sideBranches.
Qed.

Lemma checkReorg_step_keep (c : Chain) (k : list Z) (branch : list Block) (tip : Block) :
  sideBranches c !! k = Some branch -> last branch = Some tip ->
  header.Height (Header tip) <= head c ->
  checkReorg_step c k = Done c.
Proof.
  intros Hk Hl Hle. unfold checkReorg_step. rewrite Hk, Hl.
  destruct (Z.ltb_spec (head c) (header.Height (Header tip))); [lia|reflexivity].
Qed.

(** What one turn does to the head and to the branches. *)
Lemma checkReorg_step_spec (c : Chain) (k : list Z) :
  exists c', checkReorg_step c k = Done c' /\
    head c <= head c' /\
    (forall k', sideBranches c' !! k' = sideBranches c !! k' \/
                sideBranches c' !! k' = None) /\
    (forall branch tip, sideBranches c' !! k = Some branch ->
       last branch = Some tip -> header.Height (Header tip) <= head c').
Proof.
  destruct (sideBranches c !! k) as [branch|] eqn:Hk.
  - destruct (last branch) as [tip|] eqn:Hl.
    + destruct (Z.lt_ge_cases (head c) (header.Height (Header tip))) as [Hlt|Hge].
      * destruct (checkReorg_step_reorg c k branch tip Hk Hl Hlt)
          as (c1 & _ & Hs & Hh & Hsb).
        eexists. split; [exact Hs|]. cbn. split; [lia|]. split.
        -- intros k'. rewrite Hsb.
           destruct (decide (k = k')) as [->|Hne].
           ++ right. apply lookup_delete_eq.
           ++ left. now apply lookup_delete_ne.
        -- intros br t Hbr. rewrite lookup_delete_eq in Hbr. discriminate.
      * exists c. split; [now apply (checkReorg_step_keep c k branch tip)|].
        split; [lia|]. split; [now left|].
        intros br t Hbr Ht. rewrite ?Hk in Hbr. simplify_eq. lia.
    + exists c. unfold checkReorg_step. rewrite Hk, Hl.
      split; [reflexivity|]. split; [lia|]. split; [now left|].
      intros br t Hbr Ht. rewrite ?Hk in Hbr. simplify_eq.
  - exists c. unfold checkReorg_step. rewrite Hk.
    split; [reflexivity|]. split; [lia|]. split; [now left|].
    intros br t Hbr. rewrite ?Hk in Hbr. discriminate.
Qed.

(** [checkReorg] never panics; the head never moves back; a branch is
    kept as it was or deleted; a branch that was considered and is still
    there has its tip at or below the head. *)
Lemma checkReorg_in_spec (order : list (list Z)) (c : Chain) :
  exists c', checkReorg_in order c = Done c' /\
    head c <= head c' /\
    (forall k, sideBranches c' !! k = sideBranches c !! k \/
               sideBranches c' !! k = None) /\
    (forall k branch tip, In k order -> sideBranches c' !! k = Some branch ->
       last branch = Some tip -> header.Height (Header tip) <= head c').
Proof.
  revert c. induction order as [|k order IH]; intros c.
  - exists c. split; [reflexivity|]. split; [lia|]. split; [now left|].
    intros k br t [].
  - destruct (checkReorg_step_spec c k) as (c1 & Hs & Hh1 & Hsb1 & Htip1).
    destruct (IH c1) as (c2 & Hr & Hh2 & Hsb2 & Htip2).
    exists c2. cbn [checkReorg_in]. rewrite Hs. cbn [obind].
    split; [exact Hr|]. split; [lia|]. split.
    + intros k'. destruct (Hsb2 k') as [E|E]; [|now right].
      rewrite E. apply Hsb1.
    + intros k' br t [<-|Hin] Hbr Ht.
      * destruct (Hsb2 k) as [E|E]; [|congruence].
        rewrite E in Hbr. specialize (Htip1 br t Hbr Ht). lia.
      * now apply (Htip2 k' br t).
Qed.

Lemma checkReorg_ok (rt : Runtime) (c : Chain) :
  exists c', checkReorg rt c = Done c'.
Proof.
  destruct (checkReorg_in_spec (range_sideBranches rt (sideBranches c)) c)
    as (c' & H & _). now exists c'.
Qed.

Lemma find_parent_none (order : list Z) (m : gmap Z Block) (parentHash : list Z) :
  (forall k b, m !! k = Some b -> Block_Hash b <> parentHash) ->
  find_parent order m parentHash = None.
Proof.
  intros Hno. induction order as [|k order IH]; cbn; [reflexivity|].
  destruct (m !! k) as [b|] eqn:Hk; [|exact IH].
  rewrite bool_decide_eq_false_2 by (now apply (Hno k)). exact IH.
Qed.

Lemma addToSideBranch_lookup (c : Chain) (block : Block) :
  sideBranches (addToSideBranch c block) !! header.ParentHash (Header block)
  = Some (default [] (sideBranches c !! header.ParentHash (Header block)) ++ [block]).
Proof. unfold addToSideBranch. cbn. apply lookup_insert_eq. Qed.

Lemma addToOrphanPool_lookup (c : Chain) (block : Block) :
  OrphanPool (addToOrphanPool c block) !! header.ParentHash (Header block)
  = Some (default [] (OrphanPool c !! header.ParentHash (Header block)) ++ [block]).
Proof.
  unfold addToOrphanPool. destruct (RequestBlockByHash _); cbn; apply lookup_insert_eq.
Qed.

Lemma addToOrphanPool_requests (c : Chain) (block : Block) :
  requests (addToOrphanPool c block) =
    if RequestBlockByHash c
    then requests c ++ [header.ParentHash (Header block)]
    else requests c.
Proof. unfold addToOrphanPool. cbn. destruct (RequestBlockByHash c); reflexivity. Qed.

(** C5 as stated fails.  After the blocks [fork_2] and [main_1] have
    reached a fresh chain, [fork_2] is on the main chain by a
    reorganisation but not in the hash index.  No block has height 3 and
    the parent of [child_3] is not in the hash index, yet the import of
    [child_3] succeeds: the parent is looked for among the blocks of the
    main chain. *)
Lemma ImportBlock_parent_lookup_by_height :
  net.handleBlockResp key_order [fork_2; main_1] genesis_chain
    = Done fork_on_main_chain /\
  blocks fork_on_main_chain !! 2 = Some fork_2 /\
  blocks fork_on_main_chain !! header.Height (Header child_3) = None /\
  blockHashIndex fork_on_main_chain !! header.ParentHash (Header child_3) = None /\
  exists c',
    ImportBlock 2 key_order fork_on_main_chain child_3 = Done (c', None) /\
    head c' = 3 /\
    OrphanPool c' = ∅.
Proof.
  split; [vm_compute; reflexivity|].
  split; [vm_compute; reflexivity|].
  split; [vm_compute; reflexivity|].
  split; [vm_compute; reflexivity|].
  eexists. split; [vm_compute; reflexivity|]. split; reflexivity.
Qed.

(** C5, amended.  On a chain whose head block is present, for every
    call of [ImportBlock]: when a block already exists at the height of
    the incoming block, then if the two hashes differ and the incoming
    parent hash is not the hash of the head block, the block is appended
    to the side branch of its parent hash, [checkReorg] runs and the
    import returns no error, and in every other such case the import
    fails as a duplicate and changes nothing; when no block exists at
    that height and no block of the main chain ([blocks], by height) has
    the parent hash as its hash, the block is appended to the orphan
    pool under its parent hash, the import fails as orphan queued, and
    the request for the parent is started if and only if the callback is
    installed. *)
Theorem ImportBlock_existing_or_orphan
    (rt : Runtime) (c : Chain) (block headBlock : Block) (fuel : nat)
    (Hhead : blocks c !! head c = Some headBlock) :
  let height := header.Height (Header block) in
  let parentHash := header.ParentHash (Header block) in
  (forall existing, blocks c !! height = Some existing ->
     (Block_Hash existing <> Block_Hash block /\
      parentHash <> Block_Hash headBlock ->
        exists c',
          sideBranches (addToSideBranch c block) !! parentHash
            = Some (default [] (sideBranches c !! parentHash) ++ [block]) /\
          checkReorg rt (addToSideBranch c block) = Done c' /\
          ImportBlock (S fuel) rt c block = Done (c', None)) /\
     (~ (Block_Hash existing <> Block_Hash block /\
         parentHash <> Block_Hash headBlock) ->
        ImportBlock (S fuel) rt c block = Done (c, Some (ErrDuplicate height)))) /\
  (blocks c !! height = None ->
   (forall k b, blocks c !! k = Some b -> Block_Hash b <> parentHash) ->
     ImportBlock (S fuel) rt c block
       = Done (addToOrphanPool c block, Some (ErrOrphanQueued parentHash)) /\
     OrphanPool (addToOrphanPool c block) !! parentHash
       = Some (default [] (OrphanPool c !! parentHash) ++ [block]) /\
     requests (addToOrphanPool c block)
       = if RequestBlockByHash c then requests c ++ [parentHash] else requests c).
Proof.
  cbv zeta. split.
  - intros existing Hex. split.
    + intros [Hhash Hparent].
      destruct (checkReorg_ok rt (addToSideBranch c block)) as [c' Hc'].
      exists c'. split; [apply addToSideBranch_lookup|]. split; [exact Hc'|].
      cbn [ImportBlock]. unfold importBlockInternal.
      rewrite Hex, Hhead.
      rewrite bool_decide_eq_false_2 by exact Hhash.
      rewrite bool_decide_eq_false_2 by exact Hparent.
      rewrite Hc'. reflexivity.
    + intros Hnot. cbn [ImportBlock]. unfold importBlockInternal.
      rewrite Hex, Hhead.
      destruct (decide (Block_Hash existing = Block_Hash block)) as [He|He].
      * now rewrite bool_decide_eq_true_2 by exact He.
      * rewrite bool_decide_eq_false_2 by exact He.
        destruct (decide (header.ParentHash (Header block) = Block_Hash headBlock))
          as [Hp|Hp].
        -- now rewrite bool_decide_eq_true_2 by exact Hp.
        -- exfalso. apply Hnot. now split.
  - intros Hnone Hno. split; [|split].
    + cbn [ImportBlock]. unfold importBlockInternal.
      rewrite Hnone. now rewrite find_parent_none by exact Hno.
    + apply addToOrphanPool_lookup.
    + apply addToOrphanPool_requests.
Qed.

Lemma ImportBlock_existing_or_orphan_witness :
  let c := genesis_chain in
  let block := child_3 in
  let height := header.Height (Header block) in
  let parentHash := header.ParentHash (Header block) in
  blocks c !! head c = Some genesis_block /\
  blocks c !! height = None /\
  ImportBlock 2 key_order c block
    = Done (addToOrphanPool c block, Some (ErrOrphanQueued parentHash)).
Proof.
  cbv zeta.
  assert (Hhead : blocks genesis_chain !! head genesis_chain
                  = Some genesis_block)
    by (vm_compute; reflexivity).
  assert (Hnone : blocks genesis_chain !! header.Height (Header child_3) = None)
    by (vm_compute; reflexivity).
  split; [exact Hhead|]. split; [exact Hnone|].
  refine (proj1 (proj2 (ImportBlock_existing_or_orphan key_order genesis_chain child_3
                          _ 1 Hhead) Hnone _)).
  intros k b Hk.
  assert (Hb : blocks genesis_chain = {[ 0 := genesis_block ]})
    by (vm_compute; reflexivity).
  rewrite Hb in Hk. apply lookup_singleton_Some in Hk as [_ <-].
  vm_compute. discriminate.
Defined.

(** A successful import has run [checkReorg], on the chain with the
    block routed to its side branch or inserted; only the promotion of
    orphans may follow. *)
Lemma ImportBlock_ok_checkReorg (rt : Runtime) (c c' : Chain) (block : Block) (fuel : nat) :
  ImportBlock (S fuel) rt c block = Done (c', None) ->
  exists c1 c2,
    checkReorg rt c1 = Done c2 /\
    ((c1 = addToSideBranch c block /\ c' = c2) \/
     (exists cA bits,
        c1 = insertBlock rt cA (set_Bits block bits) /\
        tryImportOrphans (ImportBlock fuel rt) c2
          (Block_Hash (set_Bits block bits)) = Done c')).
Proof.
  cbn [ImportBlock]. unfold importBlockInternal. intros H.
  repeat case_match; simplify_eq;
    repeat match goal with
    | H : obind (checkReorg ?r ?c1) _ = _ |- _ =>
        let Hc := fresh "Hc" in
        destruct (checkReorg r c1) eqn:Hc; cbn [obind] in H; simplify_eq
    | H : obind (tryImportOrphans ?i ?c2 ?h) _ = _ |- _ =>
        let Ho := fresh "Ho" in
        destruct (tryImportOrphans i c2 h) eqn:Ho; cbn [obind] in H; simplify_eq
    end.
  all: first
    [ eexists _, _; split; [eassumption|]; right; eexists _, _;
      split; [reflexivity|eassumption]
    | eexists _, _; split; [eassumption|]; left; split; reflexivity ].
Qed.

(** What a reorganisation leaves in [blocks]: at a height that blocks of
    the branch have, the last of them; elsewhere what was there. *)
Lemma fold_apply_blocks (branch : list Block) (c : Chain) (h : Z) :
  blocks (fold_left applyBranchBlock branch c) !! h =
    match last (filter (fun b => header.Height (Header b) = h) branch) with
    | Some b => Some b
    | None => blocks c !! h
    end.
Proof.
  revert c. induction branch as [|b0 branch IH]; intros c; [reflexivity|].
  cbn [fold_left]. rewrite IH, applyBranchBlock_blocks, filter_cons.
  destruct (decide (header.Height (Header b0) = h)) as [E|E].
  - rewrite last_cons.
    destruct (last (filter _ branch)); [reflexivity|].
    rewrite E. apply lookup_insert_eq.
  - destruct (last (filter _ branch)); [reflexivity|].
    now apply lookup_insert_ne.
Qed.

Lemma last_filter_In (h : Z) (branch : list Block) (b : Block) :
  last (filter (fun b => header.Height (Header b) = h) branch) = Some b ->
  In b branch /\ header.Height (Header b) = h.
Proof.
  intros Hl. rewrite last_lookup in Hl.
  apply list_elem_of_lookup_2, list_elem_of_filter in Hl as [Hh Hin].
  split; [now apply list_elem_of_In|exact Hh].
Qed.

Lemma last_filter_Some (h : Z) (branch : list Block) (b : Block) :
  In b branch -> header.Height (Header b) = h ->
  exists b', last (filter (fun b => header.Height (Header b) = h) branch) = Some b'.
Proof.
  intros Hin Hh.
  destruct (last (filter _ branch)) as [b'|] eqn:Hl; [now exists b'|].
  apply last_None in Hl.
  assert (Hf : b ∈ filter (fun b => header.Height (Header b) = h) branch).
  { apply list_elem_of_filter. split; [exact Hh|now apply list_elem_of_In]. }
  rewrite Hl in Hf. inversion Hf.
Qed.

(** [reorgToBranch] on a branch that is not empty. *)
Lemma reorgToBranch_spec (c : Chain) (k : list Z) (branch : list Block) :
  branch <> [] ->
  exists c1 tip,
    reorgToBranch c k branch = Done c1 /\ last branch = Some tip /\
    head c1 = header.Height (Header tip) /\
    (forall h, blocks c1 !! h =
       match last (filter (fun b => header.Height (Header b) = h) branch) with
       | Some b => Some b
       | None => blocks c !! h
       end) /\
    sideBranches c1 = sideBranches c.
Proof.
  intros Hne. destruct branch as [|b0 rest] eqn:Eb; [congruence|]. rewrite <- Eb.
  destruct (last branch) as [tip|] eqn:Hl; [|apply last_None in Hl; congruence].
  eexists _, tip. rewrite Eb at 1. rewrite reorgToBranch_cons, <- Eb.
  split; [reflexivity|]. split; [reflexivity|]. split; [|split].
  - now apply fold_apply_head.
  - intros h. now rewrite fold_apply_blocks.
  - now rewrite fold_apply_sideBranches.
Qed.

(** C6 as stated fails, in two ways.  First, a successful import can
    leave a side branch above the head: [orphan_5] waits for [main_1];
    the import of [main_1] runs [checkReorg] (no branch yet), then
    promotes [orphan_5], whose height is not 2, to a side branch; the
    import returns no error, the head is 1, the branch tip is at 5, no
    reorganisation was made and the entry is there.  Second, [fork_2]
    and [fork_4] both name the genesis block as their parent and so
    share one side branch.  When [main_1] is imported the branch tip
    (height 4) is above the head (height 1): the chain is reorganised to
    the branch and the entry deleted.  The head is then 4, the height of
    the last block of the branch, but height 3, between the first and
    the last height of the branch, holds no block. *)
Lemma import_leaves_branch_above_head_and_gap :
  (ImportBlock 2 key_order genesis_chain orphan_5
     = Done (waiting_chain, Some (ErrOrphanQueued (Block_Hash main_1))) /\
   ImportBlock 2 key_order waiting_chain main_1 = Done (promoted_chain, None) /\
   head promoted_chain = 1 /\
   sideBranches promoted_chain !! Block_Hash main_1 = Some [orphan_5] /\
   head promoted_chain < header.Height (Header orphan_5) /\
   blocks promoted_chain !! 5 = None) /\
  (net.handleBlockResp key_order [fork_2; fork_4] genesis_chain = Done forked_chain /\
   sideBranches forked_chain !! genesis_hash = Some [fork_2; fork_4] /\
   head forked_chain = 0 /\
   ImportBlock 2 key_order forked_chain main_1 = Done (reorged_chain, None) /\
   sideBranches reorged_chain !! genesis_hash = None /\
   head reorged_chain = 4 /\
   blocks reorged_chain !! 2 = Some fork_2 /\
   blocks reorged_chain !! 4 = Some fork_4 /\
   header.Height (Header fork_2) <= 3 <= header.Height (Header fork_4) /\
   blocks reorged_chain !! 3 = None).
Proof.
  split.
  - split; [vm_compute; reflexivity|].
    split; [vm_compute; reflexivity|].
    split; [vm_compute; reflexivity|].
    split; [vm_compute; reflexivity|].
    split; [vm_compute; reflexivity|]. vm_compute; reflexivity.
  - split; [vm_compute; reflexivity|].
    split; [vm_compute; reflexivity|].
    split; [vm_compute; reflexivity|].
    split; [vm_compute; reflexivity|].
    split; [vm_compute; reflexivity|].
    split; [vm_compute; reflexivity|].
    split; [vm_compute; reflexivity|].
    split; [vm_compute; reflexivity|].
    split; [cbn; lia|]. vm_compute; reflexivity.
Qed.

(** C6, amended.  Every import that returns no error has run
    [checkReorg] once, on the chain with the block routed to its side
    branch or inserted; after it the import only promotes the orphans
    that waited for the block, and a side branch they are filed in is
    not checked.  [checkReorg] considers every side branch once, in the
    order of the runtime: a branch whose tip is above the head at that
    moment is applied by [reorgToBranch] and its entry deleted, any
    other branch is left as it is; the head never moves back, so when
    [checkReorg] ends no branch that is left has its tip above the head.
    [reorgToBranch] on a branch that is not empty returns; the head is
    then the height of the last block of the branch; every height that
    a block of the branch has holds the block of the branch with that
    height (the last one, should several have it), and every other
    height holds what it held before. *)
Theorem checkReorg_after_import
    (rt : Runtime) (c c' : Chain) (block : Block) (fuel : nat)
    (Hfair : fair_runtime rt)
    (Hok : ImportBlock (S fuel) rt c block = Done (c', None)) :
  (exists c1 c2,
     checkReorg rt c1 = Done c2 /\
     ((c1 = addToSideBranch c block /\ c' = c2) \/
      (exists cA bits,
         c1 = insertBlock rt cA (set_Bits block bits) /\
         tryImportOrphans (ImportBlock fuel rt) c2
           (Block_Hash (set_Bits block bits)) = Done c')) /\
     head c1 <= head c2 /\
     (forall k, sideBranches c2 !! k = sideBranches c1 !! k \/
                sideBranches c2 !! k = None) /\
     (forall k branch tip, sideBranches c2 !! k = Some branch ->
        last branch = Some tip -> header.Height (Header tip) <= head c2)) /\
  (forall c0 k branch tip,
     sideBranches c0 !! k = Some branch -> last branch = Some tip ->
     (head c0 < header.Height (Header tip) ->
        exists c1, reorgToBranch c0 k branch = Done c1 /\
          checkReorg_step c0 k
            = Done (set_sideBranches c1 (delete k (sideBranches c1)))) /\
     (header.Height (Header tip) <= head c0 -> checkReorg_step c0 k = Done c0)) /\
  (forall c0 k branch,
     branch <> [] ->
     exists c1 tip,
       reorgToBranch c0 k branch = Done c1 /\
       last branch = Some tip /\
       head c1 = header.Height (Header tip) /\
       (forall b, In b branch ->
          exists b', In b' branch /\
            header.Height (Header b') = header.Height (Header b) /\
            last (filter (fun x => header.Height (Header x) = header.Height (Header b))
                         branch) = Some b' /\
            blocks c1 !! header.Height (Header b) = Some b') /\
       (forall h, (forall b, In b branch -> header.Height (Header b) <> h) ->
          blocks c1 !! h = blocks c0 !! h)).
Proof.
  split; [|split].
  - destruct (ImportBlock_ok_checkReorg rt c c' block fuel Hok)
      as (c1 & c2 & Hc & Hshape).
    exists c1, c2. split; [exact Hc|]. split; [exact Hshape|].
    unfold checkReorg in Hc.
    destruct (checkReorg_in_spec (range_sideBranches rt (sideBranches c1)) c1)
      as (c2' & Hc' & Hhead & Hkept & Htips).
    assert (c2' = c2) by congruence. subst c2'.
    split; [exact Hhead|]. split; [exact Hkept|].
    intros k branch tip Hk Hl. apply (Htips k branch tip); [|exact Hk|exact Hl].
    destruct (Hkept k) as [E|E]; [|congruence].
    rewrite E in Hk.
    destruct Hfair as [_ Hf]. apply list_elem_of_In. rewrite (Hf (sideBranches c1)).
    apply list_elem_of_fmap. exists (k, branch). split; [reflexivity|].
    now apply elem_of_map_to_list.
  - intros c0 k branch tip Hk Hl. split.
    + intros Hlt.
      destruct (checkReorg_step_reorg c0 k branch tip Hk Hl Hlt) as (c1 & Hr & Hs & _).
      now exists c1.
    + intros Hle. now apply (checkReorg_step_keep c0 k branch tip).
  - intros c0 k branch Hne.
    destruct (reorgToBranch_spec c0 k branch Hne) as (c1 & tip & Hr & Hl & Hh & Hb & _).
    exists c1, tip. split; [exact Hr|]. split; [exact Hl|]. split; [exact Hh|]. split.
    + intros b Hin.
      destruct (last_filter_Some (header.Height (Header b)) branch b Hin eq_refl)
        as [b' Hb'].
      destruct (last_filter_In _ _ _ Hb') as [Hin' Hh'].
      exists b'. split; [exact Hin'|]. split; [exact Hh'|]. split; [exact Hb'|].
      now rewrite Hb, Hb'.
    + intros h Hno. rewrite Hb.
      destruct (last (filter _ branch)) as [b|] eqn:Hlf; [|reflexivity].
      destruct (last_filter_In _ _ _ Hlf) as [Hin Hh']. now apply Hno in Hin.
Qed.

Lemma key_order_fair : fair_runtime key_order.
Proof. split; intros m; reflexivity. Qed.

(** The import of [main_1] on [forked_chain]: [checkReorg] reorganises
    the chain to the branch of [fork_2] and [fork_4]. *)
Lemma checkReorg_after_import_witness :
  (exists c1 c2,
     checkReorg key_order c1 = Done c2 /\
     ((c1 = addToSideBranch forked_chain main_1 /\ reorged_chain = c2) \/
      (exists cA bits,
         c1 = insertBlock key_order cA (set_Bits main_1 bits) /\
         tryImportOrphans (ImportBlock 1 key_order) c2
           (Block_Hash (set_Bits main_1 bits)) = Done reorged_chain)) /\
     head c1 <= head c2 /\
     (forall k, sideBranches c2 !! k = sideBranches c1 !! k \/
                sideBranches c2 !! k = None) /\
     (forall k branch tip, sideBranches c2 !! k = Some branch ->
        last branch = Some tip -> header.Height (Header tip) <= head c2)) /\
  (forall c0 k branch tip,
     sideBranches c0 !! k = Some branch -> last branch = Some tip ->
     (head c0 < header.Height (Header tip) ->
        exists c1, reorgToBranch c0 k branch = Done c1 /\
          checkReorg_step c0 k
            = Done (set_sideBranches c1 (delete k (sideBranches c1)))) /\
     (header.Height (Header tip) <= head c0 -> checkReorg_step c0 k = Done c0)) /\
  (forall c0 k branch,
     branch <> [] ->
     exists c1 tip,
       reorgToBranch c0 k branch = Done c1 /\
       last branch = Some tip /\
       head c1 = header.Height (Header tip) /\
       (forall b, In b branch ->
          exists b', In b' branch /\
            header.Height (Header b') = header.Height (Header b) /\
            last (filter (fun x => header.Height (Header x) = header.Height (Header b))
                         branch) = Some b' /\
            blocks c1 !! header.Height (Header b) = Some b') /\
       (forall h, (forall b, In b branch -> header.Height (Header b) <> h) ->
          blocks c1 !! h = blocks c0 !! h)).
Proof.
  assert (Hok : ImportBlock 2 key_order forked_chain main_1 = Done (reorged_chain, None))
    by (vm_compute; reflexivity).
  exact (checkReorg_after_import key_order forked_chain reorged_chain main_1 1
           key_order_fair Hok).
Defined.

(** ** Retarget: early returns, bounds, direction *)

(** ** Difficulty engine: edges and bounds *)

(** The retarget path of [Adjust], with the span and the division
    written out. *)
Lemma Adjust_path {S : Type}
    (HeaderByHeight : S -> Z -> option header.Header * S)
    (chain chain' : S) (tip first : header.Header) (bits : Z) :
  header.Bits tip = Some bits ->
  2016 <= header.Height tip < 2 ^ 64 ->
  HeaderByHeight chain (header.Height tip - 2016 + 1) = (Some first, chain') ->
  Adjust HeaderByHeight chain (Some tip) =
    ((saturate
        (bits * clamped_span (time.Sub (header.Timestamp tip) (header.Timestamp first))
         / expected_span), None), chain').
Proof.
  intros Hbits Hheight Hfirst.
  unfold Adjust. rewrite Hbits.
  unfold config.RetargetInterval.
  destruct (Z.ltb_spec (header.Height tip) 2016) as [Hlt|_]; [lia|].
  unfold Int.to_uint64, Int.two64.
  rewrite (Z.mod_small (header.Height tip - 2016 + 1)) by lia.
  rewrite Hfirst.
  set (actual := time.Sub _ _).
  unfold saturate, clamped_span, expected_span.
  unfold config.TargetBlockSpacingSec, config.MaxAdjustmentFactor,
    time.Seconds_int64, time.Second, Int.quo.
  change (Z.quot (2016 * 1000000000 * 600) 4) with 302400000000000.
  change (2016 * 1000000000 * 600 * 4) with 4838400000000000.
  change (Z.quot (2016 * 1000000000 * 600) 1000000000) with 1209600.
  change (1209600 =? 0) with false. cbv iota.
  change (2016 * 600 * 1000000000 / 4) with 302400000000000.
  change (2016 * 600 * 1000000000 * 4) with 4838400000000000.
  change (2016 * 600) with 1209600.
  change (Z.shiftl 1 63) with (2 ^ 63).
  rewrite clamp_max_min by lia.
  rewrite Z.quot_div_nonneg by lia.
  rewrite Big_Div_pos by lia.
  set (q := _ / 1209600).
  change (2 ^ 63) with 9223372036854775808.
  destruct (Z.ltb_spec (-1) q) as [H1|H1].
  - reflexivity.
  - destruct (Z.ltb_spec q (- 9223372036854775808)); reflexivity.
Qed.

(** The clamped span, in seconds, is within a factor of four of the
    expected one. *)
Lemma clamped_span_range (actual_ns : Z) :
  302400 <= clamped_span actual_ns <= 4838400.
Proof.
  unfold clamped_span, expected_span, time.Second.
  change (2016 * 600 * 1000000000 / 4) with (302400 * 1000000000).
  change (2016 * 600 * 1000000000 * 4) with (4838400 * 1000000000).
  split.
  - apply Z.div_le_lower_bound; lia.
  - apply Z.div_le_upper_bound; lia.
Qed.

Lemma clamped_span_mono (a b : Z) : a <= b -> clamped_span a <= clamped_span b.
Proof.
  intros H. unfold clamped_span. apply Z.div_le_mono; [unfold time.Second; lia|]. lia.
Qed.

Lemma saturate_mono (a b : Z) : a <= b -> saturate a <= saturate b.
Proof.
  intros H. pose proof (saturate_range a) as Ra. pose proof (saturate_range b) as Rb.
  unfold saturate in *.
  destruct (Z.ltb_spec (-1) a); destruct (Z.ltb_spec (-1) b); try lia.
  destruct (Z.ltb_spec a (- 2 ^ 63)); destruct (Z.ltb_spec b (- 2 ^ 63)); lia.
Qed.



(** X2.  Whenever [Adjust] retargets (tip at height 2016 or more, target
    present, first header of the window found) the new target is a
    negative signed 64-bit value, between -2^63 and -1.  A tip target
    that is zero or positive always retargets to -1.  A negative tip
    target moves by a factor of four at most: the result lies between
    four times the target and a quarter of it (rounded down), both
    bounded below by -2^63. *)
Theorem Adjust_result_bounds {S : Type}
    (HeaderByHeight : S -> Z -> option header.Header * S)
    (chain chain' : S) (tip first : header.Header) (bits : Z)
    (Hbits : header.Bits tip = Some bits)
    (Hheight : 2016 <= header.Height tip < 2 ^ 64)
    (Hfirst : HeaderByHeight chain (header.Height tip - 2016 + 1) = (Some first, chain')) :
  exists t,
    Adjust HeaderByHeight chain (Some tip) = ((t, None), chain') /\
    - 2 ^ 63 <= t <= -1 /\
    (0 <= bits -> t = -1) /\
    (bits < 0 -> Z.max (4 * bits) (- 2 ^ 63) <= t <= Z.max (bits / 4) (- 2 ^ 63)).
Proof.
  eexists. split; [apply (Adjust_path _ _ _ _ _ _ Hbits Hheight Hfirst)|].
  set (s := clamped_span _).
  pose proof (clamped_span_range (time.Sub (header.Timestamp tip) (header.Timestamp first)))
    as Hs. fold s in Hs.
  split; [apply saturate_range|].
  unfold expected_span. change (2016 * 600) with 1209600.
  split.
  - intros Hpos. unfold saturate.
    assert (0 <= bits * s / 1209600) by (apply Z.div_pos; nia).
    destruct (Z.ltb_spec (-1) (bits * s / 1209600)); [reflexivity|lia].
  - intros Hneg.
    assert (Hlo : 4 * bits <= bits * s / 1209600)
      by (apply Z.div_le_lower_bound; nia).
    assert (Hhi : bits * s / 1209600 <= bits / 4).
    { transitivity (bits * 302400 / 1209600).
      - apply Z.div_le_mono; nia.
      - change 1209600 with (4 * 302400).
        rewrite Z.div_mul_cancel_r by lia. lia. }
    assert (bits / 4 <= -1).
    { assert (bits / 4 < 0); [|lia]. apply Z.div_lt_upper_bound; lia. }
    unfold saturate. change (2 ^ 63) with 9223372036854775808.
    destruct (Z.ltb_spec (-1) (bits * s / 1209600)); [lia|].
    match goal with |- context [?a <? ?b] => destruct (Z.ltb_spec a b) end; lia.
Qed.

Lemma Adjust_result_bounds_witness :
  exists t,
    Adjust mockChain_HeaderByHeight retarget_chain (Some retarget_tip)
      = ((t, None), retarget_chain) /\
    - 2 ^ 63 <= t <= -1 /\
    (0 <= -1001 -> t = -1) /\
    (-1001 < 0 -> Z.max (4 * -1001) (- 2 ^ 63) <= t <= Z.max (-1001 / 4) (- 2 ^ 63)).
Proof.
  apply (Adjust_result_bounds mockChain_HeaderByHeight retarget_chain retarget_chain
           retarget_tip
           (header.mkHeader 1 header.zero_hash 0 (Some (-1000)) 0 header.zero_hash 0)
           (-1001) eq_refl).
  - cbn. lia.
  - reflexivity.
Defined.

(** X3.  The direction of the retarget.  For one negative tip target,
    a longer span between the first header of the window and the tip
    never gives a larger target: the slower the window was mined, the
    further the new target lies from -1. *)
Theorem Adjust_longer_span_lower_target {S : Type}
    (HeaderByHeight : S -> Z -> option header.Header * S)
    (chain chain1 chain2 : S) (tip1 tip2 first1 first2 : header.Header) (bits : Z)
    (Hbits1 : header.Bits tip1 = Some bits)
    (Hbits2 : header.Bits tip2 = Some bits)
    (Hneg : bits < 0)
    (Hheight1 : 2016 <= header.Height tip1 < 2 ^ 64)
    (Hheight2 : 2016 <= header.Height tip2 < 2 ^ 64)
    (Hfirst1 : HeaderByHeight chain (header.Height tip1 - 2016 + 1) = (Some first1, chain1))
    (Hfirst2 : HeaderByHeight chain (header.Height tip2 - 2016 + 1) = (Some first2, chain2))
    (Hspan : time.Sub (header.Timestamp tip1) (header.Timestamp first1)
             <= time.Sub (header.Timestamp tip2) (header.Timestamp first2)) :
  (Adjust HeaderByHeight chain (Some tip2)).1.1
  <= (Adjust HeaderByHeight chain (Some tip1)).1.1.
Proof.
  rewrite (Adjust_path _ _ _ _ _ _ Hbits1 Hheight1 Hfirst1).
  rewrite (Adjust_path _ _ _ _ _ _ Hbits2 Hheight2 Hfirst2).
  cbn [fst].
  pose proof (clamped_span_mono _ _ Hspan) as Hm.
  apply saturate_mono.
  apply Z.div_le_mono; [unfold expected_span; lia|nia].
Qed.

Lemma Adjust_longer_span_lower_target_witness :
  let slow_tip :=
    header.mkHeader 2016 header.zero_hash 0 (Some (-1001))
                    (2000000 * time.Second) header.zero_hash 0 in
  (Adjust mockChain_HeaderByHeight retarget_chain (Some slow_tip)).1.1
  <= (Adjust mockChain_HeaderByHeight retarget_chain (Some retarget_tip)).1.1.
Proof.
  apply (Adjust_longer_span_lower_target mockChain_HeaderByHeight
           retarget_chain retarget_chain retarget_chain
           retarget_tip
           (header.mkHeader 2016 header.zero_hash 0 (Some (-1001))
                            (2000000 * time.Second) header.zero_hash 0)
           (header.mkHeader 1 header.zero_hash 0 (Some (-1000)) 0 header.zero_hash 0)
           (header.mkHeader 1 header.zero_hash 0 (Some (-1000)) 0 header.zero_hash 0)
           (-1001) eq_refl eq_refl).
  - lia.
  - cbn. lia.
  - cbn. lia.
  - reflexivity.
  - reflexivity.
  - vm_compute. discriminate.
Defined.

(** ** Block store: round trip and pruning window *)

(** ** Block store *)

Lemma block_roundtrip (b : Block) (bits : Z) :
  header.Bits (Header b) = Some bits ->
  time.encodable (header.Timestamp (Header b)) ->
  time.encodable (Time b) ->
  exists j, Encode b = Some j /\ DecodeBlock j = b.
Proof.
  intros Hbits Hts Ht.
  destruct (header_roundtrip _ _ Hbits Hts) as (hj & Hm & _ & Hu).
  unfold Encode. rewrite Hm, (time_MarshalJSON_encodable _ Ht).
  eexists. split; [reflexivity|].
  unfold DecodeBlock; cbn. rewrite Hu. now destruct b.
Qed.

Lemma GetBlock_PutBlock_ne (s s' : BadgerStore) (height h : Z) (b : Block) :
  PutBlock s height b = Some s' -> h <> height -> GetBlock s' h = GetBlock s h.
Proof.
  unfold PutBlock, GetBlock. destruct (Encode b); [|discriminate].
  intros [= <-] Hne. cbn. now rewrite lookup_insert_ne by congruence.
Qed.

(** X4.  What is put is what is read.  For a block whose target is
    present and whose timestamps can be written, [PutBlock] succeeds;
    [GetBlock] at that height then returns the block itself, the tip
    recorded in the store is that height (whatever it was before, also
    when it was higher), and every other height reads as before. *)
Theorem PutBlock_then_GetBlock (s : BadgerStore) (height : Z) (b : Block) (bits : Z)
    (Hbits : header.Bits (Header b) = Some bits)
    (Hts : time.encodable (header.Timestamp (Header b)))
    (Ht : time.encodable (Time b)) :
  exists s',
    PutBlock s height b = Some s' /\
    GetBlock s' height = Some b /\
    GetTipHeight s' = Some height /\
    (forall h, h <> height -> GetBlock s' h = GetBlock s h).
Proof.
  destruct (block_roundtrip b bits Hbits Hts Ht) as (j & Hj & Hd).
  unfold PutBlock. rewrite Hj. eexists. split; [reflexivity|].
  split; [|split].
  - unfold GetBlock. cbn. rewrite lookup_insert_eq. cbn. now rewrite Hd.
  - reflexivity.
  - intros h Hne. unfold GetBlock. cbn. now rewrite lookup_insert_ne by congruence.
Qed.

Lemma PutBlock_then_GetBlock_witness :
  exists s',
    PutBlock (mkBadgerStore ∅ (Some 50)) 42 example_block = Some s' /\
    GetBlock s' 42 = Some example_block /\
    GetTipHeight s' = Some 42 /\
    (forall h, h <> 42 -> GetBlock s' h = GetBlock (mkBadgerStore ∅ (Some 50)) h).
Proof.
  apply (PutBlock_then_GetBlock (mkBadgerStore ∅ (Some 50)) 42 example_block
           987654321 eq_refl).
  - unfold time.encodable. vm_compute. split; [discriminate | reflexivity].
  - unfold time.encodable. vm_compute. split; [discriminate | reflexivity].
Defined.

Lemma GetBlock_PruneBlocks (s : BadgerStore) (keepN tip h : Z) :
  0 <= h ->
  GetBlock (PruneBlocks s keepN tip) h =
    if h <? (if keepN <=? tip then Int.to_uint64 (tip - keepN + 1) else 0)
    then None else GetBlock s h.
Proof.
  intros Hh. unfold GetBlock, PruneBlocks. cbn [store_blocks].
  set (minKeep := if keepN <=? tip then _ else _).
  destruct (Z.ltb_spec h minKeep) as [Hlt|Hge].
  - rewrite map_lookup_filter_None_2; [reflexivity|].
    right. intros x _ Hx. cbn in Hx. lia.
  - destruct (store_blocks s !! h) as [x|] eqn:E.
    + rewrite (map_lookup_filter_Some_2 _ _ h x); [reflexivity|exact E|].
      cbn. lia.
    + rewrite map_lookup_filter_None_2; [reflexivity|]. now left.
Qed.

(** X5.  The window [PruneBlocks(keepN, tip)] keeps.  The recorded tip
    is never touched.  With [tip < keepN] nothing is deleted.  With
    [0 < keepN <= tip] exactly the heights up to [tip - keepN] are
    deleted: the [keepN] heights ending at the tip, and everything
    above, read as before.  With [keepN = 0] (and a tip below 2^64 - 1)
    every height up to and including the tip is deleted. *)
Theorem PruneBlocks_window (s : BadgerStore) (keepN tip h : Z)
    (Hk : Int.is_uint64 keepN) (Ht : Int.is_uint64 tip) (Hh : Int.is_uint64 h) :
  let s' := PruneBlocks s keepN tip in
  GetTipHeight s' = GetTipHeight s /\
  (tip < keepN -> GetBlock s' h = GetBlock s h) /\
  (0 < keepN <= tip ->
     (h <= tip - keepN -> GetBlock s' h = None) /\
     (tip - keepN < h -> GetBlock s' h = GetBlock s h)) /\
  (keepN = 0 -> tip < Int.max_uint64 -> h <= tip -> GetBlock s' h = None).
Proof.
  unfold Int.is_uint64, Int.max_uint64, Int.two64 in *. cbv zeta.
  split; [reflexivity|].
  rewrite (GetBlock_PruneBlocks s keepN tip h) by lia.
  unfold Int.to_uint64, Int.two64.
  split; [|split].
  - intros Hlt. destruct (Z.leb_spec keepN tip); [lia|].
    destruct (Z.ltb_spec h 0); [lia|reflexivity].
  - intros [Hpos Hle]. destruct (Z.leb_spec keepN tip); [|lia].
    rewrite Z.mod_small by lia.
    split; intros Hc; destruct (Z.ltb_spec h (tip - keepN + 1)); (reflexivity || lia).
  - intros -> Hmax Hle. destruct (Z.leb_spec 0 tip); [|lia].
    rewrite Z.mod_small by lia.
    destruct (Z.ltb_spec h (tip - 0 + 1)); [reflexivity|lia].
Qed.

Lemma PruneBlocks_window_witness :
  let s := mkBadgerStore ∅ (Some 150) in
  let s' := PruneBlocks s 100 150 in
  GetTipHeight s' = GetTipHeight s /\
  (150 < 100 -> GetBlock s' 50 = GetBlock s 50) /\
  (0 < 100 <= 150 ->
     (50 <= 150 - 100 -> GetBlock s' 50 = None) /\
     (150 - 100 < 50 -> GetBlock s' 50 = GetBlock s 50)) /\
  (100 = 0 -> 150 < Int.max_uint64 -> 50 <= 150 -> GetBlock s' 50 = None).
Proof.
  apply (PruneBlocks_window (mkBadgerStore ∅ (Some 150)) 100 150 50);
    unfold Int.is_uint64, Int.two64; lia.
Defined.

(** ** Epoch keys *)

(** ** Digest lengths and epoch keys *)

Lemma xor_lanes_length (A L : list Z) : length (Keccak.xor_lanes A L) = length A.
Proof.
  revert L. induction A as [|a A IH]; intros [|l L]; cbn; try reflexivity.
  now rewrite IH.
Qed.

Lemma round_length (A : list Z) (rc : Z) : length (Keccak.round A rc) = 25%nat.
Proof.
  unfold Keccak.round, Keccak.iota.
  assert (H : length (Keccak.chi (Keccak.rho_pi (Keccak.theta A))) = 25%nat).
  { unfold Keccak.chi. now rewrite length_map. }
  destruct (Keccak.chi _) as [|a t]; [discriminate|exact H].
Qed.

Lemma fold_round_length (rcs : list Z) (A : list Z) :
  length A = 25%nat -> length (fold_left Keccak.round rcs A) = 25%nat.
Proof.
  revert A. induction rcs as [|rc rcs IH]; intros A H; cbn; [exact H|].
  apply IH, round_length.
Qed.

Lemma absorb_length (rate n : nat) (bs A : list Z) :
  length A = 25%nat -> length (Keccak.absorb rate n bs A) = 25%nat.
Proof.
  revert bs A. induction n as [|n IH]; intros bs A H; cbn [Keccak.absorb]; [exact H|].
  apply IH. unfold Keccak.keccak_f. apply fold_round_length.
  now rewrite xor_lanes_length.
Qed.

Lemma from_lanes_length (A : list Z) : length (Keccak.from_lanes A) = (8 * length A)%nat.
Proof.
  unfold Keccak.from_lanes. induction A as [|a A IH]; [reflexivity|].
  cbn [map concat]. rewrite length_app, IH, length_le_bytes. cbn [length]. lia.
Qed.

(** A sponge with an output of at most 200 bytes gives that many. *)
Lemma sponge_length (rate outlen : nat) (d : Z) (msg : list Z) :
  (outlen <= 200)%nat -> length (Keccak.sponge rate outlen d msg) = outlen.
Proof.
  intros H. unfold Keccak.sponge. rewrite length_take, from_lanes_length.
  rewrite absorb_length by (now rewrite repeat_length). lia.
Qed.

Lemma sha3_256_length (msg : list Z) : length (sha3_256 msg) = 32%nat.
Proof. apply sponge_length. lia. Qed.

Lemma Keccak256_length (msg : list Z) : length (Keccak256 msg) = 32%nat.
Proof. apply sponge_length. lia. Qed.

Lemma Hash_length (h : option header.Header) : length (header.Hash h) = 32%nat.
Proof. destruct h; [apply sha3_256_length|reflexivity]. Qed.

Lemma copy_into_all (n : nat) (src : list Z) :
  length src = n -> copy_into (repeat 0 n) 0 n src = src.
Proof.
  intros <-. unfold copy_into. rewrite Nat.min_id. cbn [Nat.add].
  rewrite take_0, firstn_all. cbn [app].
  rewrite drop_ge by (rewrite repeat_length; lia). apply app_nil_r.
Qed.

(** X6.  The epoch key.  [EpochKey] reads one header: the one at height
    0 for epoch 0, at height [epoch * EpochBlocks - 1] (in 64-bit
    unsigned arithmetic) for any other epoch.  When the reader has no
    such header the key is 32 zero bytes.  Otherwise it is the SHA3-256
    digest of the 40 bytes made of that header's hash followed by the
    epoch in 8 little-endian bytes.  Either way the key has 32 bytes. *)
Theorem EpochKey_spec {S : Type} (EpochBlocks : Z)
    (HeaderByHeight : S -> Z -> option header.Header * S)
    (epoch : Z) (st st' : S) (r : option header.Header)
    (Hepoch : Int.is_uint64 epoch)
    (Hread : HeaderByHeight st
               (if epoch =? 0 then 0 else (epoch * EpochBlocks - 1) mod 2 ^ 64)
             = (r, st')) :
  keyschedule.EpochKey EpochBlocks HeaderByHeight epoch st =
    (match r with
     | None => repeat 0 32%nat
     | Some hdr => sha3_256 (header.Hash (Some hdr) ++ le_bytes 8 epoch)
     end, st') /\
  length (keyschedule.EpochKey EpochBlocks HeaderByHeight epoch st).1 = 32%nat /\
  (forall hdr, r = Some hdr ->
     length (header.Hash (Some hdr) ++ le_bytes 8 epoch) = 40%nat).
Proof.
  assert (Hkey : keyschedule.EpochKey EpochBlocks HeaderByHeight epoch st =
    (match r with
     | None => repeat 0 32%nat
     | Some hdr => sha3_256 (header.Hash (Some hdr) ++ le_bytes 8 epoch)
     end, st')).
  { unfold keyschedule.EpochKey, Int.to_uint64, Int.two64.
    replace (((epoch * EpochBlocks) mod 2 ^ 64 - 1) mod 2 ^ 64)
      with ((epoch * EpochBlocks - 1) mod 2 ^ 64)
      by (rewrite <- (Zminus_mod_idemp_l (epoch * EpochBlocks)); reflexivity).
    rewrite Hread. destruct r as [hdr|]; [|reflexivity].
    f_equal. rewrite copy_into_all by apply sha3_256_length.
    f_equal.
    pose proof (Hash_length (Some hdr)) as Hl.
    rewrite PutUint64_le_bytes.
    unfold copy_into. rewrite Hl, length_le_bytes. cbn [Nat.min Nat.add].
    rewrite take_0. cbn [app].
    rewrite (firstn_all2 (header.Hash (Some hdr))) by lia.
    rewrite (firstn_all2 (le_bytes 8 epoch)) by (rewrite length_le_bytes; lia).
    rewrite take_app_length' by (symmetry; exact Hl).
    rewrite drop_ge by (rewrite length_app, Hl, length_drop, repeat_length; lia).
    now rewrite !app_nil_r. }
  split; [exact Hkey|]. split.
  - rewrite Hkey. cbn [fst]. destruct r; [apply sha3_256_length|apply repeat_length].
  - intros hdr _. rewrite length_app, Hash_length, length_le_bytes. reflexivity.
Qed.

Lemma EpochKey_spec_witness :
  let hdr := header.mkHeader 1 header.zero_hash 0 (Some (-1000)) 0 header.zero_hash 0 in
  keyschedule.EpochKey 1 mockChain_HeaderByHeight 2 retarget_chain =
    (sha3_256 (header.Hash (Some hdr) ++ le_bytes 8 2), retarget_chain) /\
  length (keyschedule.EpochKey 1 mockChain_HeaderByHeight 2 retarget_chain).1 = 32%nat /\
  (forall hdr', Some hdr = Some hdr' ->
     length (header.Hash (Some hdr') ++ le_bytes 8 2) = 40%nat).
Proof.
  apply (EpochKey_spec 1 mockChain_HeaderByHeight 2 retarget_chain retarget_chain
           (Some (header.mkHeader 1 header.zero_hash 0 (Some (-1000)) 0 header.zero_hash 0))).
  - unfold Int.is_uint64, Int.two64. lia.
  - reflexivity.
Defined.

(** ** Block requests: the response in general *)

(** ** Block requests: every request *)

Lemma collect_spec (c : Chain) (fuel : nat) :
  forall (h to : Z) (acc : list Block),
    0 <= h -> to < Int.max_uint64 -> Z.max 0 (to - h + 1) < Z.of_nat fuel ->
    net.collect fuel c h to acc
      = Done (acc ++ omap (BlockByHeight c) (seqZ h (to - h + 1))).
Proof.
  unfold Int.max_uint64, Int.two64.
  induction fuel as [|fuel IH]; intros h to acc Hh Hto Hfuel.
  - lia.
  - cbn [net.collect]. destruct (Z.leb_spec h to) as [Hle|Hgt].
    + unfold Int.to_uint64, Int.two64. rewrite (Z.mod_small (h + 1)) by lia.
      assert (H1 : 0 <= h + 1) by lia.
      assert (H3 : Z.max 0 (to - (h + 1) + 1) < Z.of_nat fuel) by lia.
      rewrite (IH (h + 1) to _ H1 Hto H3).
      replace (to - h + 1) with (Z.succ (to - (h + 1) + 1)) by lia.
      rewrite (seqZ_cons h) by lia. cbn [omap list_omap].
      replace (Z.pred (Z.succ (to - (h + 1) + 1))) with (to - (h + 1) + 1) by lia.
      replace (Z.succ h) with (h + 1) by lia.
      destruct (BlockByHeight c h); cbn; [now rewrite <- app_assoc|reflexivity].
    + rewrite seqZ_nil by lia. cbn. now rewrite app_nil_r.
Qed.

Lemma collect_forever (c : Chain) (fuel : nat) :
  forall (h : Z) (acc : list Block),
    Int.is_uint64 h -> net.collect fuel c h Int.max_uint64 acc = OutOfFuel.
Proof.
  unfold Int.is_uint64, Int.max_uint64, Int.two64.
  induction fuel as [|fuel IH]; intros h acc Hh; cbn [net.collect]; [reflexivity|].
  destruct (Z.leb_spec h (2 ^ 64 - 1)); [|lia].
  apply IH. unfold Int.to_uint64, Int.two64. apply Z.mod_pos_bound. lia.
Qed.

Lemma omap_length_le {A B : Type} (f : A -> option B) (l : list A) :
  (length (omap f l) <= length l)%nat.
Proof.
  induction l as [|a l IH]; cbn; [lia|]. destruct (f a); cbn; lia.
Qed.

Lemma cap_span (req : net.BlockRequest) :
  Int.is_uint64 (net.From req) -> Int.is_uint64 (net.To req) ->
  net.From (net.cap req) = net.From req /\
  Int.is_uint64 (net.To (net.cap req)) /\
  net.To (net.cap req) - net.From req + 1 <= 513.
Proof.
  unfold Int.is_uint64, Int.two64, net.cap, Int.to_uint64, Int.two64.
  intros Hf Ht.
  destruct (Z.ltb_spec 512 ((net.To req - net.From req) mod 2 ^ 64)) as [Hc|Hc];
    cbn [net.From net.To].
  - split; [reflexivity|]. split; [apply Z.mod_pos_bound; lia|].
    destruct (Z_lt_le_dec (net.From req + 512) (2 ^ 64)).
    + rewrite Z.mod_small by lia. lia.
    + replace (net.From req + 512) with (net.From req + 512 - 2 ^ 64 + 1 * 2 ^ 64) by lia.
      rewrite Z.mod_add by lia. rewrite Z.mod_small by lia. lia.
  - split; [reflexivity|]. split; [lia|].
    destruct (Z_lt_le_dec (net.To req) (net.From req)); [lia|].
    rewrite Z.mod_small in Hc by lia. lia.
Qed.

(** X7.  What a block request is answered with.  For every request
    whose range, once capped, does not end at the largest 64-bit
    height, the responder's loop ends, and the response holds, in
    ascending order of height, exactly the blocks the main chain has at
    the heights from [From] to the capped [To]; it never holds more
    than 513 blocks. *)
Theorem handleBlockReq_response (c : Chain) (req : net.BlockRequest) (fuel : nat)
    (Hfrom : Int.is_uint64 (net.From req)) (Hto : Int.is_uint64 (net.To req))
    (Hend : net.To (net.cap req) < Int.max_uint64)
    (Hfuel : (514 < fuel)%nat) :
  let served := seqZ (net.From req) (net.To (net.cap req) - net.From req + 1) in
  net.handleBlockReq fuel c req = Done (omap (BlockByHeight c) served) /\
  (length (omap (BlockByHeight c) served) <= 513)%nat /\
  (forall b, In b (omap (BlockByHeight c) served) <->
     exists h, net.From req <= h <= net.To (net.cap req) /\ BlockByHeight c h = Some b).
Proof.
  destruct (cap_span req Hfrom Hto) as (Hf & Hu & Hspan). cbv zeta.
  split; [|split].
  - unfold net.handleBlockReq. rewrite Hf.
    rewrite collect_spec; [reflexivity| | |].
    + unfold Int.is_uint64 in Hfrom. lia.
    + exact Hend.
    + lia.
  - etransitivity; [apply omap_length_le|]. rewrite length_seqZ. lia.
  - intros b. rewrite <- list_elem_of_In, list_elem_of_omap. split.
    + intros (h & Hin & Hb). apply elem_of_seqZ in Hin. exists h. split; [lia|exact Hb].
    + intros (h & Hr & Hb). exists h. split; [|exact Hb]. apply elem_of_seqZ. lia.
Qed.

Lemma handleBlockReq_response_witness :
  let req := net.mkBlockRequest 598 1000 in
  let served := seqZ 598 (net.To (net.cap req) - 598 + 1) in
  net.handleBlockReq 515 long_chain req = Done (omap (BlockByHeight long_chain) served) /\
  (length (omap (BlockByHeight long_chain) served) <= 513)%nat /\
  (forall b, In b (omap (BlockByHeight long_chain) served) <->
     exists h, 598 <= h <= net.To (net.cap req) /\ BlockByHeight long_chain h = Some b).
Proof.
  apply (handleBlockReq_response long_chain (net.mkBlockRequest 598 1000) 515).
  - unfold Int.is_uint64, Int.two64. cbn. lia.
  - unfold Int.is_uint64, Int.two64. cbn. lia.
  - vm_compute. reflexivity.
  - lia.
Defined.

(** X8.  The request the responder never answers.  When the range, once
    capped, ends at the largest 64-bit height (a request for that one
    height is enough), the loop counter wraps to zero instead of passing
    [To]: however many iterations are allowed, the loop has not ended
    and no response is produced. *)
Theorem handleBlockReq_never_ends (c : Chain) (req : net.BlockRequest) (fuel : nat)
    (Hfrom : Int.is_uint64 (net.From req))
    (Hend : net.To (net.cap req) = Int.max_uint64) :
  net.handleBlockReq fuel c req = OutOfFuel.
Proof.
  unfold net.handleBlockReq. rewrite Hend. apply collect_forever.
  unfold net.cap. destruct (512 <? _); exact Hfrom.
Qed.

Lemma handleBlockReq_never_ends_witness :
  net.handleBlockReq 1000 genesis_chain
    (net.mkBlockRequest Int.max_uint64 Int.max_uint64) = OutOfFuel.
Proof.
  apply (handleBlockReq_never_ends genesis_chain
           (net.mkBlockRequest Int.max_uint64 Int.max_uint64) 1000).
  - unfold Int.is_uint64, Int.max_uint64, Int.two64. cbn. lia.
  - vm_compute. reflexivity.
Defined.

(** ** New heads and parent requests *)

(** ** Sync protocol: announcements and requests *)

Lemma cap_To_le (req : net.BlockRequest) :
  Int.is_uint64 (net.From req) -> Int.is_uint64 (net.To req) ->
  net.From req <= net.To req ->
  net.From req <= net.To (net.cap req) <= net.To req /\
  net.To (net.cap req) <= net.From req + 512.
Proof.
  unfold Int.is_uint64, Int.two64, net.cap, Int.to_uint64, Int.two64.
  intros Hf Ht Hle. rewrite (Z.mod_small (net.To req - net.From req)) by lia.
  destruct (Z.ltb_spec 512 (net.To req - net.From req)); cbn [net.From net.To]; [|lia].
  rewrite Z.mod_small by lia. lia.
Qed.

(** X9.  A head announcement.  The best height known from peers
    becomes the larger of its old value and the announced height, so it
    never decreases.  No blocks are requested for an announcement at or
    below the local head (height 0 included); for one above it, the
    request is for the heights from [head + 1] to the announced height,
    and a peer's answer to that request holds only blocks it has at
    heights above the local head and up to the announced one. *)
Theorem handleNewHead_request (c peer : Chain) (bestKnownHeight : Z)
    (msg : p2p.NewHeadMsg) (fuel : nat)
    (Hhead : Int.is_uint64 (head c))
    (Hbest : Int.is_uint64 bestKnownHeight)
    (Hmsg : 0 <= p2p.Height msg < Int.max_uint64)
    (Hfuel : (514 < fuel)%nat) :
  let r := p2p.handleNewHead c bestKnownHeight msg in
  r.1 = Z.max bestKnownHeight (p2p.Height msg) /\
  (p2p.Height msg <= head c -> r.2 = None) /\
  (head c < p2p.Height msg ->
     r.2 = Some (net.mkBlockRequest (head c + 1) (p2p.Height msg)) /\
     exists blocks,
       net.handleBlockReq fuel peer
         (net.mkBlockRequest (head c + 1) (p2p.Height msg)) = Done blocks /\
       forall b, In b blocks ->
         exists h, head c < h <= p2p.Height msg /\ BlockByHeight peer h = Some b).
Proof.
  unfold Int.is_uint64, Int.max_uint64, Int.two64 in *. cbv zeta.
  unfold p2p.handleNewHead, CurrentHeight.
  destruct (Z.eqb_spec (p2p.Height msg) 0) as [E0|N0]; cbn [fst snd].
  { split; [lia|]. split; [reflexivity|]. intros; lia. }
  assert (Hbk : (if bestKnownHeight <? p2p.Height msg then p2p.Height msg
                 else bestKnownHeight) = Z.max bestKnownHeight (p2p.Height msg)).
  { destruct (Z.ltb_spec bestKnownHeight (p2p.Height msg)); lia. }
  destruct (Z.leb_spec (p2p.Height msg) (head c)) as [Hle|Hgt]; cbn [fst snd].
  { split; [exact Hbk|]. split; [reflexivity|]. intros; lia. }
  split; [exact Hbk|]. split; [intros; lia|]. intros _.
  unfold Int.to_uint64, Int.two64. rewrite Z.mod_small by lia.
  split; [reflexivity|].
  set (req := net.mkBlockRequest (head c + 1) (p2p.Height msg)).
  assert (Hf : Int.is_uint64 (net.From req)) by (unfold Int.is_uint64, Int.two64; cbn; lia).
  assert (Ht : Int.is_uint64 (net.To req)) by (unfold Int.is_uint64, Int.two64; cbn; lia).
  destruct (cap_span req Hf Ht) as (HF & _ & _).
  destruct (cap_To_le req Hf Ht) as [[Hlo Hhi] _]; [cbn; lia|].
  cbn [net.From net.To req] in Hlo, Hhi.
  eexists. split.
  - unfold net.handleBlockReq. rewrite HF. apply collect_spec.
    + cbn. lia.
    + unfold Int.max_uint64, Int.two64. cbn [net.To req] in *. lia.
    + destruct (cap_span req Hf Ht) as (_ & _ & Hs). cbn [net.From req] in *. lia.
  - intros b Hb. cbn [app] in Hb.
    apply list_elem_of_In, list_elem_of_omap in Hb as (h & Hin & Hb).
    apply elem_of_seqZ in Hin. cbn [net.From req] in Hin.
    exists h. split; [lia|exact Hb].
Qed.

Lemma handleNewHead_request_witness :
  let msg := p2p.mkNewHeadMsg 601 [] [] in
  let r := p2p.handleNewHead genesis_chain 5 msg in
  r.1 = Z.max 5 601 /\
  (601 <= head genesis_chain -> r.2 = None) /\
  (head genesis_chain < 601 ->
     r.2 = Some (net.mkBlockRequest (head genesis_chain + 1) 601) /\
     exists blocks,
       net.handleBlockReq 515 long_chain
         (net.mkBlockRequest (head genesis_chain + 1) 601) = Done blocks /\
       forall b, In b blocks ->
         exists h, head genesis_chain < h <= 601 /\ BlockByHeight long_chain h = Some b).
Proof.
  apply (handleNewHead_request genesis_chain long_chain 5 (p2p.mkNewHeadMsg 601 [] []) 515).
  - change (head genesis_chain) with 0. unfold Int.is_uint64, Int.two64. lia.
  - unfold Int.is_uint64, Int.two64. lia.
  - unfold Int.max_uint64, Int.two64. cbn. lia.
  - lia.
Defined.

Lemma have_block_found (c : Chain) (parentHash : list Z) (k : Z) (b : Block) (fuel : nat) :
  forall h,
    0 <= h <= k -> k <= head c -> head c < 2 ^ 64 ->
    blocks c !! k = Some b -> Block_Hash b = parentHash ->
    k - h < Z.of_nat fuel ->
    p2p.have_block fuel c h parentHash = Done true.
Proof.
  induction fuel as [|fuel IH]; intros h Hh Hk Hhead Hb Hhash Hfuel; [lia|].
  cbn [p2p.have_block]. unfold CurrentHeight, BlockByHeight.
  destruct (Z.leb_spec h (head c)); [|lia].
  assert (Hnext : h < k ->
    p2p.have_block fuel c (Int.to_uint64 (h + 1)) parentHash = Done true).
  { intros Hlt. unfold Int.to_uint64, Int.two64. rewrite Z.mod_small by lia.
    apply IH; try assumption; lia. }
  destruct (Z.eq_dec h k) as [->|Hne].
  - rewrite Hb. now rewrite bool_decide_eq_true_2.
  - destruct (blocks c !! h) as [blk|]; [|apply Hnext; lia].
    destruct (bool_decide (Block_Hash blk = parentHash)); [reflexivity|apply Hnext; lia].
Qed.

Lemma have_block_none (c : Chain) (parentHash : list Z) (fuel : nat) :
  forall h,
    0 <= h -> head c < 2 ^ 64 - 1 ->
    (forall k b, h <= k <= head c -> blocks c !! k = Some b -> Block_Hash b <> parentHash) ->
    Z.max 0 (head c - h + 1) < Z.of_nat fuel ->
    p2p.have_block fuel c h parentHash = Done false.
Proof.
  induction fuel as [|fuel IH]; intros h Hh Hhead Hno Hfuel; [lia|].
  cbn [p2p.have_block]. unfold CurrentHeight, BlockByHeight.
  destruct (Z.leb_spec h (head c)) as [Hle|Hgt]; [|reflexivity].
  assert (Hnext : p2p.have_block fuel c (Int.to_uint64 (h + 1)) parentHash = Done false).
  { unfold Int.to_uint64, Int.two64. rewrite Z.mod_small by lia.
    apply IH; try lia. intros k b Hk. apply Hno. lia. }
  destruct (blocks c !! h) as [blk|] eqn:E; [|exact Hnext].
  rewrite bool_decide_eq_false_2; [exact Hnext|].
  apply (Hno h); [lia|exact E].
Qed.

Lemma find_none_filed (parentHash : list Z) (l : list Block) :
  (forall o, In o l -> header.ParentHash (Header o) <> parentHash) ->
  List.find (fun orphan => bool_decide (header.ParentHash (Header orphan) = parentHash)) l
    = None.
Proof.
  induction l as [|o l IH]; intros H; [reflexivity|]. simpl.
  rewrite bool_decide_eq_false_2 by (apply H; now left).
  apply IH. intros o' Ho'. apply H. now right.
Qed.

Lemma find_orphan_none (order : list (list Z)) (pool : gmap (list Z) (list Block))
    (parentHash : list Z) :
  (forall k l o, pool !! k = Some l -> In o l ->
     header.ParentHash (Header o) <> parentHash) ->
  p2p.find_orphan order pool parentHash = None.
Proof.
  intros H. induction order as [|k order IH]; [reflexivity|]. cbn [p2p.find_orphan].
  rewrite find_none_filed; [exact IH|].
  intros o Ho. destruct (pool !! k) as [l|] eqn:E; [|destruct Ho].
  apply (H k l o E Ho).
Qed.

Lemma find_orphan_filed (order : list (list Z)) (pool : gmap (list Z) (list Block))
    (parentHash : list Z) (o : Block) (rest : list Block) :
  pool_filed pool ->
  pool !! parentHash = Some (o :: rest) ->
  In parentHash order ->
  p2p.find_orphan order pool parentHash = Some (header.Height (Header o)).
Proof.
  intros Hfiled Hp. induction order as [|k order IH]; intros Hin; [destruct Hin|].
  cbn [p2p.find_orphan].
  destruct (decide (k = parentHash)) as [->|Hne].
  - rewrite Hp. simpl.
    rewrite bool_decide_eq_true_2; [reflexivity|].
    apply (Hfiled parentHash (o :: rest) o Hp). now left.
  - rewrite find_none_filed.
    + apply IH. destruct Hin as [E|Hin]; [congruence|exact Hin].
    + intros o' Ho'. destruct (pool !! k) as [l|] eqn:E; [|destruct Ho'].
      rewrite (Hfiled k l o' E Ho'). exact Hne.
Qed.

(** X10.  Which blocks [RequestBlockByHash] asks for.  On a chain whose
    head is below the largest height: when a block of the main chain up
    to the head has the wanted hash, nothing is requested.  Otherwise,
    when the orphan pool, every orphan filed under its parent hash,
    holds orphans waiting for that hash and the first of them has a
    height [H > 1], the request is for the heights 1 to [H] whatever the
    order in which the pool is ranged over; once the responder's cap is
    applied that range ends at height 513 at most, so for [H > 514] it
    does not reach the wanted parent at [H - 1].  When no orphan waits
    for that hash, the request is for the head and the 100 heights
    before it (from height 0 when the head is at most 100). *)
Theorem RequestBlockByHash_ranges (c : Chain) (order : list (list Z))
    (parentHash : list Z) (fuel : nat)
    (Hhead : 0 <= head c < Int.max_uint64)
    (Hfuel : head c + 1 < Z.of_nat fuel) :
  (forall k b, 0 <= k <= head c -> blocks c !! k = Some b ->
     Block_Hash b = parentHash ->
     p2p.RequestBlockByHash fuel order c parentHash = Done None) /\
  ((forall k b, 0 <= k <= head c -> blocks c !! k = Some b ->
      Block_Hash b <> parentHash) ->
   (forall o rest,
      pool_filed (OrphanPool c) -> In parentHash order ->
      OrphanPool c !! parentHash = Some (o :: rest) ->
      1 < header.Height (Header o) < 2 ^ 64 ->
      let req := net.mkBlockRequest 1 (header.Height (Header o)) in
      p2p.RequestBlockByHash fuel order c parentHash = Done (Some req) /\
      net.To (net.cap req) <= 513 /\
      (514 < header.Height (Header o) ->
         net.To (net.cap req) < header.Height (Header o) - 1)) /\
   ((forall k l o, OrphanPool c !! k = Some l -> In o l ->
       header.ParentHash (Header o) <> parentHash) ->
    p2p.RequestBlockByHash fuel order c parentHash
      = Done (Some (net.mkBlockRequest (Z.max 0 (head c - 100)) (head c))))).
Proof.
  unfold Int.max_uint64, Int.two64 in Hhead. split.
  - intros k b Hk Hb Hhash. unfold p2p.RequestBlockByHash.
    rewrite (have_block_found c parentHash k b fuel 0); try assumption; try lia.
    reflexivity.
  - intros Hno.
    assert (Hscan : p2p.have_block fuel c 0 parentHash = Done false).
    { apply have_block_none; try lia. intros k b Hk. now apply Hno. }
    split.
    + intros o rest Hfiled Hin Hpool Hheight req.
      unfold p2p.RequestBlockByHash. rewrite Hscan. cbn [obind].
      rewrite (find_orphan_filed order _ parentHash o rest Hfiled Hpool Hin).
      destruct (Z.ltb_spec 1 (header.Height (Header o))); [|lia].
      split; [reflexivity|].
      assert (Hf : Int.is_uint64 (net.From req)) by (unfold Int.is_uint64, Int.two64; cbn; lia).
      assert (Ht : Int.is_uint64 (net.To req)) by (unfold Int.is_uint64, Int.two64; cbn; lia).
      destruct (cap_To_le req Hf Ht) as [_ Hcap]; [cbn; lia|].
      cbn [net.From req] in Hcap. split; lia.
    + intros Hnone. unfold p2p.RequestBlockByHash. rewrite Hscan. cbn [obind].
      rewrite find_orphan_none by exact Hnone. unfold CurrentHeight.
      destruct (Z.ltb_spec 100 (head c)); do 3 f_equal; lia.
Qed.

Lemma RequestBlockByHash_ranges_witness :
  let c := orphaned_chain in
  let order := [Block_Hash fork_2] in
  let parentHash := Block_Hash fork_2 in
  (forall k b, 0 <= k <= head c -> blocks c !! k = Some b ->
     Block_Hash b = parentHash ->
     p2p.RequestBlockByHash 5 order c parentHash = Done None) /\
  ((forall k b, 0 <= k <= head c -> blocks c !! k = Some b ->
      Block_Hash b <> parentHash) ->
   (forall o rest,
      pool_filed (OrphanPool c) -> In parentHash order ->
      OrphanPool c !! parentHash = Some (o :: rest) ->
      1 < header.Height (Header o) < 2 ^ 64 ->
      let req := net.mkBlockRequest 1 (header.Height (Header o)) in
      p2p.RequestBlockByHash 5 order c parentHash = Done (Some req) /\
      net.To (net.cap req) <= 513 /\
      (514 < header.Height (Header o) ->
         net.To (net.cap req) < header.Height (Header o) - 1)) /\
   ((forall k l o, OrphanPool c !! k = Some l -> In o l ->
       header.ParentHash (Header o) <> parentHash) ->
    p2p.RequestBlockByHash 5 order c parentHash
      = Done (Some (net.mkBlockRequest (Z.max 0 (head c - 100)) (head c))))).
Proof.
  apply (RequestBlockByHash_ranges orphaned_chain [Block_Hash fork_2] (Block_Hash fork_2) 5).
  - change (head orphaned_chain) with 0. unfold Int.max_uint64, Int.two64. lia.
  - change (head orphaned_chain) with 0. lia.
Defined.

(** ** Total issuance *)

(** ** Subsidy schedule: the whole issuance *)

Lemma GetSubsidy_shift (h : Z) :
  0 <= h -> GetSubsidy h = 50 / 2 ^ (h / 210000).
Proof.
  intros Hh. unfold GetSubsidy, InitialSubsidy, HalvingBlocks, Int.quo, Big.Rsh.
  rewrite Z.quot_div_nonneg by lia.
  assert (0 <= h / 210000) by (apply Z.div_pos; lia).
  destruct (Z.leb_spec 64 (h / 210000)) as [Hbig|Hsmall].
  - symmetry. apply Z.div_small. split; [lia|].
    apply Z.lt_le_trans with (2 ^ 64); [reflexivity|].
    apply Z.pow_le_mono_r; lia.
  - apply Z.shiftr_div_pow2. lia.
Qed.

Lemma GetSubsidy_nonneg (h : Z) : 0 <= h -> 0 <= GetSubsidy h.
Proof.
  intros Hh. rewrite GetSubsidy_shift by exact Hh.
  apply Z.div_pos; [lia|]. apply Z.pow_pos_nonneg; [lia|]. apply Z.div_pos; lia.
Qed.

Lemma GetSubsidy_era (k h : Z) :
  0 <= k -> 210000 * k <= h < 210000 * k + 210000 -> GetSubsidy h = 50 / 2 ^ k.
Proof.
  intros Hk Hh. rewrite GetSubsidy_shift by lia. do 2 f_equal.
  symmetry. apply (Z.div_unique h 210000 k (h - 210000 * k)); lia.
Qed.

Lemma subsidies_app (from n1 n2 : Z) :
  0 <= n1 -> 0 <= n2 ->
  subsidies from (n1 + n2) = subsidies from n1 + subsidies (from + n1) n2.
Proof.
  intros H1 H2. unfold subsidies. rewrite seqZ_app by assumption.
  rewrite map_app. generalize (map GetSubsidy (seqZ from n1)) as l1.
  intros l1. induction l1 as [|a l1 IH]; cbn; [reflexivity|]. rewrite IH. lia.
Qed.

Lemma subsidies_const (v from : Z) (n : nat) :
  (forall h, from <= h < from + Z.of_nat n -> GetSubsidy h = v) ->
  subsidies from (Z.of_nat n) = v * Z.of_nat n.
Proof.
  induction n as [|n IH]; intros H.
  - unfold subsidies. rewrite seqZ_nil by lia. cbn. lia.
  - replace (Z.of_nat (S n)) with (Z.of_nat n + 1) by lia.
    rewrite subsidies_app by lia. rewrite IH by (intros h Hh; apply H; lia).
    unfold subsidies. rewrite (seqZ_cons (from + Z.of_nat n) 1) by lia.
    rewrite seqZ_nil by lia. cbn. rewrite H by lia. lia.
Qed.

Lemma subsidies_nonneg (from : Z) (n : nat) :
  0 <= from -> 0 <= subsidies from (Z.of_nat n).
Proof.
  intros Hf. induction n as [|n IH].
  - unfold subsidies. rewrite seqZ_nil by lia. cbn. lia.
  - replace (Z.of_nat (S n)) with (Z.of_nat n + 1) by lia.
    rewrite subsidies_app by lia.
    unfold subsidies at 2. rewrite (seqZ_cons (from + Z.of_nat n) 1) by lia.
    rewrite seqZ_nil by lia. cbn.
    pose proof (GetSubsidy_nonneg (from + Z.of_nat n) ltac:(lia)). lia.
Qed.

Lemma subsidies_const_Z (v from n : Z) :
  0 <= n ->
  (forall h, from <= h < from + n -> GetSubsidy h = v) ->
  subsidies from n = v * n.
Proof.
  intros Hn H. rewrite <- (Z2Nat.id n Hn). apply subsidies_const.
  intros h Hh. apply H. rewrite Z2Nat.id in Hh by exact Hn. exact Hh.
Qed.

Lemma subsidies_era (k : Z) :
  0 <= k -> subsidies (210000 * k) 210000 = 50 / 2 ^ k * 210000.
Proof.
  intros Hk. apply subsidies_const_Z; [lia|].
  intros h Hh. apply GetSubsidy_era; [exact Hk|exact Hh].
Qed.

Lemma issued_1260000 : issued 1260000 = 20370000.
Proof.
  unfold issued.
  change 1260000 with (210000 + (210000 + (210000 + (210000 + (210000 + 210000))))).
  rewrite !subsidies_app by lia.
  pose proof (subsidies_era 0 ltac:(lia)) as E0.
  pose proof (subsidies_era 1 ltac:(lia)) as E1.
  pose proof (subsidies_era 2 ltac:(lia)) as E2.
  pose proof (subsidies_era 3 ltac:(lia)) as E3.
  pose proof (subsidies_era 4 ltac:(lia)) as E4.
  pose proof (subsidies_era 5 ltac:(lia)) as E5.
  change (210000 * 0) with 0 in E0. change (210000 * 1) with (0 + 210000) in E1.
  change (210000 * 2) with (0 + 210000 + 210000) in E2.
  change (210000 * 3) with (0 + 210000 + 210000 + 210000) in E3.
  change (210000 * 4) with (0 + 210000 + 210000 + 210000 + 210000) in E4.
  change (210000 * 5) with (0 + 210000 + 210000 + 210000 + 210000 + 210000) in E5.
  rewrite E0, E1, E2, E3, E4, E5. reflexivity.
Qed.

Lemma subsidies_after_sixth (n : Z) :
  0 <= n -> subsidies 1260000 n = 0.
Proof.
  intros Hn. rewrite (subsidies_const_Z 0); [apply Z.mul_0_l|exact Hn|].
  intros h Hh. rewrite GetSubsidy_shift by lia.
  apply Z.div_small. split; [lia|].
  apply Z.lt_le_trans with (2 ^ 6); [reflexivity|].
  apply Z.pow_le_mono_r; [lia|]. apply Z.div_le_lower_bound; lia.
Qed.

Lemma subsidies_nonneg_Z (from n : Z) : 0 <= from -> 0 <= n -> 0 <= subsidies from n.
Proof.
  intros Hf Hn. rewrite <- (Z2Nat.id n Hn). now apply subsidies_nonneg.
Qed.

Lemma issued_le (n m : Z) : 0 <= n <= m -> issued n <= issued m.
Proof.
  intros H. unfold issued.
  assert (E : m = n + (m - n)) by lia. rewrite E at 1.
  rewrite subsidies_app by lia.
  pose proof (subsidies_nonneg_Z (0 + n) (m - n)). lia.
Qed.
Lemma issued_split (a m : Z) :
  0 <= a <= m -> issued m = issued a + subsidies a (m - a).
Proof.
  intros H. unfold issued.
  assert (E : m = a + (m - a)) by lia. rewrite E at 1.
  rewrite subsidies_app by lia. reflexivity.
Qed.

Lemma issued_late (m : Z) : 1260000 <= m -> issued m = 20370000.
Proof.
  intros Hm.
  rewrite (issued_split 1260000 m) by lia.
  rewrite subsidies_after_sixth by lia.
  rewrite issued_1260000.
  apply Z.add_0_r.
Qed.
(** X11.  The whole issuance.  The subsidy never grows with the height.
    The subsidies of the first [n] heights add up to 20,370,000 at most,
    and to exactly that from [n = 1,260,000] on: nothing is issued after
    the sixth halving. *)
Theorem GetSubsidy_total_issuance (h1 h2 n : Z)
    (Hh : 0 <= h1 <= h2) (Hn : 0 <= n) :
  GetSubsidy h2 <= GetSubsidy h1 /\
  issued n <= 20370000 /\
  (1260000 <= n -> issued n = 20370000).
Proof.
  split; [|split].
  - rewrite !GetSubsidy_shift by lia.
    apply Z.div_le_compat_l; [lia|]. split.
    + apply Z.pow_pos_nonneg; [lia|]. apply Z.div_pos; lia.
    + apply Z.pow_le_mono_r; [lia|]. apply Z.div_le_mono; lia.
  - destruct (Z_le_gt_dec n 1260000) as [Hle|Hgt].
    + pose proof (issued_le n 1260000 (conj Hn Hle)) as H.
      pose proof (issued_late 1260000 (Z.le_refl _)) as E.
      rewrite E in H. exact H.
    + rewrite issued_late by lia. apply Z.le_refl.
  - apply issued_late.
Qed.

Lemma GetSubsidy_total_issuance_witness :
  GetSubsidy 420000 <= GetSubsidy 209999 /\
  issued 2000000 <= 20370000 /\
  (1260000 <= 2000000 -> issued 2000000 = 20370000).
Proof.
  apply (GetSubsidy_total_issuance 209999 420000 2000000).
  - split; [intro H; discriminate H|intro H; discriminate H].
  - intro H; discriminate H.
Defined.

(** ** Miner and validator prompts *)

Lemma string_app_assoc (a b c : string) :
  ((a ++ b) ++ c = a ++ (b ++ c))%string.
Proof.
  induction a as [|x a IH]; [reflexivity|].
  change (String x ((a ++ b) ++ c) = String x (a ++ b ++ c))%string.
  now rewrite IH.
Qed.

Lemma string_app_length (a b : string) :
  String.length (a ++ b)%string = (String.length a + String.length b)%nat.
Proof.
  induction a as [|x a IH]; [reflexivity|].
  change (S (String.length (a ++ b)%string) = S (String.length a + String.length b)).
  now rewrite IH.
Qed.

Lemma fold_prompt_prefix (qs : list string) (a b : string) :
  fold_left (fun prompt quiz => (prompt ++ quiz ++ validator.newline)%string) qs (a ++ b)%string
  = (a ++ fold_left (fun prompt quiz => (prompt ++ quiz ++ validator.newline)%string) qs b)%string.
Proof.
  revert b. induction qs as [|q qs IH]; intros b; cbn [fold_left]; [reflexivity|].
  rewrite string_app_assoc. apply IH.
Qed.

Lemma string_app_empty (a : string) : (a ++ "")%string = a.
Proof.
  induction a as [|x a IH]; [reflexivity|].
  change (String x (a ++ "") = String x a)%string.
  now rewrite IH.
Qed.

Lemma fold_prompt_start (qs : list string) (a : string) :
  fold_left (fun prompt quiz => (prompt ++ quiz ++ validator.newline)%string) qs a
  = (a ++ validator.make_prompt qs)%string.
Proof.
  unfold validator.make_prompt. rewrite <- fold_prompt_prefix, string_app_empty.
  reflexivity.
Qed.

(** X12. The prompt of the miner is the prompt of the validator put
    between a heading line and a closing line, so the two are never the
    same text and the miner's prompt is never empty.  With the stub
    engine the two sides therefore hash different outputs: the loss the
    miner finds for height 42 and nonce 7 is 4103891601916448166, the
    validator replays -1276699977615973386 for the same block and
    rejects it with the invalid-loss error. *)
Theorem miner_prompt_differs_from_validator :
  (forall quizzes,
     workloop.make_prompt quizzes
     = ("Please answer these questions:" ++ validator.newline
        ++ validator.make_prompt quizzes ++ "Answers:" ++ validator.newline)%string) /\
  (forall quizzes, workloop.make_prompt quizzes <> validator.make_prompt quizzes) /\
  (forall quizzes, String.eqb (workloop.make_prompt quizzes) "" = false) /\
  (forall bits,
     workloop.attempt (inference.mkLLM inference.stub_Infer) 42 7
       = Done (Some 4103891601916448166) /\
     validator.VerifyBlock inference.stub_NewLLM no_recovery
       (replay_block 4103891601916448166 bits) "" 0
       = Done (Some (validator.ErrInvalidLoss (-1276699977615973386) 4103891601916448166))).
Proof.
  assert (Heq : forall quizzes,
     workloop.make_prompt quizzes
     = ("Please answer these questions:" ++ validator.newline
        ++ validator.make_prompt quizzes ++ "Answers:" ++ validator.newline)%string).
  { intros qs. unfold workloop.make_prompt.
    rewrite fold_prompt_start, !string_app_assoc. reflexivity. }
  split; [exact Heq|]. split; [|split].
  - intros qs H. apply (f_equal String.length) in H. rewrite Heq in H.
    rewrite !string_app_length in H. cbn in H. lia.
  - intros qs. apply String.eqb_neq. rewrite Heq. discriminate.
  - intros bits. split; vm_compute; reflexivity.
Qed.

(** ** Imports return and keep the head block *)

Lemma grown_refl (c : Chain) : head_present c -> grown_from c c.
Proof. intros H. repeat split; auto. Qed.

Lemma grown_trans (c1 c2 c3 : Chain) :
  grown_from c1 c2 -> grown_from c2 c3 -> grown_from c1 c3.
Proof.
  intros (_ & F1 & B1) (H2 & F2 & B2). repeat split; auto. congruence.
Qed.

Lemma grown_same (c c' : Chain) :
  blocks c' = blocks c -> head c' = head c ->
  orphanImportInProgress c' = orphanImportInProgress c ->
  head_present c -> grown_from c c'.
Proof.
  intros Hb Hh Hf H. unfold grown_from, head_present. rewrite Hb, Hh.
  repeat split; auto.
Qed.

Lemma grown_insert (c c' : Chain) (h : Z) (b : Block) :
  blocks c' = <[h := b]> (blocks c) ->
  head c' = h \/ (head c' = head c /\ head_present c) ->
  orphanImportInProgress c' = orphanImportInProgress c ->
  grown_from c c'.
Proof.
  intros Hb Hh Hf. unfold grown_from, head_present. rewrite Hb. repeat split.
  - destruct Hh as [-> | [-> H]].
    + rewrite lookup_insert_eq. eauto.
    + destruct (decide (h = head c)) as [-> | Hne].
      * rewrite lookup_insert_eq. eauto.
      * rewrite lookup_insert_ne by exact Hne. exact H.
  - exact Hf.
  - intros k Hk. destruct (decide (h = k)) as [-> | Hne].
    + rewrite lookup_insert_eq. eauto.
    + rewrite lookup_insert_ne by exact Hne. exact Hk.
Qed.

Lemma applyBranchBlock_grown (c0 c : Chain) (blk : Block) :
  blocks c = blocks c0 ->
  orphanImportInProgress c = orphanImportInProgress c0 ->
  grown_from c0 (applyBranchBlock c blk).
Proof.
  intros Hb Hf. apply (grown_insert _ _ (header.Height (Header blk)) blk).
  - unfold applyBranchBlock, persist. cbv zeta.
    destruct (PutBlock _ _ _); cbn; rewrite Hb; reflexivity.
  - left. unfold applyBranchBlock, persist. cbv zeta.
    destruct (PutBlock _ _ _); reflexivity.
  - unfold applyBranchBlock, persist. cbv zeta.
    destruct (PutBlock _ _ _); cbn; exact Hf.
Qed.

Lemma fold_apply_grown (branch : list Block) (c : Chain) :
  head_present c -> grown_from c (fold_left applyBranchBlock branch c).
Proof.
  revert c. induction branch as [|b branch IH]; intros c H; cbn [fold_left].
  - apply grown_refl, H.
  - assert (Hb : grown_from c (applyBranchBlock c b))
      by (apply applyBranchBlock_grown; reflexivity).
    exact (grown_trans _ _ _ Hb (IH _ (proj1 Hb))).
Qed.

Lemma checkReorg_step_grown (c : Chain) (k : list Z) :
  head_present c ->
  exists c', checkReorg_step c k = Done c' /\ grown_from c c'.
Proof.
  intros H. unfold checkReorg_step.
  destruct (sideBranches c !! k) as [branch|];
    [|exists c; split; [reflexivity | apply grown_refl, H]].
  destruct (last branch) as [tip|] eqn:El;
    [|exists c; split; [reflexivity | apply grown_refl, H]].
  destruct (head c <? header.Height (Header tip));
    [|exists c; split; [reflexivity | apply grown_refl, H]].
  destruct branch as [|b0 rest]; [discriminate El|].
  cbn [reorgToBranch obind fold_left].
  eexists. split; [reflexivity|].
  assert (Hb : grown_from c
                 (applyBranchBlock
                    (set_head c (Int.to_uint64 (header.Height (Header b0) - 1))) b0))
    by (apply applyBranchBlock_grown; reflexivity).
  pose proof (fold_apply_grown rest _ (proj1 Hb)) as Hr.
  pose proof (grown_trans _ _ _ Hb Hr) as Hall.
  apply (grown_trans _ _ _ Hall).
  apply grown_same; try reflexivity. exact (proj1 Hall).
Qed.

Lemma checkReorg_in_grown (order : list (list Z)) (c : Chain) :
  head_present c ->
  exists c', checkReorg_in order c = Done c' /\ grown_from c c'.
Proof.
  revert c. induction order as [|k order IH]; intros c H; cbn [checkReorg_in].
  - exists c. split; [reflexivity | apply grown_refl, H].
  - destruct (checkReorg_step_grown c k H) as (c1 & E1 & G1).
    rewrite E1. cbn [obind].
    destruct (IH c1 (proj1 G1)) as (c2 & E2 & G2).
    exists c2. split; [exact E2 | exact (grown_trans _ _ _ G1 G2)].
Qed.

Lemma checkReorg_grown (rt : Runtime) (c : Chain) :
  head_present c ->
  exists c', checkReorg rt c = Done c' /\ grown_from c c'.
Proof. apply checkReorg_in_grown. Qed.

Lemma HeaderByHeight_grown (c : Chain) (h : Z) :
  head_present c -> grown_from c (HeaderByHeight c h).2.
Proof.
  intros H. unfold HeaderByHeight.
  destruct (blocks c !! h) as [blk|].
  - cbn [snd]. apply (grown_insert _ _ h (fixBits blk)); auto.
  - destruct (GetBlock (store c) h) as [blk|].
    + cbn [snd]. apply (grown_insert _ _ h (fixBits blk)); auto.
    + apply grown_refl, H.
Qed.

Lemma Adjust_grown (c : Chain) (tip : option header.Header) :
  head_present c -> grown_from c (Adjust HeaderByHeight c tip).2.
Proof.
  intros H. unfold Adjust.
  destruct tip as [tip|]; [|apply grown_refl, H].
  destruct (header.Bits tip) as [bits|]; [|apply grown_refl, H].
  destruct (header.Height tip <? config.RetargetInterval); [apply grown_refl, H|].
  cbv zeta.
  pose proof (HeaderByHeight_grown c
                (Int.to_uint64 (header.Height tip - config.RetargetInterval + 1)) H) as G.
  destruct (HeaderByHeight c _) as [[first|] c1]; exact G.
Qed.

Lemma insertBlock_grown (rt : Runtime) (c0 c : Chain) (block : Block) :
  blocks c = blocks c0 ->
  orphanImportInProgress c = orphanImportInProgress c0 ->
  grown_from c0 (insertBlock rt c block).
Proof.
  intros Hb Hf. apply (grown_insert _ _ (header.Height (Header block)) block).
  - unfold insertBlock, persist, notifyHeadChange. cbv zeta.
    destruct (PutBlock _ _ _); destruct (0 <? PruneDepth rt); cbn; rewrite Hb; reflexivity.
  - left. unfold insertBlock, persist, notifyHeadChange. cbv zeta.
    destruct (PutBlock _ _ _); destruct (0 <? PruneDepth rt); reflexivity.
  - unfold insertBlock, persist, notifyHeadChange. cbv zeta.
    destruct (PutBlock _ _ _); destruct (0 <? PruneDepth rt); cbn; exact Hf.
Qed.

Lemma addToSideBranch_grown (c : Chain) (block : Block) :
  head_present c -> grown_from c (addToSideBranch c block).
Proof. intros H. apply grown_same; auto. Qed.

Lemma addToOrphanPool_grown (c : Chain) (block : Block) :
  head_present c -> grown_from c (addToOrphanPool c block).
Proof.
  intros H. unfold addToOrphanPool. cbv zeta.
  destruct (RequestBlockByHash _); apply grown_same; auto.
Qed.

Lemma fold_addToSideBranch_grown (l : list Block) (c : Chain) :
  head_present c -> grown_from c (fold_left addToSideBranch l c).
Proof.
  revert c. induction l as [|b l IH]; intros c H; cbn [fold_left].
  - apply grown_refl, H.
  - pose proof (addToSideBranch_grown c b H) as G.
    exact (grown_trans _ _ _ G (IH _ (proj1 G))).
Qed.

Section Import_total.

Variable import : Chain -> Block -> Outcome (Chain * option ImportError).
Hypothesis import_grown :
  forall c b, head_present c -> orphanImportInProgress c = true ->
    exists c' e, import c b = Done (c', e) /\ grown_from c c'.

Lemma importAll_grown (l : list Block) (c : Chain) :
  head_present c -> orphanImportInProgress c = true ->
  exists c', importAll import l c = Done c' /\ grown_from c c'.
Proof.
  revert c. induction l as [|b l IH]; intros c H Hf; cbn [importAll].
  - exists c. split; [reflexivity | apply grown_refl, H].
  - destruct (import_grown c b H Hf) as (c1 & e & E1 & G1).
    rewrite E1. cbn [obind fst].
    destruct (IH c1 (proj1 G1)) as (c2 & E2 & G2).
    { destruct G1 as (_ & F1 & _). congruence. }
    exists c2. split; [exact E2 | exact (grown_trans _ _ _ G1 G2)].
Qed.

Lemma tryImportOrphans_grown (c : Chain) (k : list Z) :
  head_present c ->
  exists c', tryImportOrphans import c k = Done c' /\ grown_from c c'.
Proof.
  intros H. unfold tryImportOrphans.
  destruct (orphanImportInProgress c) eqn:Ef.
  - exists c. split; [reflexivity | apply grown_refl, H].
  - cbv zeta.
    destruct (OrphanPool (set_orphanImportInProgress c true) !! k) as [orphans|].
    + set (c1 := set_OrphanPool (set_orphanImportInProgress c true) _).
      destruct (importAll_grown (List.filter (orphan_importable c1) orphans) c1)
        as (c2 & E2 & G2); [exact H | reflexivity |].
      rewrite E2. cbn [obind].
      eexists. split; [reflexivity|].
      pose proof (fold_addToSideBranch_grown
                    (List.filter (orphan_sideBranched c1) orphans) c2 (proj1 G2)) as G3.
      destruct (grown_trans _ _ _ G2 G3) as (H4 & _ & B4).
      repeat split; [exact H4 | cbn; congruence | exact B4].
    + cbn [obind]. eexists. split; [reflexivity|].
      repeat split; [exact H | cbn; congruence | auto].
Qed.

End Import_total.

Lemma importBlockInternal_grown
    (orphans : Chain -> list Z -> Outcome Chain)
    (rt : Runtime) (c : Chain) (block : Block) :
  head_present c ->
  (forall c0 k, head_present c0 ->
     orphanImportInProgress c0 = orphanImportInProgress c ->
     exists c', orphans c0 k = Done c' /\ grown_from c0 c') ->
  exists c' e,
    importBlockInternal orphans rt c block = Done (c', e) /\ grown_from c c'.
Proof.
  intros H Ho. unfold importBlockInternal. cbv zeta.
  destruct (blocks c !! header.Height (Header block)) as [existing|].
  - destruct (bool_decide _);
      [do 2 eexists; split; [reflexivity | apply grown_refl, H]|].
    destruct H as [headBlock Hhb]. rewrite Hhb.
    assert (H : head_present c) by (unfold head_present; eauto).
    destruct (bool_decide _);
      [do 2 eexists; split; [reflexivity | apply grown_refl, H]|].
    pose proof (addToSideBranch_grown c block H) as G1.
    destruct (checkReorg_grown rt _ (proj1 G1)) as (c2 & E2 & G2).
    rewrite E2. cbn [obind]. do 2 eexists.
    split; [reflexivity | exact (grown_trans _ _ _ G1 G2)].
  - destruct (find_parent _ _ _) as [parent|];
      [|do 2 eexists; split; [reflexivity | apply addToOrphanPool_grown, H]].
    destruct (negb (_ =? _));
      [do 2 eexists; split; [reflexivity | apply addToSideBranch_grown, H]|].
    destruct (negb (bool_decide (header.ParentHash _ = _)));
      [do 2 eexists; split; [reflexivity | apply addToSideBranch_grown, H]|].
    destruct (negb (bool_decide (header.Hash _ = _)));
      [do 2 eexists; split; [reflexivity | apply grown_refl, H]|].
    assert (Hins : forall c1 blk, grown_from c c1 ->
              exists c' e,
                obind (checkReorg rt (insertBlock rt c1 blk)) (fun c2 =>
                obind (orphans c2 (Block_Hash blk)) (fun c3 => Done (c3, @None ImportError)))
                  = Done (c', e) /\ grown_from c c').
    { intros c1 blk G1.
      assert (G2 : grown_from c1 (insertBlock rt c1 blk))
        by (apply insertBlock_grown; reflexivity).
      destruct (checkReorg_grown rt _ (proj1 G2)) as (c3 & E3 & G3).
      rewrite E3. cbn [obind].
      pose proof (grown_trans _ _ _ G1 (grown_trans _ _ _ G2 G3)) as G13.
      destruct (Ho c3 (Block_Hash blk) (proj1 G13) (proj1 (proj2 G13)))
        as (c4 & E4 & G4).
      rewrite E4. cbn [obind]. do 2 eexists.
      split; [reflexivity | exact (grown_trans _ _ _ G13 G4)]. }
    destruct (_ && _).
    + pose proof (Adjust_grown c (Some (Header block)) H) as GA.
      destruct (Adjust HeaderByHeight c (Some (Header block))) as [[newTarget [e|]] c1];
        cbn [snd] in GA.
      * do 2 eexists. split; [reflexivity | exact GA].
      * apply Hins, GA.
    + apply Hins, grown_refl, H.
Qed.

Lemma ImportBlock_in_progress (fuel : nat) (rt : Runtime) (c : Chain) (block : Block) :
  head_present c -> orphanImportInProgress c = true ->
  exists c' e, ImportBlock (S fuel) rt c block = Done (c', e) /\ grown_from c c'.
Proof.
  intros H Hf. cbn [ImportBlock]. apply importBlockInternal_grown; [exact H|].
  intros c0 k H0 Hf0. unfold tryImportOrphans. rewrite Hf0, Hf.
  exists c0. split; [reflexivity | apply grown_refl, H0].
Qed.

Lemma ImportBlock_grown (fuel : nat) (rt : Runtime) (c : Chain) (block : Block) :
  head_present c ->
  exists c' e, ImportBlock (S (S fuel)) rt c block = Done (c', e) /\ grown_from c c'.
Proof.
  intros H. cbn [ImportBlock]. apply importBlockInternal_grown; [exact H|].
  intros c0 k H0 _. apply tryImportOrphans_grown; [|exact H0].
  intros c1 b H1 Hf1. apply (ImportBlock_in_progress fuel rt c1 b H1 Hf1).
Qed.

Lemma NewChain_head_present (target : Z) (callback : bool) (now : Z) :
  head_present (NewChain target callback now).
Proof.
  unfold head_present, NewChain, createGenesis, persist. cbv zeta.
  destruct (PutBlock _ _ _); cbn; rewrite lookup_insert_eq; eauto.
Qed.



Lemma handleBlockResp_grown (rt : Runtime) (resp : list Block) (c : Chain) :
  head_present c ->
  exists c', net.handleBlockResp rt resp c = Done c' /\ grown_from c c'.
Proof.
  revert c. induction resp as [|blk resp IH]; intros c H; cbn [net.handleBlockResp].
  - exists c. split; [reflexivity | apply grown_refl, H].
  - destruct (ImportBlock_grown 0 rt c blk H) as (c1 & e & E1 & G1).
    rewrite E1. cbn [obind fst].
    destruct (IH c1 (proj1 G1)) as (c2 & E2 & G2).
    exists c2. split; [exact E2 | exact (grown_trans _ _ _ G1 G2)].
Qed.

